(** * Brain-state labelling and temporal-dynamics metrics

    A shallow embedding of the algorithmic core of
    [Brain_State_Analysis/extract_brain_states.py],
    [Brain_State_Analysis/extract_brain_states_noLIM.py] and
    [Brain_State_Analysis/calculate_temporal_metrics_NoLIM.py],
    with the properties of the specification stated and proved over it.

    Numbers.  Python ints are [Z]; numpy [int64] arithmetic is [Z] with its
    wrap-around written out ([wrap64]).  A binary64 float is modelled by
    [fval]: an exact rational, one of the two infinities, or NaN.  NaN
    propagation, the comparisons with NaN and division by zero follow IEEE
    754; rounding and overflow are not modelled, so every finite result is
    the exact real one. *)

From Stdlib Require Import QArith Qfield.
From stdpp Require Import gmap strings list fin_maps sorting.

Open Scope Z_scope.

(** ** Exceptions *)

Inductive exn := IndexError | ValueError | ZeroDivisionError.

Inductive result (A : Type) :=
| Ok (a : A)
| Raise (e : exn).
Arguments Ok {A} a.
Arguments Raise {A} e.

(** Exceptions propagate through sequencing: [x ← r; k] is stdpp's monadic
    bind at [result]. *)
#[global] Instance result_ret : MRet result := λ A a, Ok a.
#[global] Instance result_bind : MBind result := λ A B k r,
  match r with
  | Ok a => k a
  | Raise e => Raise e
  end.

(** ** Floats *)

Module Float.

Inductive fval := Fin (q : Q) | PInf | NInf | NaN.

Definition isnan (x : fval) : bool :=
  match x with NaN => true | _ => false end.

(** [x <= y]; false as soon as one side is NaN. *)
Definition fle (x y : fval) : bool :=
  match x, y with
  | NaN, _ | _, NaN => false
  | NInf, _ => true
  | _, PInf => true
  | Fin a, Fin b => Qle_bool a b
  | _, _ => false
  end.

Definition fadd (x y : fval) : fval :=
  match x, y with
  | NaN, _ | _, NaN => NaN
  | PInf, NInf | NInf, PInf => NaN
  | PInf, _ | _, PInf => PInf
  | NInf, _ | _, NInf => NInf
  | Fin a, Fin b => Fin (a + b)
  end.

Definition fsum (l : list fval) : fval := foldl fadd (Fin 0) l.

(** Division of a float by a count [n > 0] (the [n = 0] case is guarded
    by every caller). *)
Definition fdiv_count (x : fval) (n : nat) : fval :=
  match x with
  | Fin a => Fin (a / inject_Z (Z.of_nat n))
  | other => other
  end.

(** numpy's true division of an integer by an integer, both converted to
    binary64: [c / 0] is [inf], [-inf] or [nan] (with a RuntimeWarning,
    not an exception). *)
Definition int_true_divide (c d : Z) : fval :=
  if d =? 0 then
    (if c =? 0 then NaN else if 0 <? c then PInf else NInf)
  else Fin (inject_Z c / inject_Z d).

End Float.
Import Float.

(** ** The Dominant-State Classifier: [tr_net_labels]

    The function has the same body in [extract_brain_states.py] (lines
    9-32) and in [extract_brain_states_noLIM.py] (lines 8-30). *)

(** One row of the per-timepoint dataframe.  [network_id] is [None] where
    [Series.map] found no entry for the region (pandas stores NaN). *)
Record df_row := { network_id : option Z; value : fval }.

(** [Series.mean()]: pandas skips NaN ([skipna=True]); the mean of an empty
    (or all-NaN) series is NaN. *)
Definition series_mean (s : list fval) : fval :=
  let xs := List.filter (λ x, negb (isnan x)) s in
  match xs with
  | [] => NaN
  | _ => fdiv_count (fsum xs) (length xs)
  end.

(** [df[df['network_id'] == i]['value']] *)
Definition network_values (df : list df_row) (i : Z) : list fval :=
  value <$> filter (λ r, network_id r = Some i) df.

(** [for i in range(1, nlabels): net_means.append(...mean())] *)
Definition net_means (df : list df_row) (nlabels : Z) : list fval :=
  (λ i, series_mean (network_values df i)) <$> seqZ 1 (nlabels - 1).

(** [np.argmax] on a float array, as numpy computes it: the running
    maximum is replaced whenever [not (x <= max)], and the scan stops at
    the first NaN.  An empty array raises [ValueError]. *)
Fixpoint argmax_loop (mp : fval) (max_ind i : nat) (ip : list fval) : nat :=
  match ip with
  | [] => max_ind
  | x :: rest =>
      if negb (fle x mp) then
        (if isnan x then i else argmax_loop x i (S i) rest)
      else argmax_loop mp max_ind (S i) rest
  end.

Definition np_argmax (a : list fval) : result nat :=
  match a with
  | [] => Raise ValueError
  | x :: rest => if isnan x then Ok 0%nat else Ok (argmax_loop x 0 1 rest)
  end.

Definition tr_net_labels (df : list df_row) (nlabels : Z) (activity_thr : fval)
  : result Z :=
  let means := net_means df nlabels in
  idx ← np_argmax means;
  match means !! idx with
  | None => Raise IndexError
  | Some m =>
      if fle activity_thr m then Ok (Z.of_nat idx + 1) else Ok nlabels
  end.

(** ** numpy integer arrays *)

(** The value of an [int64] operation whose exact result is [z]. *)
Definition wrap64 (z : Z) : Z := (z + 2 ^ 63) `mod` 2 ^ 64 - 2 ^ 63.

Definition int64 (z : Z) : Prop := - 2 ^ 63 ≤ z < 2 ^ 63.

(** [a[i]] for an integer [i]: a negative index counts from the end, an
    index outside [-len, len) raises [IndexError]. *)
Definition np_index {A} (a : list A) (i : Z) : result A :=
  let n := Z.of_nat (length a) in
  let j := if i <? 0 then i + n else i in
  if (j <? 0) || (n <=? j) then Raise IndexError
  else match a !! Z.to_nat j with
       | Some x => Ok x
       | None => Raise IndexError
       end.

(** [np.diff(a)]: [a[1:] - a[:-1]] in [int64]. *)
Definition np_diff (a : list Z) : list Z :=
  zip_with (λ lo hi, wrap64 (hi - lo)) a (drop 1 a).

(** [np.where(d != 0)[0]], the positions counted from [i]. *)
Fixpoint where_nonzero (i : Z) (d : list Z) : list Z :=
  match d with
  | [] => []
  | x :: rest =>
      if x =? 0 then where_nonzero (i + 1) rest
      else i :: where_nonzero (i + 1) rest
  end.

Definition sumZ (l : list Z) : Z := foldr Z.add 0 l.

Definition sumQ (l : list Q) : Q := foldr Qplus 0%Q l.

(** [np.mean] of an integer array. *)
Definition np_mean_int (l : list Z) : Q :=
  (inject_Z (sumZ l) / inject_Z (Z.of_nat (length l)))%Q.

(** Python's [a / b] for an int [a] and a float [b]. *)
Definition py_truediv (a : Z) (b : Q) : result Q :=
  if Qeq_bool b 0 then Raise ZeroDivisionError else Ok (inject_Z a / b)%Q.

(** [np.stack(rows).T] for [rows] of common length [k]. *)
Definition transpose {A} (k : nat) (rows : list (list A)) : list (list A) :=
  foldr (zip_with cons) (replicate k []) rows.

(** [a[:-1]] *)
Definition drop_last {A} (a : list A) : list A := take (length a - 1) a.

(** ** The Temporal-Dynamics Metrics Engine
    ([calculate_temporal_metrics_NoLIM.py]) *)

Abbreviation matrix A := (list (list A)).

Record subject_metrics := {
  fo : list fval;
  dt : list Q;
  ar : list Q;
  tp2d : matrix Q;
  tp2d_nopersist : matrix Q
}.

Section Subject.

(** The parameters of [calculate_dynamics_for_group]; [n_states] is an
    array dimension. *)
Variable n_states : nat.
Variable tr_duration_s : Q.
Variable total_timepoints : Z.

(** [time_labels]: one label file, after [.astype(int)]. *)
Variable time_labels : list Z.

(** line 19 *)
Definition scan_length_min : Q :=
  (inject_Z total_timepoints * tr_duration_s / 60)%Q.

(** [np.sum(time_labels == i)] *)
Definition count_label (i : Z) : Z :=
  Z.of_nat (length (filter (λ l, l = i) time_labels)).

(** line 35 *)
Definition fractional_occupancy : list fval :=
  (λ i, int_true_divide (count_label i) total_timepoints)
    <$> seqZ 1 (Z.of_nat n_states).

(** lines 43-45 *)
Definition change_points : list Z :=
  (λ p, wrap64 (p + 1)) <$> where_nonzero 0 (np_diff time_labels).
Definition block_starts : list Z := 0 :: change_points.
Definition block_ends : list Z := change_points ++ [total_timepoints].

(** lines 48-49 *)
Definition block_lengths : list Z :=
  zip_with (λ e s, wrap64 (e - s)) block_ends block_starts.
Definition block_states : result (list Z) :=
  mapM (λ s, l ← np_index time_labels s; Ok (wrap64 (l - 1))) block_starts.

(** [block_lengths[block_states == i]] *)
Definition state_block_lengths (states : list Z) (i : Z) : list Z :=
  fst <$> filter (λ p, snd p = i) (zip block_lengths states).

(** lines 52-61, one iteration *)
Definition dwell_appearance (states : list Z) (i : Z) : result (Q * Q) :=
  let current_state_block_lengths := state_block_lengths states i in
  if decide (0 < length current_state_block_lengths)%nat then
    let d := (np_mean_int current_state_block_lengths * tr_duration_s)%Q in
    a ← py_truediv (Z.of_nat (length current_state_block_lengths))
                   scan_length_min;
    Ok (d, a)
  else Ok (0%Q, 0%Q).

(** lines 67-75 *)
Definition states_0based : list Z := (λ l, wrap64 (l - 1)) <$> time_labels.

Definition in_range (s : Z) : bool := (0 <=? s) && (s <? Z.of_nat n_states).

Definition increment (tp : matrix Z) (from_state to_state : Z) : matrix Z :=
  alter (alter Z.succ (Z.to_nat to_state)) (Z.to_nat from_state) tp.

(** The loop of lines 70-75 over the array [states] computed at line
    68. *)
Fixpoint tp_loop (states : list Z) (ts : list Z) (tp_matrix : matrix Z)
  : result (matrix Z) :=
  match ts with
  | [] => Ok tp_matrix
  | t :: rest =>
      from_state ← np_index states t;
      to_state ← np_index states (t + 1);
      tp_loop states rest
        (if in_range from_state && in_range to_state
         then increment tp_matrix from_state to_state
         else tp_matrix)
  end.

Definition transition_counts : result (matrix Z) :=
  tp_loop states_0based (seqZ 0 (total_timepoints - 1))
          (replicate n_states (replicate n_states 0)).

(** [np.divide(m, row_sums, out=zeros, where=row_sums != 0)], one row *)
Definition divide_row (row : list Z) : list Q :=
  let row_sum := sumZ row in
  (λ c, if row_sum =? 0 then 0%Q
        else (inject_Z c / inject_Z row_sum)%Q) <$> row.

Definition row_normalize (m : matrix Z) : matrix Q := divide_row <$> m.

(** [np.fill_diagonal(m, 0)] *)
Definition fill_diagonal_0 (m : matrix Z) : matrix Z :=
  imap (λ i row, <[i := 0]> row) m.

(** The body of the loop over subjects, lines 32-88. *)
Definition subject_dynamics : result subject_metrics :=
  let fo := fractional_occupancy in
  states ← block_states;
  dtar ← mapM (dwell_appearance states) (seqZ 0 (Z.of_nat n_states));
  tp_matrix ← transition_counts;
  Ok {| fo := fo;
        dt := fst <$> dtar;
        ar := snd <$> dtar;
        tp2d := row_normalize tp_matrix;
        tp2d_nopersist := row_normalize (fill_diagonal_0 tp_matrix) |}.

End Subject.

(** *** The loop over subjects and the stacking (lines 24-29, 92-94) *)

Record group_metrics := {
  fo_all : matrix fval;
  dt_all : matrix Q;
  ar_all : matrix Q;
  tp_all : list (matrix Q);
  tp_nopersist_all : list (matrix Q)
}.

(** The label directory: subject id to the content of
    [<id>_dominance_network_labels.npy] cast to int; no entry where the
    file does not exist.  Missing subjects are skipped. *)
Definition loaded_labels (files : gmap Z (list Z)) (subject_list : list Z)
  : list (list Z) :=
  omap (λ subject_id, files !! subject_id) subject_list.

(** [np.stack] of a list of arrays of one shape; it raises [ValueError]
    on an empty list. *)
Definition np_stack {A} (arrays : list A) : result (list A) :=
  match arrays with
  | [] => Raise ValueError
  | _ => Ok arrays
  end.

Definition calculate_dynamics_for_group
    (files : gmap Z (list Z)) (subject_list : list Z)
    (n_states : nat) (tr_duration_s : Q) (total_timepoints : Z)
  : result group_metrics :=
  ms ← mapM (subject_dynamics n_states tr_duration_s total_timepoints)
            (loaded_labels files subject_list);
  fo_s ← np_stack (fo <$> ms);
  dt_s ← np_stack (dt <$> ms);
  ar_s ← np_stack (ar <$> ms);
  tp_s ← np_stack (tp2d <$> ms);
  tpn_s ← np_stack (tp2d_nopersist <$> ms);
  Ok {| fo_all := transpose n_states fo_s;
        dt_all := transpose n_states dt_s;
        ar_all := transpose n_states ar_s;
        tp_all := tp_s;
        tp_nopersist_all := tpn_s |}.

(** *** The main script (lines 98-168) *)

Inductive thre_type := thr_0 | nonthr.

Definition TOTAL_TIMEPOINTS : Z := 490.
Definition TR_DURATION_S : Q := 735 # 1000.

Definition n_states_of (t : thre_type) : nat :=
  match t with
  | nonthr => 6
  | thr_0 => 7
  end.

(** lines 144-155: [X[:-1, :]] on the three (states, subjects) arrays and
    [X[:, :-1, :-1]] on the two (subjects, states, states) tensors. *)
Definition remove_nota (g : group_metrics) : group_metrics :=
  {| fo_all := drop_last (fo_all g);
     dt_all := drop_last (dt_all g);
     ar_all := drop_last (ar_all g);
     tp_all := (λ m, drop_last <$> drop_last m) <$> tp_all g;
     tp_nopersist_all := (λ m, drop_last <$> drop_last m) <$> tp_nopersist_all g |}.

(** One iteration of the analysis loop, up to the dictionary that is
    saved: the MDD and the HC tensors. *)
Definition process_condition (t : thre_type)
    (mdd_files : gmap Z (list Z)) (mdd_list : list Z)
    (hc_files : gmap Z (list Z)) (hc_list : list Z)
  : result (group_metrics * group_metrics) :=
  mdd ← calculate_dynamics_for_group mdd_files mdd_list
          (n_states_of t) TR_DURATION_S TOTAL_TIMEPOINTS;
  hc ← calculate_dynamics_for_group hc_files hc_list
          (n_states_of t) TR_DURATION_S TOTAL_TIMEPOINTS;
  Ok (match t with
      | thr_0 => (remove_nota mdd, remove_nota hc)
      | nonthr => (mdd, hc)
      end).

(** ** The Label-Set Harmonizer ([extract_brain_states_noLIM.py], lines
    47-86) *)

Module NoLIM.

Definition original_labels : list string :=
  ["Vis"; "SomMot"; "DorsAttn"; "VentAttn"; "Limbic"; "Frontoparietal";
   "Default"; "NOTA"].

Definition limbic_label_name : string := "Limbic".

(** [list.index]: the first position of [x], [ValueError] if absent. *)
Fixpoint list_index (x : string) (l : list string) : result Z :=
  match l with
  | [] => Raise ValueError
  | y :: rest =>
      if decide (y = x) then Ok 0
      else (i ← list_index x rest; Ok (i + 1))
  end.

(** lines 56-60 *)
Definition limbic_id : result Z :=
  i ← list_index limbic_label_name original_labels; Ok (i + 1).

(** lines 70-71 *)
Definition labels : list string :=
  filter (λ label, label ≠ limbic_label_name) original_labels.
Definition nlabels : Z := Z.of_nat (length labels).

(** [dict(pairs)] and dict comprehensions: a later pair overrides an
    earlier one with the same key. *)
Definition py_dict `{Countable K} {V} (pairs : list (K * V)) : gmap K V :=
  foldl (λ m p, <[p.1 := p.2]> m) ∅ pairs.

(** [enumerate(l, start)] *)
Definition enumerate {A} (l : list A) (start : Z) : list (Z * A) :=
  zip (seqZ start (Z.of_nat (length l))) l.

Section Atlas.

(** The rows of [BNA_210_yeo_order.csv]: columns [ROI] and
    [network_id]. *)
Variable original_atlas_order : list (Z * Z).

(** line 63, given the id found at line 57 *)
Definition filter_atlas (lid : Z) : list (Z * Z) :=
  filter (λ r, r.2 ≠ lid) original_atlas_order.

(** line 67 *)
Definition rois_to_keep_indices (lid : Z) : list Z :=
  (λ r, wrap64 (r.1 - 1)) <$> filter_atlas lid.

(** line 77: [sorted(atlas_order['network_id'].unique())] *)
Definition unique_old_ids (lid : Z) : list Z :=
  merge_sort Z.le (remove_dups (snd <$> filter_atlas lid)).

(** line 78 *)
Definition old_to_new_id_map (lid : Z) : gmap Z Z :=
  py_dict ((λ p, (p.2, p.1)) <$> enumerate (unique_old_ids lid) 1).

(** line 79: [Series.map(dict)]; [None] is the NaN pandas stores for a
    value that is not a key. *)
Definition atlas_order (lid : Z) : list (Z * option Z) :=
  (λ r, (r.1, old_to_new_id_map lid !! r.2)) <$> filter_atlas lid.

(** line 81 *)
Definition nrois (lid : Z) : Z := Z.of_nat (length (atlas_order lid)).

(** lines 85-86 *)
Definition id2net : gmap Z string :=
  py_dict (zip (seqZ 1 nlabels) labels).
Definition roi2id (lid : Z) : gmap Z (option Z) := py_dict (atlas_order lid).

(** Everything the configuration block computes. *)
Record config := {
  cfg_limbic_id : Z;
  cfg_atlas_order : list (Z * option Z);
  cfg_rois_to_keep_indices : list Z;
  cfg_labels : list string;
  cfg_nlabels : Z;
  cfg_old_to_new_id_map : gmap Z Z;
  cfg_id2net : gmap Z string;
  cfg_roi2id : gmap Z (option Z)
}.

Definition configure : result config :=
  lid ← limbic_id;
  Ok {| cfg_limbic_id := lid;
        cfg_atlas_order := atlas_order lid;
        cfg_rois_to_keep_indices := rois_to_keep_indices lid;
        cfg_labels := labels;
        cfg_nlabels := nlabels;
        cfg_old_to_new_id_map := old_to_new_id_map lid;
        cfg_id2net := id2net;
        cfg_roi2id := roi2id lid |}.

End Atlas.

End NoLIM.

(** ** Labelling a subject and the State-Map Aggregator

    [ttss] is the z-scored activity matrix, of shape
    [(n_timepoints, n_rois_curr)], given as its rows. *)

(** The rows of [ttss_df[ttss_df.tr == tr]]: one per column of [ttss], in
    column order, with the network the column's region maps to. *)
Definition timepoint_df (column_network : list (option Z)) (activity : list fval)
  : list df_row :=
  zip_with (λ n v, {| network_id := n; value := v |}) column_network activity.

(** The loop [for tr in range(n_timepoints)] that fills [time_labels]. *)
Definition label_timepoints (column_network : list (option Z)) (nlabels : Z)
    (activity_thr : fval) (ttss : matrix fval) : result (list Z) :=
  mapM (λ activity,
          tr_net_labels (timepoint_df column_network activity)
                        nlabels activity_thr) ttss.

(** [time_labels == lab_idx + 1] *)
Definition state_mask (time_labels : list Z) (lab_idx : nat) : list bool :=
  (λ l, bool_decide (l = Z.of_nat lab_idx + 1)) <$> time_labels.

(** [np.sum(mask)] *)
Definition mask_count (mask : list bool) : nat :=
  length (filter (λ b, b = true) mask).

(** [ttss[mask]] *)
Definition masked_rows (mask : list bool) (ttss : matrix fval) : matrix fval :=
  snd <$> filter (λ p, p.1 = true) (zip mask ttss).

(** [np.mean(rows, axis=0)] for a non-empty [rows]: NaN and infinities
    propagate through the sum. *)
Definition column_means (n_rois_curr : nat) (rows : matrix fval) : list fval :=
  (λ col, fdiv_count (fsum col) (length col)) <$> transpose n_rois_curr rows.

(** The mean activity pattern of one state, or zeros where the state
    never appears. *)
Definition state_mean (n_rois_curr : nat) (ttss : matrix fval) (mask : list bool)
  : list fval :=
  if decide (0 < mask_count mask)%nat
  then column_means n_rois_curr (masked_rows mask ttss)
  else replicate n_rois_curr (Fin 0).

(** What one [tmp_df] adds to the group table: [len(atlas_order)] rows
    with the same subject and state, and the state map as their [value]
    column. *)
Record state_map := {
  sm_subject : Z;
  sm_state : string;
  sm_value : list fval
}.

(** [tmp_df['value'] = v]: pandas raises [ValueError] when the length of
    [v] is not the number of rows. *)
Definition make_tmp_df (atlas_rows : nat) (subj_id : Z) (state : string)
    (v : list fval) : result state_map :=
  if decide (length v = atlas_rows)
  then Ok {| sm_subject := subj_id; sm_state := state; sm_value := v |}
  else Raise ValueError.

(** [np.all(np.isnan(v))] *)
Definition all_nan (v : list fval) : bool := forallb isnan v.

(** *** [extract_brain_states.py] *)

Module Full.

Definition LABELS : list string := NoLIM.original_labels.
Definition ACTIVITY_THR : fval := Fin 0.
Definition nlabels : Z := Z.of_nat (length LABELS).

Section Subject.
(** [atlas_order], columns [ROI] and [network_id] *)
Variable atlas_order : list (Z * Z).
Variable subj_id : Z.
Variable n_rois_curr : nat.
Variable ttss : matrix fval.

(** line 62 *)
Definition roi2id : gmap Z Z := NoLIM.py_dict atlas_order.

(** line 115: [ttss_df['roi'].map(roi2id)], regions numbered from 1 *)
Definition column_network : list (option Z) :=
  (λ roi, roi2id !! roi) <$> seqZ 1 (Z.of_nat n_rois_curr).

(** lines 119-122 *)
Definition time_labels : result (list Z) :=
  label_timepoints column_network nlabels ACTIVITY_THR ttss.

(** lines 132-145, one iteration: the state map is always appended. *)
Definition state_map_of (labels : list Z) (i : nat) (state : string)
  : result (list state_map) :=
  let state_map := state_mean n_rois_curr ttss (state_mask labels i) in
  tmp_df ← make_tmp_df (length atlas_order) subj_id state state_map;
  Ok [tmp_df].

(** The tables one subject appends to [group_states]. *)
Definition subject_state_maps : result (list state_map) :=
  labels ← time_labels;
  blocks ← mapM (λ p, state_map_of labels p.1 p.2)
                (imap (λ i lab, (i, lab)) LABELS);
  Ok (concat blocks).
End Subject.

End Full.

(** *** [extract_brain_states_noLIM.py] *)

Module NoLIMSubject.
Import NoLIM.

Definition activity_thr : fval := Fin 0.

Section Subject.
Variable cfg : config.
Variable subj_id : Z.
Variable ttss : matrix fval.

(** lines 117 and 125: [ttss] has one column per kept region. *)
Definition curr_n_rois : nat := length (cfg_rois_to_keep_indices cfg).

(** line 137 *)
Definition continuous_roi_to_original_roi : gmap Z Z :=
  py_dict (enumerate (fst <$> cfg_atlas_order cfg) 1).

(** lines 138-141: two [Series.map] in a row; a missing key gives NaN,
    and NaN is not a key of [roi2id]. *)
Definition column_network : list (option Z) :=
  (λ roi, original_roi ← continuous_roi_to_original_roi !! roi;
          mjoin (cfg_roi2id cfg !! original_roi))
    <$> seqZ 1 (Z.of_nat curr_n_rois).

(** lines 145-148 *)
Definition time_labels : result (list Z) :=
  label_timepoints column_network (cfg_nlabels cfg) activity_thr ttss.

(** lines 157-168, one iteration: an entirely-NaN state map is not
    appended. *)
Definition state_map_of (labels : list Z) (i : nat) (state : string)
  : result (list state_map) :=
  let state_mean := state_mean curr_n_rois ttss (state_mask labels i) in
  if negb (all_nan state_mean) then
    tmp_df ← make_tmp_df (length (cfg_atlas_order cfg)) subj_id state
               state_mean;
    Ok [tmp_df]
  else Ok [].

(** The tables one subject appends to [all_states_list]. *)
Definition subject_state_maps : result (list state_map) :=
  labels ← time_labels;
  blocks ← mapM (λ p, state_map_of labels p.1 p.2)
                (imap (λ i lab, (i, lab)) (cfg_labels cfg));
  Ok (concat blocks).
End Subject.

End NoLIMSubject.

(** ** The metrics as the specification words them

    Section 4.5 of the specification, for a label sequence of length [T],
    [K] states and a sampling interval; these definitions are written from
    the specification, to be compared with [subject_dynamics]. *)

Module Spec.

Section Metrics.
Variable K : nat.
Variable interval : Q.
Variable sequence : list Z.

Definition T : Z := Z.of_nat (length sequence).

Definition occurrences (i : Z) : Z :=
  Z.of_nat (length (filter (λ l, l = i) sequence)).

(** Fractional Occupancy for state [i] = (count of timepoints labeled
    [i]) / [T]. *)
Definition fractional_occupancy (i : Z) : Q :=
  (inject_Z (occurrences i) / inject_Z T)%Q.

(** A block: a maximal run of constant label covering [start, stop). *)
Record block := { label : Z; start : Z; stop : Z }.

Fixpoint blocks_from (pos : Z) (l : list Z) : list block :=
  match l with
  | [] => []
  | x :: rest =>
      match blocks_from (pos + 1) rest with
      | b :: more =>
          if decide (label b = x)
          then {| label := x; start := pos; stop := stop b |} :: more
          else {| label := x; start := pos; stop := pos + 1 |} :: b :: more
      | [] => [{| label := x; start := pos; stop := pos + 1 |}]
      end
  end.

Definition blocks : list block := blocks_from 0 sequence.

Definition blocks_of (i : Z) : list block :=
  filter (λ b, label b = i) blocks.

Definition mean (l : list Z) : Q :=
  (inject_Z (sumZ l) / inject_Z (Z.of_nat (length l)))%Q.

(** Dwell Time for state [i] = mean block length over the blocks
    labeled [i], times the sampling interval; 0 without such a block. *)
Definition dwell_time (i : Z) : Q :=
  match blocks_of i with
  | [] => 0%Q
  | bs => (mean ((λ b, (stop b - start b)%Z) <$> bs) * interval)%Q
  end.

(** Total scan duration in minutes, derived as [T] x interval. *)
Definition scan_minutes : Q := (inject_Z T * interval / 60)%Q.

(** Appearance Rate for state [i] = (number of blocks labeled [i]) /
    (total scan duration in minutes); 0 without such a block. *)
Definition appearance_rate (i : Z) : Q :=
  match blocks_of i with
  | [] => 0%Q
  | bs => (inject_Z (Z.of_nat (length bs)) / scan_minutes)%Q
  end.

(** The [T - 1] adjacent pairs (label at t, label at t+1). *)
Definition adjacent_pairs : list (Z * Z) := zip sequence (drop 1 sequence).

(** Entry (i, j) of the count matrix, states numbered from 1; a pair
    with a label outside [1, K] matches no entry. *)
Definition transitions (i j : Z) : Z :=
  Z.of_nat (length (filter (λ p, p = (i, j)) adjacent_pairs)).

Definition count_matrix : matrix Z :=
  (λ i, (λ j, transitions i j) <$> seqZ 1 (Z.of_nat K)) <$> seqZ 1 (Z.of_nat K).

Definition zero_diagonal (m : matrix Z) : matrix Z :=
  imap (λ i row, imap (λ j c, if decide (i = j) then 0 else c) row) m.

(** Each row divided by its sum; a row that sums to zero stays
    all-zero. *)
Definition normalize_rows (m : matrix Z) : matrix Q :=
  (λ row, (λ c, if decide (sumZ row = 0) then 0%Q
                else (inject_Z c / inject_Z (sumZ row))%Q) <$> row) <$> m.

Definition metrics : subject_metrics :=
  {| fo := (λ i, Fin (fractional_occupancy i)) <$> seqZ 1 (Z.of_nat K);
     dt := dwell_time <$> seqZ 1 (Z.of_nat K);
     ar := appearance_rate <$> seqZ 1 (Z.of_nat K);
     tp2d := normalize_rows count_matrix;
     tp2d_nopersist := normalize_rows (zero_diagonal count_matrix) |}.

End Metrics.

End Spec.

(** ** Vocabulary of the statements *)

(** [mx = a[idx]] is a maximum of the defined (non-NaN) entries of [a],
    and no earlier entry reaches it. *)
Definition is_first_max (a : list fval) (idx : nat) (mx : fval) : Prop :=
  a !! idx = Some mx ∧ isnan mx = false ∧
  (∀ j m, a !! j = Some m → isnan m = false → fle m mx = true) ∧
  (∀ j m, (j < idx)%nat → a !! j = Some m → fle mx m = false).

(** The number of timepoints whose label lies outside [1, K]. *)
Definition outside_count (K : nat) (time_labels : list Z) : Z :=
  Z.of_nat (length (filter (λ l, ¬ (1 ≤ l ≤ Z.of_nat K)) time_labels)).

(** A timepoint with a region of network 1 only. *)
Definition df_one : list df_row :=
  [ {| network_id := Some 1; value := Fin 5 |} ].

(** A timepoint with two regions in each of two networks. *)
Definition df_two : list df_row :=
  [ {| network_id := Some 1; value := Fin 2 |};
    {| network_id := Some 2; value := Fin 1 |};
    {| network_id := Some 2; value := Fin 3 |};
    {| network_id := Some 1; value := NaN |} ].

(** Each row of a transition-probability matrix sums to 1 where the count
    row has a nonzero sum, and is all-zero where it sums to zero. *)
Definition row_stochastic_or_zero (counts : list Z) (probabilities : list Q)
  : Prop :=
  length probabilities = length counts ∧
  (sumZ counts ≠ 0 → (sumQ probabilities == 1)%Q) ∧
  (sumZ counts = 0 → Forall (λ p, p = 0%Q) probabilities).

(** Entry [(i, s)] of a two-axis array and entry [(s, i, j)] of a
    three-axis one; shapes. *)
Definition entry2 {A} (a : matrix A) (i s : nat) : option A :=
  a !! i ≫= (.!! s).
Definition entry3 {A} (t : list (matrix A)) (s i j : nat) : option A :=
  t !! s ≫= (λ m, entry2 m i j).
Definition shape2 {A} (a : matrix A) (r c : nat) : Prop :=
  length a = r ∧ Forall (λ row, length row = c) a.
Definition shape3 {A} (t : list (matrix A)) (s r c : nat) : Prop :=
  length t = s ∧ Forall (λ m, shape2 m r c) t.

(** [g] is what the alignment step leaves of the tensors [g0] computed
    from the subjects' metrics [ms] with [S k] states: the first [k]
    states, every retained entry unchanged, axes (state, subject) and
    (subject, state, state). *)
Definition last_state_removed (k : nat) (ms : list subject_metrics)
    (g0 g : group_metrics) : Prop :=
  (fo_all g = take k (fo_all g0) ∧ dt_all g = take k (dt_all g0) ∧
   ar_all g = take k (ar_all g0) ∧
   tp_all g = (λ m, take k <$> take k m) <$> tp_all g0 ∧
   tp_nopersist_all g = (λ m, take k <$> take k m) <$> tp_nopersist_all g0) ∧
  (shape2 (fo_all g) k (length ms) ∧ shape2 (dt_all g) k (length ms) ∧
   shape2 (ar_all g) k (length ms) ∧
   shape3 (tp_all g) (length ms) k k ∧
   shape3 (tp_nopersist_all g) (length ms) k k) ∧
  (∀ i s, (i < k)%nat →
     (entry2 (fo_all g) i s = entry2 (fo_all g0) i s ∧
      entry2 (fo_all g) i s = ms !! s ≫= (λ m, fo m !! i)) ∧
     (entry2 (dt_all g) i s = entry2 (dt_all g0) i s ∧
      entry2 (dt_all g) i s = ms !! s ≫= (λ m, dt m !! i)) ∧
     (entry2 (ar_all g) i s = entry2 (ar_all g0) i s ∧
      entry2 (ar_all g) i s = ms !! s ≫= (λ m, ar m !! i))) ∧
  (∀ s i j, (i < k)%nat → (j < k)%nat →
     (entry3 (tp_all g) s i j = entry3 (tp_all g0) s i j ∧
      entry3 (tp_all g) s i j = ms !! s ≫= (λ m, entry2 (tp2d m) i j)) ∧
     (entry3 (tp_nopersist_all g) s i j = entry3 (tp_nopersist_all g0) s i j ∧
      entry3 (tp_nopersist_all g) s i j
      = ms !! s ≫= (λ m, entry2 (tp2d_nopersist m) i j))).

(** The alignment step applied to one cohort of the [thr_0] condition. *)
Definition nota_removed (files : gmap Z (list Z)) (subject_list : list Z)
    (g : group_metrics) : Prop :=
  ∃ ms g0,
    mapM (subject_dynamics 7 TR_DURATION_S TOTAL_TIMEPOINTS)
         (loaded_labels files subject_list) = Ok ms ∧
    calculate_dynamics_for_group files subject_list 7
      TR_DURATION_S TOTAL_TIMEPOINTS = Ok g0 ∧
    last_state_removed 6 ms g0 g.

(** The identifier a surviving network of the 7-network configuration
    gets when network 5 is excluded. *)
Definition renumber (old_id : Z) : Z :=
  if old_id <? 5 then old_id else old_id - 1.

(** ** Concrete inputs *)

(** Scenario 1 of the specification. *)
Definition scenario_1 : list Z := [1; 1; 1; 2; 2; 1].

(** An atlas with one region in each of the seven networks, and one with
    nine regions that come in no particular order. *)
Definition atlas_7 : list (Z * Z) :=
  [(1, 1); (2, 2); (3, 3); (4, 4); (5, 5); (6, 6); (7, 7)].
Definition atlas_9 : list (Z * Z) :=
  [(1, 1); (2, 3); (3, 5); (4, 2); (5, 7); (6, 6); (7, 4); (8, 5); (9, 1)].

(** A subject whose signal is NaN in every region after z-scoring (a
    constant signal has zero variance), over two timepoints. *)
Definition nan_ttss (n_rois : nat) : matrix fval :=
  replicate 2 (replicate n_rois NaN).

(** What [configure] returns on [atlas_7]. *)
Definition cfg_7 : NoLIM.config :=
  {| NoLIM.cfg_limbic_id := 5;
     NoLIM.cfg_atlas_order := NoLIM.atlas_order atlas_7 5;
     NoLIM.cfg_rois_to_keep_indices := NoLIM.rois_to_keep_indices atlas_7 5;
     NoLIM.cfg_labels := NoLIM.labels;
     NoLIM.cfg_nlabels := NoLIM.nlabels;
     NoLIM.cfg_old_to_new_id_map := NoLIM.old_to_new_id_map atlas_7 5;
     NoLIM.cfg_id2net := NoLIM.id2net;
     NoLIM.cfg_roi2id := NoLIM.roi2id atlas_7 5 |}.

(** ** Bridges between the code and the specification's wording *)

(** The change points of [l], its first element at position [pos]. *)
Definition cps_from (pos : Z) (l : list Z) : list Z :=
  (λ p, wrap64 (p + 1)) <$> where_nonzero pos (np_diff l).

(** A block lies within the sequence and carries the label found at its
    start. *)
Record block_ok (pos : Z) (l : list Z) (b : Spec.block) : Prop := {
  block_bounds : pos ≤ Spec.start b < Spec.stop b ∧
                 Spec.stop b ≤ pos + Z.of_nat (length l);
  block_label : l !! Z.to_nat (Spec.start b - pos) = Some (Spec.label b)
}.

(** The pairs (state at t, state at t+1), states numbered from 0. *)
Definition state_pairs (time_labels : list Z) : list (Z * Z) :=
  zip (states_0based time_labels) (drop 1 (states_0based time_labels)).

(** One iteration of the transition loop, on the pair it reads. *)
Definition step (n_states : nat) (tp : matrix Z) (p : Z * Z) : matrix Z :=
  if in_range n_states p.1 && in_range n_states p.2
  then increment tp p.1 p.2 else tp.

Definition pair_count (pairs : list (Z * Z)) (p : Z * Z) : Z :=
  Z.of_nat (length (filter (λ q, q = p) pairs)).

(** The metrics of Scenario 1 with two states and a 1 s interval. *)
Definition scenario_1_metrics : subject_metrics :=
  {| fo := [Fin (4 # 6); Fin (2 # 6)];
     dt := [(4 # 2)%Q; (2 # 1)%Q];
     ar := [(120 # 6)%Q; (60 # 6)%Q];
     tp2d := [[(2 # 3)%Q; (1 # 3)%Q]; [(1 # 2)%Q; (1 # 2)%Q]];
     tp2d_nopersist := [[0%Q; 1%Q]; [1%Q; 0%Q]] |}.

(** A sequence in which state 2 of 3 never occurs. *)
Definition no_state_2 : list Z := [1; 1; 3].

(** A sequence one timepoint longer than a configured length of 2. *)
Definition three_ones : list Z := [1; 1; 1].

(** A label directory for the main script (490 timepoints): subject 101
    cycles through the seven states, subject 103 stays in the reject
    state, and subject 102 of the list has no file. *)
Definition demo_files : gmap Z (list Z) :=
  <[103 := replicate 490 7]>
    (<[101 := (λ t, t `mod` 7 + 1) <$> seqZ 0 490]> ∅).
Definition demo_list : list Z := [101; 102; 103].

(** What the [thr_0] iteration of the main script computes from that
    directory, for both cohorts. *)
Definition demo_thr_0 : result (group_metrics * group_metrics) :=
  Eval vm_compute in
    process_condition thr_0 demo_files demo_list demo_files demo_list.

(** ** Vocabulary of the further properties *)

(** What one iteration of the loop at lines 157-168 of
    [extract_brain_states_noLIM.py] appends when the value column fits the
    atlas: nothing for an entirely-NaN state map, the map otherwise. *)
Definition NoLIM_stored (cfg : NoLIM.config) (subj_id : Z) (ttss : matrix fval)
    (labels : list Z) (i : nat) (state : string) : list state_map :=
  let v := state_mean (NoLIMSubject.curr_n_rois cfg) ttss
             (state_mask labels i) in
  if all_nan v then []
  else [ {| sm_subject := subj_id; sm_state := state; sm_value := v |} ].

(** A pair of consecutive labels that the transition loop counts: both
    lie in [1, n_states]. *)
Definition in_states (n_states : nat) (p : Z * Z) : Prop :=
  (1 ≤ p.1 ≤ Z.of_nat n_states) ∧ (1 ≤ p.2 ≤ Z.of_nat n_states).

(** A label directory with the files of subjects 7 (Scenario 1) and 8,
    and what [calculate_dynamics_for_group] makes of it with two states,
    a 1 s interval and 6 timepoints. *)
Definition scenario_1_files : gmap Z (list Z) :=
  <[8 := [2; 2; 2; 1; 1; 1]]> (<[7 := scenario_1]> ∅).
Definition scenario_1_group : group_metrics :=
  Eval vm_compute in
    match calculate_dynamics_for_group scenario_1_files [7; 8] 2 1 6 with
    | Ok g => g
    | Raise _ => {| fo_all := []; dt_all := []; ar_all := [];
                    tp_all := []; tp_nopersist_all := [] |}
    end.

(** * Control energy ([NCT_Control_Energy])

    The state maps of [state-maps_subject-level.csv] are turned into
    control tasks, one per ordered pair of states; the [nctpy] toolbox
    computes one energy per task, and [organize_energy_results.py]
    summarises the resulting matrices.  The two [nctpy] functions are
    parameters of the model. *)

(** [np.eye(n)] *)
Definition np_eye (n : nat) : matrix fval :=
  (λ i : nat, (λ j : nat, if decide (i = j) then Fin 1 else Fin 0) <$> seq 0 n)
    <$> seq 0 n.

(** [np.fill_diagonal(m, v)] on a float array *)
Definition fill_diagonal (v : fval) (m : matrix fval) : matrix fval :=
  imap (λ i row, <[i := v]> row) m.

(** [np.reshape(a, (r, c))] of a one-axis array, in row-major order;
    [ValueError] when the sizes differ. *)
Definition np_reshape {A} (a : list A) (r c : nat) : result (matrix A) :=
  if decide (length a = (r * c)%nat)
  then Ok ((λ i : nat, take c (drop (i * c) a)) <$> seq 0 r)
  else Raise ValueError.

(** [np.mean] of a one-axis float array; NaN for an empty one (with a
    RuntimeWarning). *)
Definition np_mean (a : list fval) : fval :=
  match a with
  | [] => NaN
  | _ => fdiv_count (fsum a) (length a)
  end.

Module Energy.

(** One row of [state-maps_subject-level.csv], columns [subject],
    [state] and [value].  The scripts compare subject identifiers as
    strings, [str(subject_id)] against the column cast to [str]; they are
    integers here. *)
Record state_row := {
  sr_subject : Z;
  sr_state : string;
  sr_value : fval
}.

(** The rows one [tmp_df] of the State-Map Aggregator contributes to the
    file, and the file made of the tables appended to [group_states]. *)
Definition rows_of (sm : state_map) : list state_row :=
  (λ v, {| sr_subject := sm_subject sm; sr_state := sm_state sm;
           sr_value := v |}) <$> sm_value sm.
Definition state_table (maps : list state_map) : list state_row :=
  concat (rows_of <$> maps).

(** A control task, keys ["x0"], ["xf"], ["B"], ["S"] and ["rho"]. *)
Record control_task := {
  task_x0 : list fval;
  task_xf : list fval;
  task_B : matrix fval;
  task_S : matrix fval;
  task_rho : Z
}.

(** Why [get_control_energy] returned without saving a result. *)
Inductive early_return :=
| no_states_file
| no_states_for_subject
| dimension_mismatch (label : string)
| no_sc_file.

Inductive outcome (A : Type) :=
| Returned (why : early_return)
| Saved (oce : A).
Arguments Returned {A} why.
Arguments Saved {A} oce.

(** line 98 of [compute_control_energy_onesub.py], line 79 of
    [compute_altered_control_energy_byAdd1.py] *)
Definition standard_labels : list string :=
  ["Vis"; "SomMot"; "DorsAttn"; "VentAttn"; "Limbic"; "Frontoparietal";
   "Default"].

(** lines 100 and 80 *)
Definition present_labels (subj_states_df : list state_row) : list string :=
  filter (λ l, l ∈ sr_state <$> subj_states_df) standard_labels.

(** lines 106 and 86:
    [subj_states_df[subj_states_df['state'] == label]['value'].values] *)
Definition state_values (subj_states_df : list state_row) (label : string)
  : list fval :=
  sr_value <$> filter (λ r, sr_state r = label) subj_states_df.

(** lines 105-112 and 85-91: the columns of [states_matrix], or the
    label at which the function returns. *)
Fixpoint fill_states (subj_states_df : list state_row) (n_roi : nat)
    (labels : list string) : string + list (list fval) :=
  match labels with
  | [] => inr []
  | label :: rest =>
      let temp_state := state_values subj_states_df label in
      if decide (length temp_state = n_roi) then
        match fill_states subj_states_df n_roi rest with
        | inl l => inl l
        | inr columns => inr (temp_state :: columns)
        end
      else inl label
  end.

(** lines 122-125 and 99-101 *)
Definition adjacency (sc : matrix fval) (n_roi : nat) : matrix fval :=
  fill_diagonal (Fin 0) (take n_roi <$> take n_roi sc).

(** lines 108-109 of [compute_altered_control_energy_byAdd1.py] *)
Definition control_set_add1 (n_roi k : nat) : matrix fval :=
  alter (λ row, <[k := Fin 2]> row) k (np_eye n_roi).

(** The inputs of a subject are complete: both files exist, the subject
    has rows in the state table and every standard label found there has
    [n_roi] values; [states_matrix] (by columns) and [A] are then what
    the scripts build from them. *)
Definition inputs_complete (states_file : option (list state_row))
    (sc_file : option (matrix fval)) (subject_id : Z) (n_roi : nat)
    (states_matrix : list (list fval)) (A : matrix fval) : Prop :=
  ∃ states_all_df sc,
    states_file = Some states_all_df ∧ sc_file = Some sc ∧
    let subj_states_df :=
      filter (λ r, sr_subject r = subject_id) states_all_df in
    subj_states_df ≠ [] ∧
    Forall (λ l, length (state_values subj_states_df l) = n_roi)
           (present_labels subj_states_df) ∧
    states_matrix = state_values subj_states_df
                      <$> present_labels subj_states_df ∧
    A = adjacency sc n_roi.

Section Tasks.

(** [nctpy.utils.normalize_state] *)
Variable normalize_state : list fval → list fval.

(** What [ComputeControlEnergy(A, control_tasks, system="continuous",
    c=1, T=1).run()] stores in [E] for one task: the toolbox computes
    the energy of each task from [A] and that task alone. *)
Variable task_energy : matrix fval → control_task → fval.

(** [assemble_control_tasks], the same function in both scripts (lines
    16-55 and 16-40).  The state arrays, of shape (nodes, states), are
    given by their columns, so that [a.shape[1]] is the length of the
    list and [a[:, i]] its element [i]. *)
Definition assemble_control_tasks (states_x0 states_xf : list (list fval))
    (control_set : matrix fval) (n_nodes : nat) : result (list control_task) :=
  let n_states := Z.of_nat (length states_x0) in
  let trajectory_constraints := np_eye n_nodes in
  let rho := 1 in
  blocks ← mapM (λ initial_idx,
                   column ← np_index states_x0 initial_idx;
                   let initial_state := normalize_state column in
                   mapM (λ target_idx,
                           column ← np_index states_xf target_idx;
                           let target_state := normalize_state column in
                           Ok {| task_x0 := initial_state;
                                 task_xf := target_state;
                                 task_B := control_set;
                                 task_S := trajectory_constraints;
                                 task_rho := rho |})
                        (seqZ 0 n_states))
                (seqZ 0 n_states);
  Ok (concat blocks).

(** lines 129-139: the tasks, their energies and the reshape. *)
Definition energy_matrix (A : matrix fval) (states_matrix : list (list fval))
    (control_set : matrix fval) (n_roi : nat) : result (matrix fval) :=
  let n_states := length states_matrix in
  control_tasks ← assemble_control_tasks states_matrix states_matrix
                    control_set n_roi;
  let E := task_energy A <$> control_tasks in
  np_reshape E n_states n_states.

(** The part of both functions that loads the states and the
    structural connectivity (lines 76-125, and 62-101); [None] is a
    file that does not exist. *)
Definition load_inputs (states_file : option (list state_row))
    (sc_file : option (matrix fval)) (subject_id : Z) (n_roi : nat)
  : early_return + (list (list fval) * matrix fval) :=
  match states_file with
  | None => inl no_states_file
  | Some states_all_df =>
      let subj_states_df :=
        filter (λ r, sr_subject r = subject_id) states_all_df in
      if decide (subj_states_df = []) then inl no_states_for_subject
      else
        match fill_states subj_states_df n_roi
                (present_labels subj_states_df) with
        | inl label => inl (dimension_mismatch label)
        | inr states_matrix =>
            match sc_file with
            | None => inl no_sc_file
            | Some sc => inr (states_matrix, adjacency sc n_roi)
            end
        end
  end.

(** [get_control_energy] (lines 57-157), up to the matrix it saves. *)
Definition get_control_energy (states_file : option (list state_row))
    (sc_file : option (matrix fval)) (subject_id : Z) (n_roi : nat)
  : result (outcome (matrix fval)) :=
  match load_inputs states_file sc_file subject_id n_roi with
  | inl why => Ok (Returned why)
  | inr (states_matrix, adjacency_temp) =>
      let control_set := np_eye n_roi in
      oce_t1 ← energy_matrix adjacency_temp states_matrix control_set n_roi;
      Ok (Saved oce_t1)
  end.

(** [get_regional_control_energy] (lines 43-147), up to the tensor
    [oce] of shape (n_roi, n_states, n_states) it saves. *)
Definition get_regional_control_energy
    (states_file : option (list state_row))
    (sc_file : option (matrix fval)) (subject_id : Z) (n_roi : nat)
  : result (outcome (list (matrix fval))) :=
  match load_inputs states_file sc_file subject_id n_roi with
  | inl why => Ok (Returned why)
  | inr (states_matrix, adjacency_temp) =>
      optimal_control_energy_t1 ←
        mapM (λ k, energy_matrix adjacency_temp states_matrix
                     (control_set_add1 n_roi k) n_roi)
             (seq 0 n_roi);
      Ok (Saved optimal_control_energy_t1)
  end.

(** The control task of the transition from one state map to another
    under the control set [control_set]. *)
Definition transition_task (control_set : matrix fval) (n_nodes : nat)
    (initial target : list fval) : control_task :=
  {| task_x0 := normalize_state initial;
     task_xf := normalize_state target;
     task_B := control_set;
     task_S := np_eye n_nodes;
     task_rho := 1 |}.

End Tasks.

End Energy.

(** A state table with two states of subject 7 and one of subject 8, a
    one-region and a seven-region connectivity matrix, and a stand-in for
    the toolbox that returns the first entry of the target state. *)
Definition demo_state_table : list Energy.state_row :=
  [ {| Energy.sr_subject := 7; Energy.sr_state := "Vis";
       Energy.sr_value := Fin 1 |};
    {| Energy.sr_subject := 8; Energy.sr_state := "Vis";
       Energy.sr_value := Fin 3 |};
    {| Energy.sr_subject := 7; Energy.sr_state := "Default";
       Energy.sr_value := Fin 2 |} ].
Definition demo_sc : matrix fval := [[Fin 5]].
Definition demo_sc_7 : matrix fval := replicate 7 (replicate 7 (Fin 1)).
Definition demo_task_energy (A : matrix fval) (t : Energy.control_task)
  : fval :=
  default NaN (head (Energy.task_xf t)).

(** ** The summary tables ([organize_energy_results.py]) *)

(** [x > 0] on a float; false for NaN. *)
Definition fpos (x : fval) : bool :=
  match x with
  | Fin q => negb (Qle_bool q 0)
  | PInf => true
  | _ => false
  end.

(** numpy's [1 / x]: no exception, [1 / 0] is [inf] (the sign of a zero is
    not modelled). *)
Definition frecip (x : fval) : fval :=
  match x with
  | Fin q => if Qeq_bool q 0 then PInf else Fin (/ q)
  | PInf | NInf => Fin 0
  | NaN => NaN
  end.

(** [np.diag(m)] of a two-axis array: the entries [m[i, i]]. *)
Definition np_diag {A} (m : matrix A) : list A :=
  omap id (imap (λ i row, row !! i) m).

(** [m[~np.eye(n, dtype=bool)]] where [n] is the number of rows of [m]:
    boolean-mask indexing raises [IndexError] unless the array has the
    shape (n, n) of the mask, and returns the selected entries in
    row-major order. *)
Definition off_diagonal {A} (m : matrix A) : result (list A) :=
  let n_states := length m in
  if decide (Forall (λ row, length row = n_states) m)
  then Ok (concat (imap (λ i row,
                           concat (imap (λ j x, if decide (i = j) then []
                                                else [x]) row)) m))
  else Raise IndexError.

Module Organize.

(** The [state_k] column: [f'TE_{k+1}'], written [TE_ (k + 1)], and the
    three fixed keys. *)
Inductive state_key := TE_ (k : Z) | ave_TE | ave_PE | global_stability.

(** One row of the four tables; the last column is named [TE], [ave_TE],
    [ave_PE] or [stability]. *)
Record table_row := {
  row_subject_id : Z;
  row_condition : string;
  row_state_k : state_key;
  row_value : fval
}.

Record tables := {
  data_all_te : list table_row;
  data_ave_te : list table_row;
  data_ave_pe : list table_row;
  data_stability : list table_row
}.

(** A row of the tables for one subject. *)
Definition table_row_of (condition : string) (sub_id : Z) (key : state_key)
    (v : fval) : table_row :=
  {| row_subject_id := sub_id; row_condition := condition;
     row_state_k := key; row_value := v |}.

Section Organize.

(** [np.log10] *)
Variable log10 : fval → fval.

(** [load_subject_data] for the given [root_dir], [threshold] and
    [T_value]: the array of the subject's file, [None] where the file
    does not exist. *)
Variable load_subject_data : string → Z → option (matrix fval).

(** lines 48-102, one subject with a file. *)
Definition subject_rows (condition : string) (sub_id : Z)
    (matrix : matrix fval)
  : result (list table_row * table_row * table_row * table_row) :=
  let n_states := Z.of_nat (length matrix) in
  let n_transitions := n_states * n_states in
  let flat_matrix := concat matrix in
  all_te ← mapM (λ k, x ← np_index flat_matrix k;
                      Ok {| row_subject_id := sub_id;
                            row_condition := condition;
                            row_state_k := TE_ (k + 1);
                            row_value := x |})
                (seqZ 0 n_transitions);
  off ← off_diagonal matrix;
  let ave_te := np_mean off in
  let diag_elements := np_diag matrix in
  let ave_pe := np_mean diag_elements in
  let stability := if fpos ave_pe then frecip (log10 ave_pe) else NaN in
  Ok (all_te,
      {| row_subject_id := sub_id; row_condition := condition;
         row_state_k := ave_TE; row_value := ave_te |},
      {| row_subject_id := sub_id; row_condition := condition;
         row_state_k := ave_PE; row_value := ave_pe |},
      {| row_subject_id := sub_id; row_condition := condition;
         row_state_k := global_stability; row_value := stability |}).

(** The subjects whose file exists, group by group. *)
Definition loaded_subjects (mdd_list hc_list : list Z)
  : list (string * Z * matrix fval) :=
  let groups := [("MDD", mdd_list); ("HC", hc_list)] in
  groups ≫= (λ g, omap (λ sub_id, (λ matrix, (g.1, sub_id, matrix))
                                  <$> load_subject_data g.1 sub_id) g.2).

(** [organize_energy_metrics] (lines 24-129), up to the four tables it
    saves. *)
Definition organize_energy_metrics (mdd_list hc_list : list Z)
  : result tables :=
  rows ← mapM (λ s, subject_rows s.1.1 s.1.2 s.2)
              (loaded_subjects mdd_list hc_list);
  Ok {| data_all_te := concat ((λ r, r.1.1.1) <$> rows);
        data_ave_te := (λ r, r.1.1.2) <$> rows;
        data_ave_pe := (λ r, r.1.2) <$> rows;
        data_stability := (λ r, r.2) <$> rows |}.

End Organize.

End Organize.

(** * Properties *)

(** ** The Dominant-State Classifier *)

Section FloatOrder.
Implicit Types x y z : fval.

Lemma fle_total x y :
  isnan x = false → isnan y = false → fle x y = false → fle y x = true.
Proof.
  destruct x as [a| | |], y as [b| | |]; simpl; try done.
  intros _ _ H. apply Qle_bool_iff.
  destruct (Qle_bool a b) eqn:E; [done|].
  apply Qlt_le_weak, Qnot_le_lt. intros Hle.
  apply Qle_bool_iff in Hle. congruence.
Qed.

Lemma fle_trans x y z : fle x y = true → fle y z = true → fle x z = true.
Proof.
  destruct x as [a| | |], y as [b| | |], z as [c| | |]; simpl; try done.
  rewrite !Qle_bool_iff. apply Qle_trans.
Qed.

Lemma fle_refl x : isnan x = false → fle x x = true.
Proof. destruct x; simpl; try done. intros _. apply Qle_bool_iff, Qle_refl. Qed.

(** [y < z] and [x <= y] give [x < z]. *)
Lemma flt_le_trans x y z :
  isnan x = false → isnan z = false →
  fle x y = true → fle z y = false → fle z x = false.
Proof.
  intros Hx Hz Hxy Hzy.
  destruct (fle z x) eqn:E; [|done].
  rewrite (fle_trans _ _ _ E Hxy) in Hzy. done.
Qed.
End FloatOrder.

Lemma argmax_loop_first_max (pre ip : list fval) (mp : fval) (max_ind : nat) :
  Forall (λ m, isnan m = false) (pre ++ ip) →
  is_first_max pre max_ind mp →
  ∃ mx, is_first_max (pre ++ ip) (argmax_loop mp max_ind (length pre) ip) mx.
Proof.
  revert pre mp max_ind.
  induction ip as [|x rest IH]; intros pre mp max_ind Hnn Hmax.
  - simpl. rewrite app_nil_r. eauto.
  - assert (Hx : isnan x = false).
    { rewrite Forall_app, Forall_cons in Hnn. tauto. }
    assert (Hpre : ∀ j m, pre !! j = Some m → isnan m = false).
    { rewrite Forall_app in Hnn. destruct Hnn as [Hpre _].
      rewrite Forall_lookup in Hpre. eauto. }
    destruct Hmax as (Hlk & Hmp & Hall & Hfirst).
    assert (Hlt : (max_ind < length pre)%nat) by (by eapply lookup_lt_Some).
    simpl. rewrite Hx.
    replace (S (length pre)) with (length (pre ++ [x]))
      by (rewrite length_app; simpl; lia).
    rewrite (cons_middle x pre rest), app_assoc in Hnn |- *.
    destruct (fle x mp) eqn:E; simpl; apply IH; try done.
    + split; [by rewrite lookup_app_l|]. split; [done|]. split.
      * intros j m Hj Hm. apply lookup_app_Some in Hj as [Hj|[_ Hj]]; [eauto|].
        apply list_lookup_singleton_Some in Hj as [_ <-]. done.
      * intros j m Hj Hjm. rewrite lookup_app_l in Hjm by lia. eauto.
    + assert (Hmpx : fle mp x = true) by (by apply fle_total).
      split; [rewrite lookup_app_r by lia; by rewrite Nat.sub_diag|].
      split; [done|]. split.
      * intros j m Hj Hm. apply lookup_app_Some in Hj as [Hj|[_ Hj]].
        -- eapply fle_trans; [|exact Hmpx]. eauto.
        -- apply list_lookup_singleton_Some in Hj as [_ <-]. by apply fle_refl.
      * intros j m Hj Hjm. rewrite lookup_app_l in Hjm by lia.
        eapply flt_le_trans; eauto.
Qed.

Lemma np_argmax_first_max (a : list fval) :
  a ≠ [] → Forall (λ m, isnan m = false) a →
  ∃ idx mx, np_argmax a = Ok idx ∧ is_first_max a idx mx.
Proof.
  destruct a as [|x rest]; [done|]. intros _ Hnn.
  assert (Hx : isnan x = false) by (by inversion Hnn).
  unfold np_argmax. rewrite Hx.
  destruct (argmax_loop_first_max [x] rest x 0) as [mx Hmx]; [done| |eauto].
  split; [done|]. split; [done|]. split.
  - intros [|j] m Hj Hm; simplify_eq/=. by apply fle_refl.
  - intros; lia.
Qed.

Lemma net_means_length df nlabels :
  length (net_means df nlabels) = Z.to_nat (nlabels - 1).
Proof. unfold net_means. by rewrite length_fmap, length_seqZ. Qed.

Lemma net_means_lookup df nlabels (idx : nat) m :
  net_means df nlabels !! idx = Some m →
  (Z.of_nat idx < nlabels - 1) ∧
  m = series_mean (network_values df (Z.of_nat idx + 1)).
Proof.
  unfold net_means. rewrite list_lookup_fmap.
  intros H. apply fmap_Some in H as (i & Hi & ->).
  apply lookup_seqZ in Hi as [-> ?]. split; [lia|]. f_equal. f_equal. lia.
Qed.

(** C1 (amended).  For every timepoint dataframe in which each non-reject
    network 1..nlabels-1 has a defined (non-NaN) mean, every nlabels >= 2
    and every threshold: [tr_net_labels] computes the mean activity of
    each non-reject network, and returns the 1-based identifier of the
    network with the maximum mean when that maximum is >= the threshold,
    the reject identifier [nlabels] otherwise; among networks that tie at
    the maximum the first in label order is the one returned. *)
Theorem tr_net_labels_first_max df nlabels thr :
  2 ≤ nlabels →
  Forall (λ m, isnan m = false) (net_means df nlabels) →
  ∃ idx mx,
    is_first_max (net_means df nlabels) idx mx ∧
    Z.of_nat idx + 1 < nlabels ∧
    mx = series_mean (network_values df (Z.of_nat idx + 1)) ∧
    tr_net_labels df nlabels thr
    = Ok (if fle thr mx then Z.of_nat idx + 1 else nlabels).
Proof.
  intros Hn Hnn.
  destruct (np_argmax_first_max (net_means df nlabels)) as (idx & mx & Ha & Hmax);
    [|done|].
  { intros E. apply (f_equal length) in E. rewrite net_means_length in E.
    simpl in E. lia. }
  exists idx, mx. split; [done|].
  destruct (net_means_lookup df nlabels idx mx) as [? ?]; [apply Hmax|].
  split; [lia|]. split; [done|].
  unfold tr_net_labels. rewrite Ha. simpl.
  destruct Hmax as [-> _]. by destruct (fle thr mx).
Qed.

(** C1, counterexample.  With three labels and a timepoint that has a
    region of network 1 only, the mean of network 2 is NaN; network 1 has
    the maximum mean 5 >= 0, and yet the reject identifier 3 is returned. *)
Lemma tr_net_labels_missing_network :
  net_means df_one 3 = [Fin 5; NaN] ∧
  is_first_max (net_means df_one 3) 0 (Fin 5) ∧
  fle (Fin 0) (Fin 5) = true ∧
  tr_net_labels df_one 3 (Fin 0) = Ok 3 ∧
  ¬ ∃ idx mx, is_first_max (net_means df_one 3) idx mx ∧
       tr_net_labels df_one 3 (Fin 0)
       = Ok (if fle (Fin 0) mx then Z.of_nat idx + 1 else 3).
Proof.
  assert (E : net_means df_one 3 = [Fin 5; NaN]) by reflexivity.
  split; [done|]. rewrite E. split.
  { split; [done|]. split; [done|]. split.
    - intros [|[|j]] m Hj Hm; simplify_eq/=; done.
    - intros; lia. }
  split; [done|]. split; [done|].
  intros (idx & mx & (Hlk & Hmx & _) & Hres).
  destruct idx as [|[|idx]]; simplify_eq/=.
Qed.

(** C1, witness: two networks with means 2 and 2. *)
Lemma tr_net_labels_first_max_witness :
  ∃ idx mx,
    is_first_max (net_means df_two 3) idx mx ∧
    Z.of_nat idx + 1 < 3 ∧
    mx = series_mean (network_values df_two (Z.of_nat idx + 1)) ∧
    tr_net_labels df_two 3 (Fin 0)
    = Ok (if fle (Fin 0) mx then Z.of_nat idx + 1 else 3).
Proof.
  apply (tr_net_labels_first_max df_two 3 (Fin 0)).
  - lia.
  - repeat constructor.
Defined.

(** ** The exception monad *)

Section MapM.
Context {A B : Type} (f : A → result B).

Lemma mapM_Ok_cons x l y k :
  f x = Ok y → mapM f l = Ok k → mapM f (x :: l) = Ok (y :: k).
Proof. intros Hx Hl. simpl. rewrite Hx. simpl. rewrite Hl. done. Qed.

Lemma mapM_Ok_inv l k :
  mapM f l = Ok k → Forall2 (λ x y, f x = Ok y) l k.
Proof.
  revert k. induction l as [|x l IH]; intros k; simpl.
  - intros [= <-]. constructor.
  - destruct (f x) as [y|e] eqn:Hx; simpl; [|done].
    destruct (mapM f l) as [k'|e] eqn:Hl; simpl; [|done].
    intros [= <-]. constructor; auto.
Qed.

Lemma mapM_Ok_intro l k :
  Forall2 (λ x y, f x = Ok y) l k → mapM f l = Ok k.
Proof. induction 1; [done|]. by apply mapM_Ok_cons. Qed.

Lemma mapM_total l :
  Forall (λ x, ∃ y, f x = Ok y) l → ∃ k, mapM f l = Ok k.
Proof.
  induction 1 as [|x l [y Hy] _ [k Hk]]; [by exists []|].
  exists (y :: k). by apply mapM_Ok_cons.
Qed.

Lemma mapM_Raise l x e :
  x ∈ l → f x = Raise e → ∃ e', mapM f l = Raise e'.
Proof.
  induction 1 as [x l|x y l _ IH]; intros Hx; simpl.
  - rewrite Hx. eauto.
  - destruct (f y); simpl; [|eauto].
    destruct (IH Hx) as [e' ->]. eauto.
Qed.
End MapM.

Lemma mapM_Ok_fmap {A B} (g : A → B) (l : list A) :
  mapM (λ x, Ok (g x)) l = Ok (g <$> l).
Proof. induction l as [|x l IH]; [done|]. simpl. rewrite IH. done. Qed.

(** ** Sums *)

Lemma fsum_Fin_acc (a : Q) (qs : list Q) :
  foldl fadd (Fin a) (Fin <$> qs) = Fin (foldl Qplus a qs).
Proof. revert a. induction qs as [|q qs IH]; intros a; simpl; [done|]. apply IH. Qed.

Lemma fsum_Fin (qs : list Q) : fsum (Fin <$> qs) = Fin (foldl Qplus 0%Q qs).
Proof. apply fsum_Fin_acc. Qed.

Lemma foldl_Qplus_div (a d : Q) (cs : list Z) :
  (foldl Qplus a ((λ c, inject_Z c / d) <$> cs) == a + inject_Z (sumZ cs) / d)%Q.
Proof.
  revert a. induction cs as [|c cs IH]; intros a; simpl.
  - unfold Qdiv. simpl. ring.
  - rewrite IH. rewrite inject_Z_plus. unfold Qdiv. ring.
Qed.

(** ** Counting labels *)

Lemma sumZ_cons (x : Z) (l : list Z) : sumZ (x :: l) = x + sumZ l.
Proof. reflexivity. Qed.

Lemma sum_indicator (x m : Z) (k : nat) :
  sumZ ((λ i, if decide (x = i) then 1 else 0) <$> seqZ m (Z.of_nat k))
  = if decide (m ≤ x < m + Z.of_nat k) then 1 else 0.
Proof.
  revert m. induction k as [|k IH]; intros m.
  - rewrite seqZ_nil by lia. simpl. case_decide; [lia|done].
  - rewrite seqZ_cons by lia. simpl.
    replace (Z.pred (Z.of_nat (S k))) with (Z.of_nat k) by lia.
    rewrite IH. repeat case_decide; lia.
Qed.

Lemma count_label_cons (x : Z) (l : list Z) (i : Z) :
  count_label (x :: l) i = (if decide (x = i) then 1 else 0) + count_label l i.
Proof.
  unfold count_label. rewrite filter_cons.
  case_decide; simpl; lia.
Qed.

Lemma sumZ_add {A} (f g : A → Z) (l : list A) :
  sumZ ((λ i, f i + g i) <$> l) = sumZ (f <$> l) + sumZ (g <$> l).
Proof. induction l as [|x l IH]; [done|]. rewrite !fmap_cons, !sumZ_cons. lia. Qed.

Lemma sum_count_label (n : nat) (labels : list Z) :
  sumZ ((λ i, count_label labels i) <$> seqZ 1 (Z.of_nat n))
  = Z.of_nat (length labels) - outside_count n labels.
Proof.
  induction labels as [|x l IH].
  - unfold outside_count, count_label. simpl.
    induction (seqZ 1 (Z.of_nat n)) as [|i rest IHis]; [done|].
    rewrite fmap_cons, sumZ_cons, IHis. done.
  - erewrite (list_fmap_ext _ _ (seqZ 1 (Z.of_nat n))); last first.
    { intros ? i _. apply count_label_cons. }
    rewrite (sumZ_add (λ i, if decide (x = i) then 1 else 0)
                      (λ i, count_label l i)), IH, sum_indicator.
    unfold outside_count. rewrite filter_cons. simpl length.
    repeat case_decide; simpl length; lia.
Qed.

(** ** Unfolding one subject's run *)

Lemma block_states_nil : block_states [] = Raise IndexError.
Proof. reflexivity. Qed.

Lemma subject_dynamics_inv n tr total labels m :
  subject_dynamics n tr total labels = Ok m →
  ∃ states dtar tpm,
    block_states labels = Ok states ∧
    mapM (dwell_appearance tr total labels states) (seqZ 0 (Z.of_nat n)) = Ok dtar ∧
    transition_counts n total labels = Ok tpm ∧
    m = {| fo := fractional_occupancy n total labels;
           dt := fst <$> dtar;
           ar := snd <$> dtar;
           tp2d := row_normalize tpm;
           tp2d_nopersist := row_normalize (fill_diagonal_0 tpm) |}.
Proof.
  unfold subject_dynamics.
  destruct (block_states labels) as [states|] eqn:E1; simpl; [|done].
  destruct (mapM _ _) as [dtar|] eqn:E2; simpl; [|done].
  destruct (transition_counts n total labels) as [tpm|] eqn:E3; simpl; [|done].
  intros [= <-]. eauto 10.
Qed.

Lemma subject_dynamics_nonempty n tr total labels m :
  subject_dynamics n tr total labels = Ok m → labels ≠ [].
Proof.
  intros H ->. apply subject_dynamics_inv in H as (? & ? & ? & H & _).
  by rewrite block_states_nil in H.
Qed.

Lemma int_true_divide_nonzero c d :
  d ≠ 0 → int_true_divide c d = Fin (inject_Z c / inject_Z d).
Proof. intros Hd. unfold int_true_divide. by rewrite (proj2 (Z.eqb_neq d 0)). Qed.

(** C2 (amended).  For every label sequence that
    [calculate_dynamics_for_group] processes and whose length T equals the
    configured [total_timepoints]: Fractional Occupancy for state i is
    (count of timepoints labeled i) / T, and the K occupancy values sum to
    1 minus the fraction of timepoints whose label lies outside [1,K]; for
    a sequence with all labels in [1,K] they sum to exactly 1. *)
Theorem fractional_occupancy_sum n tr total labels m :
  subject_dynamics n tr total labels = Ok m →
  Z.of_nat (length labels) = total →
  let T := inject_Z (Z.of_nat (length labels)) in
  fo m = (λ i, Fin (inject_Z (count_label labels i) / T)) <$> seqZ 1 (Z.of_nat n) ∧
  ∃ s, fsum (fo m) = Fin s ∧
       (s == 1 - inject_Z (outside_count n labels) / T)%Q ∧
       (Forall (λ l, 1 ≤ l ≤ Z.of_nat n) labels → (s == 1)%Q).
Proof.
  intros Hm Hlen T.
  assert (Hne : labels ≠ []) by eauto using subject_dynamics_nonempty.
  assert (HT : total ≠ 0) by (destruct labels; [done|simpl in Hlen; lia]).
  apply subject_dynamics_inv in Hm as (? & ? & ? & _ & _ & _ & ->). simpl.
  assert (Hfo : fractional_occupancy n total labels
                = Fin <$> ((λ c, (inject_Z c / T)%Q) <$>
                    ((λ i, count_label labels i) <$> seqZ 1 (Z.of_nat n)))).
  { unfold fractional_occupancy. rewrite <- !list_fmap_compose.
    apply list_fmap_ext. intros _ i _. simpl.
    rewrite int_true_divide_nonzero by done. unfold T. by rewrite Hlen. }
  split.
  { rewrite Hfo, <- !list_fmap_compose. done. }
  eexists. split; [rewrite Hfo; apply fsum_Fin|].
  assert (HTq : ¬ (T == 0)%Q).
  { unfold T. rewrite Hlen. intros E. apply HT.
    unfold Qeq in E. simpl in E. lia. }
  assert (Hsum : (foldl Qplus 0 ((λ c, inject_Z c / T) <$>
                    ((λ i, count_label labels i) <$> seqZ 1 (Z.of_nat n)))
                  == 1 - inject_Z (outside_count n labels) / T)%Q).
  { rewrite foldl_Qplus_div, sum_count_label.
    unfold Z.sub. rewrite inject_Z_plus, inject_Z_opp. fold T. field. done. }
  split; [done|].
  intros Hclean. rewrite Hsum.
  assert (Hout : outside_count n labels = 0).
  { unfold outside_count.
    replace (filter _ labels) with (@nil Z); [done|].
    clear -Hclean. induction Hclean as [|x l Hx _ IH]; [done|].
    rewrite filter_cons. case_decide; [lia|done]. }
  rewrite Hout. unfold Qdiv. ring.
Qed.

(** ** Row normalisation *)

Lemma sumQ_cons (x : Q) (l : list Q) : sumQ (x :: l) = (x + sumQ l)%Q.
Proof. reflexivity. Qed.

Lemma sumQ_div (d : Q) (cs : list Z) :
  (sumQ ((λ c, inject_Z c / d) <$> cs) == inject_Z (sumZ cs) / d)%Q.
Proof.
  induction cs as [|c cs IH].
  - simpl. unfold Qdiv. ring.
  - rewrite fmap_cons, sumZ_cons, sumQ_cons, IH.
    rewrite inject_Z_plus. unfold Qdiv. ring.
Qed.

Lemma divide_row_zero_sum (row : list Z) :
  sumZ row = 0 → divide_row row = replicate (length row) 0%Q.
Proof.
  intros H. unfold divide_row. rewrite H. simpl. clear H.
  induction row as [|c row IH]; [done|]. simpl. by f_equal.
Qed.

Lemma divide_row_nonzero_sum (row : list Z) :
  sumZ row ≠ 0 → (sumQ (divide_row row) == 1)%Q.
Proof.
  intros H. unfold divide_row. rewrite (proj2 (Z.eqb_neq _ _) H).
  rewrite sumQ_div. field. intros E. apply H.
  unfold Qeq in E. simpl in E. lia.
Qed.

Lemma length_divide_row row : length (divide_row row) = length row.
Proof. unfold divide_row. by rewrite length_fmap. Qed.

Lemma row_normalize_stochastic (M : matrix Z) :
  Forall2 row_stochastic_or_zero M (row_normalize M).
Proof.
  unfold row_normalize. apply Forall2_fmap_r, Forall_Forall2_diag, Forall_forall.
  intros row _. split; [apply length_divide_row|]. split.
  - apply divide_row_nonzero_sum.
  - intros H. rewrite divide_row_zero_sum by done. apply Forall_replicate. done.
Qed.

(** C3.  For every label sequence, each row of the self-inclusive and of
    the self-exclusive transition-probability matrix sums to 1 when the
    corresponding count row has a nonzero sum, and is entirely zero
    otherwise: the guarded division substitutes zeros and never produces
    NaN or an error. *)
Theorem transition_probability_rows n tr total labels m :
  subject_dynamics n tr total labels = Ok m →
  ∃ tp_matrix,
    transition_counts n total labels = Ok tp_matrix ∧
    Forall2 row_stochastic_or_zero tp_matrix (tp2d m) ∧
    Forall2 row_stochastic_or_zero (fill_diagonal_0 tp_matrix) (tp2d_nopersist m) ∧
    Forall (λ row, (sumQ row == 1)%Q ∨ Forall (λ p, p = 0%Q) row)
           (tp2d m ++ tp2d_nopersist m).
Proof.
  intros Hm. apply subject_dynamics_inv in Hm as (? & ? & tpm & _ & _ & Htp & ->).
  exists tpm. simpl.
  pose proof (row_normalize_stochastic tpm) as H1.
  pose proof (row_normalize_stochastic (fill_diagonal_0 tpm)) as H2.
  repeat split; try done.
  apply Forall_app. split.
  - eapply Forall2_Forall_r; [exact H1|]. apply Forall_true.
    intros crow prow (_ & Hnz & Hz).
    destruct (decide (sumZ crow = 0)); auto.
  - eapply Forall2_Forall_r; [exact H2|]. apply Forall_true.
    intros crow prow (_ & Hnz & Hz).
    destruct (decide (sumZ crow = 0)); auto.
Qed.

(** ** [int64] arithmetic *)

Lemma wrap64_small z : int64 z → wrap64 z = z.
Proof.
  unfold int64, wrap64. intros H.
  rewrite Z.mod_small; lia.
Qed.

Lemma wrap64_pred_inj l i :
  int64 l → 0 ≤ i < 2 ^ 63 - 1 → wrap64 (l - 1) = i → l = i + 1.
Proof.
  unfold int64. intros Hl Hi.
  destruct (decide (l = - 2 ^ 63)) as [->|Hne].
  - vm_compute wrap64. lia.
  - rewrite wrap64_small by (unfold int64; lia). lia.
Qed.

(** ** Indexing *)

Lemma np_index_elem {A} (a : list A) (i : Z) (x : A) :
  np_index a i = Ok x → x ∈ a.
Proof.
  unfold np_index. case_match; [done|].
  destruct (a !! _) eqn:E; [|done]. intros [= <-].
  by eapply list_elem_of_lookup_2.
Qed.

Lemma np_index_nonneg {A} (a : list A) (i : Z) :
  0 ≤ i →
  np_index a i = match a !! Z.to_nat i with
                 | Some x => Ok x
                 | None => Raise IndexError
                 end.
Proof.
  intros Hi. unfold np_index.
  rewrite (proj2 (Z.ltb_ge i 0)) by lia.
  rewrite (proj2 (Z.ltb_ge i 0)) by lia. simpl.
  destruct (Z.leb_spec (Z.of_nat (length a)) i) as [H|H]; [|done].
  rewrite lookup_ge_None_2; [done|lia].
Qed.

Lemma block_states_elem labels states s :
  block_states labels = Ok states → s ∈ states →
  ∃ l, l ∈ labels ∧ s = wrap64 (l - 1).
Proof.
  unfold block_states. intros H Hs. apply mapM_Ok_inv in H.
  apply list_elem_of_lookup in Hs as [k Hk].
  destruct (Forall2_lookup_r _ _ _ _ _ H Hk) as (st & _ & Hst).
  destruct (np_index labels st) as [l|] eqn:E; simpl in Hst; [|done].
  injection Hst as <-. exists l. split; [|done]. by eapply np_index_elem.
Qed.

Lemma count_label_zero labels i : count_label labels i = 0 → i ∉ labels.
Proof.
  unfold count_label. intros H Hi.
  assert (Hf : i ∈ filter (λ l, l = i) labels) by (by apply list_elem_of_filter).
  destruct (filter _ labels); [by apply not_elem_of_nil in Hf|simpl in H; lia].
Qed.

(** ** The transition-count loop *)

Section Loop.
Variable n_states : nat.
Variable labels : list Z.

Lemma length_increment tp f t : length (increment tp f t) = length tp.
Proof. apply length_alter. Qed.

Lemma increment_row_lengths tp f t (k : nat) :
  Forall (λ row, length row = k) tp →
  Forall (λ row, length row = k) (increment tp f t).
Proof.
  rewrite !Forall_lookup. intros H i row. unfold increment.
  rewrite list_lookup_alter. case_decide as E.
  - subst. destruct (tp !! Z.to_nat f) as [r|] eqn:Er; simpl; [|done].
    intros [= <-]. rewrite length_alter. eauto.
  - eauto.
Qed.

(** A property of the matrix that every increment the loop can make
    preserves holds at the end. *)
Lemma tp_loop_invariant (P : matrix Z → Prop) ts tp tp' :
  (∀ tp f t, f ∈ states_0based labels → t ∈ states_0based labels →
             in_range n_states f = true → in_range n_states t = true →
             P tp → P (increment tp f t)) →
  P tp → tp_loop n_states (states_0based labels) ts tp = Ok tp' → P tp'.
Proof.
  intros Hstep. revert tp. induction ts as [|t ts IH]; intros tp HP; simpl.
  - by intros [= <-].
  - destruct (np_index _ t) as [f|] eqn:Ef; simpl; [|done].
    destruct (np_index _ (t + 1)) as [g|] eqn:Eg; simpl; [|done].
    apply IH.
    destruct (in_range n_states f) eqn:Hf; simpl; [|done].
    destruct (in_range n_states g) eqn:Hg; simpl; [|done].
    apply Hstep; eauto using np_index_elem.
Qed.

Lemma transition_counts_shape total tpm :
  transition_counts n_states total labels = Ok tpm →
  length tpm = n_states ∧ Forall (λ row, length row = n_states) tpm.
Proof.
  unfold transition_counts.
  apply (tp_loop_invariant
           (λ m, length m = n_states ∧ Forall (λ row, length row = n_states) m)).
  - intros tp f t _ _ _ _ [H1 H2]. split.
    + by rewrite length_increment.
    + by apply increment_row_lengths.
  - split; [apply length_replicate|].
    apply Forall_replicate, length_replicate.
Qed.

Lemma transition_counts_absent_row total tpm (i : nat) :
  Forall int64 labels → Z.of_nat n_states < 2 ^ 63 → (i < n_states)%nat →
  Z.of_nat i + 1 ∉ labels →
  transition_counts n_states total labels = Ok tpm →
  tpm !! i = Some (replicate n_states 0).
Proof.
  intros H64 Hn Hi Habs. unfold transition_counts.
  apply (tp_loop_invariant (λ m, m !! i = Some (replicate n_states 0))).
  - intros tp f t Hf _ Hrf _ HP. unfold increment.
    rewrite list_lookup_alter_ne; [done|].
    intros <-. apply Habs.
    unfold states_0based in Hf. apply list_elem_of_fmap in Hf as (l & Hl & Hin).
    unfold in_range in Hrf. apply andb_prop in Hrf as [H0 H1].
    apply Z.leb_le in H0. rewrite Z2Nat.id by done.
    rewrite Forall_forall in H64.
    rewrite <- (wrap64_pred_inj l f); [done|by apply H64|lia|done].
  - apply lookup_replicate_2. done.
Qed.
End Loop.

Lemma divide_row_lookup row (j : nat) c :
  row !! j = Some c →
  divide_row row !! j
  = Some (if sumZ row =? 0 then 0%Q else (inject_Z c / inject_Z (sumZ row))%Q).
Proof. intros H. unfold divide_row. by rewrite list_lookup_fmap, H. Qed.

(** C8.  For every label sequence, every diagonal entry of the
    self-exclusive transition-probability matrix is 0: the diagonal of the
    count matrix is zeroed before the rows are normalized. *)
Theorem self_exclusive_diagonal_zero n tr total labels m (i : nat) :
  subject_dynamics n tr total labels = Ok m →
  (i < n)%nat →
  ∃ row q, tp2d_nopersist m !! i = Some row ∧ row !! i = Some q ∧ (q == 0)%Q.
Proof.
  intros Hm Hi.
  apply subject_dynamics_inv in Hm as (? & ? & tpm & _ & _ & Htp & ->). simpl.
  apply transition_counts_shape in Htp as [Hlen Hrows].
  destruct (lookup_lt_is_Some_2 tpm i) as [crow Hcrow]; [lia|].
  assert (Hcl : length crow = n).
  { rewrite Forall_lookup in Hrows. eauto. }
  exists (divide_row (<[i:=0]> crow)). eexists. split; [|split].
  - unfold row_normalize, fill_diagonal_0.
    by rewrite list_lookup_fmap, list_lookup_imap, Hcrow.
  - apply divide_row_lookup. apply list_lookup_insert_eq. lia.
  - simpl. case_match; [done|]. unfold Qdiv. simpl. ring.
Qed.

Lemma state_block_lengths_absent total labels states (i : Z) :
  i ∉ states → state_block_lengths total labels states i = [].
Proof.
  intros Hi. unfold state_block_lengths.
  generalize (block_lengths total labels). intros lens.
  revert lens. induction states as [|s states IH]; intros [|len lens]; try done.
  simpl. rewrite filter_cons. simpl.
  apply not_elem_of_cons in Hi as [Hne Hi].
  case_decide; [congruence|]. by apply IH.
Qed.

(** C6.  For every label sequence (an [int64] array) and every state i
    with zero occurrences in it, the Dwell Time and the Appearance Rate of
    i are 0 and row i of both transition-probability matrices is all-zero;
    the iteration for that state returns (0, 0) without dividing, so it
    raises nothing and produces no NaN. *)
Theorem absent_state_metrics_zero n tr total labels m (i : nat) :
  subject_dynamics n tr total labels = Ok m →
  Forall int64 labels → Z.of_nat n < 2 ^ 63 →
  (i < n)%nat →
  count_label labels (Z.of_nat i + 1) = 0 →
  dt m !! i = Some 0%Q ∧
  ar m !! i = Some 0%Q ∧
  tp2d m !! i = Some (replicate n 0%Q) ∧
  tp2d_nopersist m !! i = Some (replicate n 0%Q) ∧
  ∃ states, block_states labels = Ok states ∧
            dwell_appearance tr total labels states (Z.of_nat i) = Ok (0%Q, 0%Q).
Proof.
  intros Hm H64 Hn Hi Hcount.
  apply count_label_zero in Hcount.
  apply subject_dynamics_inv in Hm as (states & dtar & tpm & Hst & Hdtar & Htp & ->).
  simpl.
  assert (Habs : Z.of_nat i ∉ states).
  { intros Hin. destruct (block_states_elem _ _ _ Hst Hin) as (l & Hl & Hw).
    apply Hcount. rewrite Forall_forall in H64.
    rewrite <- (wrap64_pred_inj l (Z.of_nat i)); [done|by apply H64|lia|done]. }
  assert (Hda : dwell_appearance tr total labels states (Z.of_nat i) = Ok (0%Q, 0%Q)).
  { unfold dwell_appearance. rewrite state_block_lengths_absent by done.
    simpl. done. }
  assert (Hrow : tpm !! i = Some (replicate n 0)).
  { eapply transition_counts_absent_row; eauto. }
  assert (Hdi : dtar !! i = Some (0%Q, 0%Q)).
  { apply mapM_Ok_inv in Hdtar.
    destruct (Forall2_lookup_l _ _ _ i (Z.of_nat i) Hdtar) as (y & Hy & Hf).
    - by rewrite lookup_seqZ_lt by lia.
    - rewrite Hda in Hf. by injection Hf as <-. }
  assert (Hzero : divide_row (replicate n 0) = replicate n 0%Q).
  { rewrite divide_row_zero_sum, length_replicate; [done|].
    clear. induction n as [|k IH]; [done|].
    change (sumZ (replicate (S k) 0)) with (0 + sumZ (replicate k 0)). lia. }
  repeat split.
  - by rewrite list_lookup_fmap, Hdi.
  - by rewrite list_lookup_fmap, Hdi.
  - unfold row_normalize. by rewrite list_lookup_fmap, Hrow; simpl; rewrite Hzero.
  - unfold row_normalize, fill_diagonal_0.
    rewrite list_lookup_fmap, list_lookup_imap, Hrow. simpl.
    rewrite insert_replicate. by rewrite Hzero.
  - eauto.
Qed.

(** ** Stacking and transposition *)

Section Transpose.
Context {A : Type}.
Implicit Types rows : matrix A.

Lemma transpose_cons k (r : list A) rows :
  transpose k (r :: rows) = zip_with cons r (transpose k rows).
Proof. reflexivity. Qed.

Lemma length_transpose k rows :
  Forall (λ r, length r = k) rows → length (transpose k rows) = k.
Proof.
  induction 1 as [|r rows Hr _ IH].
  - apply length_replicate.
  - rewrite transpose_cons, length_zip_with, IH. lia.
Qed.

Lemma transpose_column_lengths k rows :
  Forall (λ c, length c = length rows) (transpose k rows).
Proof.
  induction rows as [|r rows IH].
  - apply Forall_replicate. done.
  - rewrite transpose_cons. apply Forall_lookup. intros i c Hc.
    apply lookup_zip_with_Some in Hc as (x & c' & -> & _ & Hc').
    rewrite Forall_lookup in IH. simpl. f_equal. eauto.
Qed.

(** Entry [(i, s)] of the transpose is entry [(s, i)] of the stack. *)
Lemma transpose_entry k rows (i s : nat) :
  Forall (λ r, length r = k) rows → (i < k)%nat →
  transpose k rows !! i ≫= (.!! s) = rows !! s ≫= (.!! i).
Proof.
  intros Hrows Hi. revert s.
  induction Hrows as [|r rows Hr Hrows IH]; intros s.
  - simpl. rewrite lookup_replicate_2 by done. simpl.
    by rewrite !lookup_nil.
  - rewrite transpose_cons.
    destruct (lookup_lt_is_Some_2 r i) as [x Hx]; [lia|].
    destruct (lookup_lt_is_Some_2 (transpose k rows) i) as [c Hc].
    { rewrite length_transpose by done. lia. }
    rewrite (proj2 (lookup_zip_with_Some cons r (transpose k rows) i (x :: c)));
      [|by eauto].
    destruct s as [|s]; simpl.
    + by rewrite Hx.
    + specialize (IH s). by rewrite Hc in IH.
Qed.

Lemma transpose_take k j rows :
  take j (transpose k rows) = transpose (j `min` k) (take j <$> rows).
Proof.
  induction rows as [|r rows IH].
  - unfold transpose. simpl. by rewrite take_replicate.
  - by rewrite fmap_cons, !transpose_cons, zip_with_take, IH.
Qed.

Lemma drop_last_length (l : list A) (k : nat) :
  length l = S k → drop_last l = take k l.
Proof. intros H. unfold drop_last. rewrite H. f_equal. lia. Qed.
End Transpose.

(** ** Shapes of one subject's metrics *)

Lemma subject_dynamics_shape n tr total labels m :
  subject_dynamics n tr total labels = Ok m →
  length (fo m) = n ∧ length (dt m) = n ∧ length (ar m) = n ∧
  (length (tp2d m) = n ∧ Forall (λ row, length row = n) (tp2d m)) ∧
  (length (tp2d_nopersist m) = n ∧
   Forall (λ row, length row = n) (tp2d_nopersist m)).
Proof.
  intros Hm.
  apply subject_dynamics_inv in Hm as (states & dtar & tpm & _ & Hdtar & Htp & ->).
  simpl. apply mapM_Ok_inv, Forall2_length in Hdtar.
  rewrite length_seqZ in Hdtar.
  apply transition_counts_shape in Htp as [Hlen Hrows].
  unfold fractional_occupancy, row_normalize, fill_diagonal_0.
  rewrite !length_fmap, length_imap, length_seqZ.
  repeat split; try lia.
  - apply Forall_fmap. eapply Forall_impl; [exact Hrows|].
    intros row Hr. simpl. by rewrite length_divide_row.
  - apply Forall_fmap. apply Forall_lookup. intros i row Hrow.
    apply list_lookup_imap_Some in Hrow as (crow & Hcrow & ->).
    simpl. rewrite length_divide_row, length_insert.
    rewrite Forall_lookup in Hrows. eauto.
Qed.

Lemma np_stack_Ok {A} (l r : list A) : np_stack l = Ok r → r = l ∧ l ≠ [].
Proof. destruct l; [done|]. by intros [= <-]. Qed.

Lemma calculate_dynamics_for_group_inv files subject_list n tr total g :
  calculate_dynamics_for_group files subject_list n tr total = Ok g →
  ∃ ms, mapM (subject_dynamics n tr total) (loaded_labels files subject_list)
        = Ok ms ∧
        ms ≠ [] ∧
        g = {| fo_all := transpose n (fo <$> ms);
               dt_all := transpose n (dt <$> ms);
               ar_all := transpose n (ar <$> ms);
               tp_all := tp2d <$> ms;
               tp_nopersist_all := tp2d_nopersist <$> ms |}.
Proof.
  unfold calculate_dynamics_for_group.
  destruct (mapM _ _) as [ms|] eqn:E; simpl; [|done].
  destruct ms as [|m ms]; [done|]. simpl. intros [= <-]. eauto.
Qed.

Section Slices.
Context {A : Type}.

Lemma entry2_take (a : matrix A) k i s :
  (i < k)%nat → entry2 (take k a) i s = entry2 a i s.
Proof. intros Hi. unfold entry2. by rewrite lookup_take_lt. Qed.

Lemma entry2_transpose k (rows : matrix A) i s :
  Forall (λ r, length r = k) rows → (i < k)%nat →
  entry2 (transpose k rows) i s = rows !! s ≫= (.!! i).
Proof. apply transpose_entry. Qed.

Lemma entry3_take (t : list (matrix A)) k s i j :
  (i < k)%nat → (j < k)%nat →
  entry3 ((λ m, take k <$> take k m) <$> t) s i j = entry3 t s i j.
Proof.
  intros Hi Hj. unfold entry3, entry2. rewrite list_lookup_fmap.
  destruct (t !! s) as [m|]; simpl; [|done].
  rewrite list_lookup_fmap, lookup_take_lt by done.
  destruct (m !! i) as [row|]; simpl; [|done].
  by rewrite lookup_take_lt.
Qed.

Lemma shape2_take (a : matrix A) k r c :
  shape2 a r c → (k ≤ r)%nat → shape2 (take k a) k c.
Proof.
  intros [Hl Hr] Hk. split; [rewrite length_take; lia|].
  by apply Forall_take.
Qed.

Lemma shape2_take2 (m : matrix A) k r :
  shape2 m r r → (k ≤ r)%nat → shape2 (take k <$> take k m) k k.
Proof.
  intros [Hl Hr] Hk. split; [rewrite length_fmap, length_take; lia|].
  apply Forall_fmap, Forall_take. eapply Forall_impl; [exact Hr|].
  intros row Hrow. simpl in Hrow. unfold compose. rewrite length_take. lia.
Qed.
End Slices.

Lemma fmap_lookup_bind {A B C} (f : A → list B) (g : list B → option C)
    (l : list A) (s : nat) :
  (f <$> l) !! s ≫= g = l !! s ≫= (λ m, g (f m)).
Proof. rewrite list_lookup_fmap. by destruct (l !! s). Qed.

Lemma remove_nota_spec files subject_list (k : nat) tr total g0 :
  calculate_dynamics_for_group files subject_list (S k) tr total = Ok g0 →
  ∃ ms, mapM (subject_dynamics (S k) tr total)
             (loaded_labels files subject_list) = Ok ms ∧
        last_state_removed k ms g0 (remove_nota g0).
Proof.
  intros Hg. apply calculate_dynamics_for_group_inv in Hg as (ms & Hms & Hne & ->).
  exists ms. split; [done|].
  assert (Hshape : Forall (λ m,
            length (fo m) = S k ∧ length (dt m) = S k ∧ length (ar m) = S k ∧
            shape2 (tp2d m) (S k) (S k) ∧
            shape2 (tp2d_nopersist m) (S k) (S k)) ms).
  { apply mapM_Ok_inv in Hms. eapply Forall2_Forall_r; [exact Hms|].
    apply Forall_true. intros labels m Hm.
    by apply subject_dynamics_shape in Hm. }
  assert (Hfo : Forall (λ r, length r = S k) (fo <$> ms)).
  { apply Forall_fmap. eapply Forall_impl; [exact Hshape|]. by intros m (? & _). }
  assert (Hdt : Forall (λ r, length r = S k) (dt <$> ms)).
  { apply Forall_fmap. eapply Forall_impl; [exact Hshape|].
    by intros m (_ & ? & _). }
  assert (Har : Forall (λ r, length r = S k) (ar <$> ms)).
  { apply Forall_fmap. eapply Forall_impl; [exact Hshape|].
    by intros m (_ & _ & ? & _). }
  assert (Hcols : ∀ {A} (rows : matrix A),
            Forall (λ r, length r = S k) rows →
            shape2 (transpose (S k) rows) (S k) (length rows)).
  { intros A rows Hrows. split; [by apply length_transpose|].
    apply transpose_column_lengths. }
  assert (Hdl : ∀ {A} (rows : matrix A),
            Forall (λ r, length r = S k) rows →
            drop_last (transpose (S k) rows) = take k (transpose (S k) rows)).
  { intros A rows Hrows. apply drop_last_length. by apply length_transpose. }
  assert (Hdl3 : ∀ (f : subject_metrics → matrix Q),
            Forall (λ m, shape2 (f m) (S k) (S k)) ms →
            (λ m, drop_last <$> drop_last m) <$> (f <$> ms)
            = (λ m, take k <$> take k m) <$> (f <$> ms)).
  { intros f Hf. apply Forall_fmap_ext, Forall_fmap.
    eapply Forall_impl; [exact Hf|]. intros m [Hl Hr]. simpl.
    rewrite (drop_last_length _ k) by done.
    apply Forall_fmap_ext, Forall_take.
    eapply Forall_impl; [exact Hr|]. intros row Hrow.
    by apply drop_last_length. }
  assert (Htp : Forall (λ m, shape2 (tp2d m) (S k) (S k)) ms).
  { eapply Forall_impl; [exact Hshape|]. by intros m (_ & _ & _ & ? & _). }
  assert (Htpn : Forall (λ m, shape2 (tp2d_nopersist m) (S k) (S k)) ms).
  { eapply Forall_impl; [exact Hshape|]. by intros m (_ & _ & _ & _ & ?). }
  unfold remove_nota, last_state_removed. simpl.
  rewrite !Hdl, !Hdl3 by done.
  split; [done|]. split; [|split].
  - repeat split.
    + rewrite length_take, length_transpose by done. lia.
    + rewrite <- (length_fmap fo ms). apply Forall_take, transpose_column_lengths.
    + rewrite length_take, length_transpose by done. lia.
    + rewrite <- (length_fmap dt ms). apply Forall_take, transpose_column_lengths.
    + rewrite length_take, length_transpose by done. lia.
    + rewrite <- (length_fmap ar ms). apply Forall_take, transpose_column_lengths.
    + by rewrite !length_fmap.
    + apply Forall_fmap, Forall_fmap. eapply Forall_impl; [exact Htp|].
      intros m Hm. simpl. eapply shape2_take2; [exact Hm|lia].
    + by rewrite !length_fmap.
    + apply Forall_fmap, Forall_fmap. eapply Forall_impl; [exact Htpn|].
      intros m Hm. simpl. eapply shape2_take2; [exact Hm|lia].
  - intros i s Hi.
    rewrite !entry2_take, !entry2_transpose by (done || lia).
    rewrite !fmap_lookup_bind. done.
  - intros s i j Hi Hj.
    rewrite !entry3_take by done. unfold entry3, entry2.
    rewrite !list_lookup_fmap.
    destruct (ms !! s); done.
Qed.

(** C5.  In the reject-inclusive ([thr_0]) configuration the alignment
    step removes exactly the last state: the occupancy, dwell and
    appearance arrays are the stacked originals restricted to the first 6
    state rows, of shape (states, subjects); the transition tensors are
    the originals without the last row and last column of each subject's
    matrix, of shape (subjects, states, states); every retained entry is
    unchanged, entry (i, s) being metric i of the s-th processed subject. *)
Theorem thr_0_alignment mdd_files mdd_list hc_files hc_list mdd hc :
  process_condition thr_0 mdd_files mdd_list hc_files hc_list = Ok (mdd, hc) →
  nota_removed mdd_files mdd_list mdd ∧ nota_removed hc_files hc_list hc.
Proof.
  unfold process_condition. simpl n_states_of.
  destruct (calculate_dynamics_for_group mdd_files _ _ _ _) as [g1|] eqn:E1;
    simpl; [|done].
  destruct (calculate_dynamics_for_group hc_files _ _ _ _) as [g2|] eqn:E2;
    simpl; [|done].
  intros [= <- <-].
  destruct (remove_nota_spec _ _ _ _ _ _ E1) as (ms1 & Hms1 & H1).
  destruct (remove_nota_spec _ _ _ _ _ _ E2) as (ms2 & Hms2 & H2).
  split; [exists ms1, g1|exists ms2, g2]; done.
Qed.

(** ** The Label-Set Harmonizer *)

Import NoLIM.

Lemma limbic_id_5 : limbic_id = Ok 5.
Proof. reflexivity. Qed.

Lemma filter_fmap_pre {A B} (f : A → B) (P : B → Prop)
    `{!∀ y, Decision (P y)} (l : list A) :
  filter P (f <$> l) = f <$> filter (λ x, P (f x)) l.
Proof.
  induction l as [|x l IH]; [done|].
  rewrite fmap_cons, !filter_cons, IH. by destruct (decide (P (f x))).
Qed.

Section Dict.
Context `{Countable K} {V : Type}.

Lemma py_dict_acc_lookup (m : gmap K V) (pairs : list (K * V)) k v :
  foldl (λ m p, <[p.1 := p.2]> m) m pairs !! k = Some v →
  (k, v) ∈ pairs ∨ m !! k = Some v.
Proof.
  revert m. induction pairs as [|[k' v'] pairs IH]; intros m; simpl; [auto|].
  intros Hk. destruct (IH _ Hk) as [Hin|Hm].
  - left. by right.
  - rewrite lookup_insert in Hm. case_decide; simplify_eq.
    + left. by left.
    + by right.
Qed.

Lemma py_dict_lookup (pairs : list (K * V)) k v :
  py_dict pairs !! k = Some v → (k, v) ∈ pairs.
Proof.
  intros Hk. destruct (py_dict_acc_lookup ∅ pairs k v Hk) as [?|Hm]; [done|].
  by rewrite lookup_empty in Hm.
Qed.

Lemma py_dict_acc_last (m : gmap K V) (pairs : list (K * V)) k :
  foldl (λ m p, <[p.1 := p.2]> m) m pairs !! k
  = match last (filter (λ p, p.1 = k) pairs) with
    | Some p => Some p.2
    | None => m !! k
    end.
Proof.
  revert m. induction pairs as [|[k' v'] pairs IH]; intros m; [done|].
  simpl foldl. rewrite IH, filter_cons. simpl.
  destruct (decide (k' = k)) as [->|Hne].
  - rewrite last_cons, lookup_insert_eq.
    by destruct (last (filter (λ p, p.1 = k) pairs)).
  - by rewrite lookup_insert_ne.
Qed.

(** A key is bound to the value of the last pair that has it. *)
Lemma py_dict_last (pairs : list (K * V)) k :
  py_dict pairs !! k = snd <$> last (filter (λ p, p.1 = k) pairs).
Proof.
  unfold py_dict. rewrite py_dict_acc_last, lookup_empty.
  by destruct (last _).
Qed.

Lemma py_dict_acc_is_Some (m : gmap K V) (pairs : list (K * V)) k :
  is_Some (foldl (λ m p, <[p.1 := p.2]> m) m pairs !! k)
  ↔ k ∈ pairs.*1 ∨ is_Some (m !! k).
Proof.
  revert m. induction pairs as [|[k' v'] pairs IH]; intros m; simpl.
  - split; [by right|]. intros [Hk|Hk]; [by apply elem_of_nil in Hk|done].
  - rewrite IH, lookup_insert_is_Some, elem_of_cons. simpl.
    destruct (decide (k' = k)) as [->|Hne]; naive_solver.
Qed.

Lemma py_dict_is_Some (pairs : list (K * V)) k :
  is_Some (py_dict pairs !! k) ↔ k ∈ pairs.*1.
Proof.
  unfold py_dict. rewrite py_dict_acc_is_Some, lookup_empty.
  split; [|by left]. intros [Hk|Hk]; [done|]. by destruct Hk.
Qed.
End Dict.

Section Exclusion.
Variable original_atlas_order : list (Z * Z).

(** The atlas is a 7-network configuration: its network identifiers
    are exactly 1..7. *)
Hypothesis seven_networks :
  ∀ k, k ∈ (snd <$> original_atlas_order) ↔ 1 ≤ k ≤ 7.

Lemma survivors_elem k :
  k ∈ (snd <$> filter_atlas original_atlas_order 5) ↔ k ∈ [1; 2; 3; 4; 6; 7].
Proof.
  unfold filter_atlas. rewrite list_elem_of_fmap.
  setoid_rewrite list_elem_of_filter. split.
  - intros ([roi old] & -> & Hne & Hin). simpl in *.
    assert (1 ≤ old ≤ 7).
    { apply seven_networks, list_elem_of_fmap. by exists (roi, old). }
    set_unfold. lia.
  - intros Hk.
    assert (Hr : 1 ≤ k ≤ 7 ∧ k ≠ 5) by (set_unfold; lia).
    destruct Hr as [Hr Hne].
    apply seven_networks, list_elem_of_fmap in Hr as ([roi old] & -> & Hin).
    by exists (roi, old).
Qed.

Lemma unique_old_ids_7 :
  unique_old_ids original_atlas_order 5 = [1; 2; 3; 4; 6; 7].
Proof.
  unfold unique_old_ids.
  apply (Sorted_unique Z.le).
  - apply Sorted_merge_sort. intros x y. lia.
  - repeat constructor; lia.
  - rewrite merge_sort_Permutation. apply NoDup_Permutation.
    + apply NoDup_remove_dups.
    + by apply (bool_decide_unpack (NoDup _)).
    + intros k. rewrite elem_of_remove_dups. apply survivors_elem.
Qed.

Lemma old_to_new_id_map_7 :
  old_to_new_id_map original_atlas_order 5
  = <[7:=6]> (<[6:=5]> (<[4:=4]> (<[3:=3]> (<[2:=2]> (<[1:=1]> ∅))))).
Proof. unfold old_to_new_id_map. rewrite unique_old_ids_7. reflexivity. Qed.

Lemma old_to_new_lookup old :
  old ∈ [1; 2; 3; 4; 6; 7] →
  old_to_new_id_map original_atlas_order 5 !! old = Some (renumber old).
Proof.
  rewrite old_to_new_id_map_7. intros Hin.
  set_unfold. destruct Hin as [->|[->|[->|[->|[->|[->|[]]]]]]]; reflexivity.
Qed.

Lemma atlas_order_7 :
  atlas_order original_atlas_order 5
  = (λ r, (r.1, Some (renumber r.2))) <$> filter_atlas original_atlas_order 5.
Proof.
  unfold atlas_order. apply Forall_fmap_ext, Forall_forall.
  intros [roi old] Hin. simpl. f_equal.
  apply old_to_new_lookup, survivors_elem, list_elem_of_fmap.
  by exists (roi, old).
Qed.

Lemma old_to_new_lookup_inv a a' :
  old_to_new_id_map original_atlas_order 5 !! a = Some a' →
  a ∈ [1; 2; 3; 4; 6; 7] ∧ a' = renumber a.
Proof.
  unfold old_to_new_id_map. rewrite unique_old_ids_7. intros Ha.
  apply py_dict_lookup in Ha.
  change (_ <$> enumerate _ 1)
    with [(1, 1); (2, 2); (3, 3); (4, 4); (6, 5); (7, 6)] in Ha.
  set_unfold.
  destruct Ha as [Ha|[Ha|[Ha|[Ha|[Ha|[Ha|[]]]]]]]; injection Ha as -> ->;
    split; (lia || reflexivity).
Qed.

Lemma id2net_renumber old :
  old ∈ [1; 2; 3; 4; 6; 7] →
  id2net !! renumber old = original_labels !! Z.to_nat (old - 1) ∧
  id2net !! renumber old ≠ Some limbic_label_name.
Proof.
  intros Hin. set_unfold.
  destruct Hin as [->|[->|[->|[->|[->|[->|[]]]]]]]; split; (reflexivity || done).
Qed.

(** C4.  Excluding the Limbic network from a 7-network configuration
    re-derives the Region-to-Network map so that the surviving networks
    are renumbered to the contiguous identifiers 1..6 in their relative
    order (keeping their names), no region of the filtered map points to
    the excluded network, and the reject identifier becomes 7.  The
    region-to-network dictionary [roi2id] built from the filtered map
    (line 86) has exactly the regions of the kept rows as keys, and
    binds each of them to the renumbered network of its kept row (of the
    last one, should a region have several). *)
Theorem limbic_exclusion :
  ∃ cfg, configure original_atlas_order = Ok cfg ∧
    cfg_limbic_id cfg = 5 ∧
    cfg_atlas_order cfg
    = (λ r, (r.1, Some (renumber r.2)))
        <$> filter (λ r, r.2 ≠ 5) original_atlas_order ∧
    (∀ k, Some k ∈ (cfg_atlas_order cfg).*2 ↔ 1 ≤ k ≤ 6) ∧
    (∀ a b a' b',
       cfg_old_to_new_id_map cfg !! a = Some a' →
       cfg_old_to_new_id_map cfg !! b = Some b' →
       (a < b ↔ a' < b')) ∧
    (∀ a a',
       cfg_old_to_new_id_map cfg !! a = Some a' →
       a ≠ 5 ∧
       cfg_id2net cfg !! a' = original_labels !! Z.to_nat (a - 1) ∧
       cfg_id2net cfg !! a' ≠ Some limbic_label_name) ∧
    (∀ roi new,
       cfg_roi2id cfg !! roi = Some new →
       ∃ old, (roi, old) ∈ original_atlas_order ∧ old ≠ 5 ∧
              new = Some (renumber old) ∧ 1 ≤ renumber old ≤ 6) ∧
    (∀ roi,
       is_Some (cfg_roi2id cfg !! roi)
       ↔ ∃ old, (roi, old) ∈ original_atlas_order ∧ old ≠ 5) ∧
    (∀ roi old,
       (roi, old) ∈ original_atlas_order → old ≠ 5 →
       (∀ old', (roi, old') ∈ original_atlas_order → old' ≠ 5 →
                old' = old) →
       cfg_roi2id cfg !! roi = Some (Some (renumber old))) ∧
    (∀ roi,
       cfg_roi2id cfg !! roi
       = (λ r : Z * Z, Some (renumber r.2))
           <$> last (filter (λ r, r.1 = roi ∧ r.2 ≠ 5)
                       original_atlas_order)) ∧
    cfg_nlabels cfg = 7 ∧
    cfg_id2net cfg !! 7 = Some "NOTA"%string.
Proof.
  exists {| cfg_limbic_id := 5;
            cfg_atlas_order := atlas_order original_atlas_order 5;
            cfg_rois_to_keep_indices :=
              rois_to_keep_indices original_atlas_order 5;
            cfg_labels := labels;
            cfg_nlabels := nlabels;
            cfg_old_to_new_id_map := old_to_new_id_map original_atlas_order 5;
            cfg_id2net := id2net;
            cfg_roi2id := roi2id original_atlas_order 5 |}.
  split; [reflexivity|].
  cbn [cfg_limbic_id cfg_atlas_order cfg_old_to_new_id_map cfg_id2net
       cfg_roi2id cfg_nlabels].
  split; [done|]. split; [apply atlas_order_7|].
  assert (Hroi2id : ∀ roi new,
            roi2id original_atlas_order 5 !! roi = Some new →
            ∃ old, (roi, old) ∈ original_atlas_order ∧ old ≠ 5 ∧
                   new = Some (renumber old) ∧ 1 ≤ renumber old ≤ 6).
  { intros roi new Hroi. unfold roi2id in Hroi.
    apply py_dict_lookup in Hroi. rewrite atlas_order_7 in Hroi.
    apply list_elem_of_fmap in Hroi as ([roi' old] & [= -> ->] & Hin).
    simpl. exists old.
    assert (Hs : old ∈ [1; 2; 3; 4; 6; 7]).
    { apply survivors_elem, list_elem_of_fmap. by exists (roi', old). }
    unfold filter_atlas in Hin. apply list_elem_of_filter in Hin as [Hne Hin].
    split; [done|]. split; [done|]. split; [done|].
    unfold renumber. set_unfold. case_match; lia. }
  assert (Hkeys : ∀ roi,
            is_Some (roi2id original_atlas_order 5 !! roi)
            ↔ ∃ old, (roi, old) ∈ original_atlas_order ∧ old ≠ 5).
  { intros roi. unfold roi2id. rewrite py_dict_is_Some.
    unfold atlas_order, filter_atlas. rewrite <- list_fmap_compose.
    rewrite list_elem_of_fmap. setoid_rewrite list_elem_of_filter. split.
    - intros ([roi' old] & -> & Hne & Hin). by exists old.
    - intros (old & Hin & Hne). by exists (roi, old). }
  split; [|split; [|split; [|split; [|split; [|split; [|split;
    [|split; [done|reflexivity]]]]]]]].
  - intros k. rewrite atlas_order_7, <- list_fmap_compose.
    rewrite list_elem_of_fmap. split.
    + intros ([roi old] & [= ->] & Hin). simpl.
      assert (Hs : old ∈ [1; 2; 3; 4; 6; 7]).
      { apply survivors_elem, list_elem_of_fmap. by exists (roi, old). }
      unfold renumber. set_unfold. case_match; lia.
    + intros Hk.
      assert (Hs : (if k <? 5 then k else k + 1) ∈ [1; 2; 3; 4; 6; 7]).
      { set_unfold. case_match; lia. }
      apply survivors_elem, list_elem_of_fmap in Hs as ([roi old] & Hold & Hin).
      exists (roi, old). split; [|done]. simpl in *. subst old. f_equal.
      unfold renumber. repeat case_match; lia.
  - intros a b a' b' Ha Hb.
    apply old_to_new_lookup_inv in Ha as [Ha ->].
    apply old_to_new_lookup_inv in Hb as [Hb ->].
    unfold renumber. set_unfold. repeat case_match; lia.
  - intros a a' Ha. apply old_to_new_lookup_inv in Ha as [Ha ->].
    split; [set_unfold; lia|]. by apply id2net_renumber.
  - exact Hroi2id.
  - exact Hkeys.
  - intros roi old Hin Hne Huniq.
    destruct (proj2 (Hkeys roi)) as [new Hnew]; [by exists old|].
    destruct (Hroi2id roi new Hnew) as (old' & Hin' & Hne' & -> & _).
    by rewrite Hnew, (Huniq old' Hin' Hne').
  - intros roi. unfold roi2id. rewrite py_dict_last, atlas_order_7.
    unfold filter_atlas. rewrite filter_fmap_pre, list_filter_filter.
    rewrite fmap_last, <- !option_fmap_compose. done.
Qed.
End Exclusion.

(** ** The State-Map Aggregator *)

Lemma state_mean_absent n_rois_curr ttss mask :
  mask_count mask = 0%nat →
  state_mean n_rois_curr ttss mask = replicate n_rois_curr (Fin 0).
Proof. intros H. unfold state_mean. rewrite H. done. Qed.

Lemma mask_count_absent time_labels (i : nat) :
  Z.of_nat i + 1 ∉ time_labels → mask_count (state_mask time_labels i) = 0%nat.
Proof.
  unfold mask_count, state_mask. induction time_labels as [|l ls IH]; [done|].
  intros Hl. apply not_elem_of_cons in Hl as [Hne Hl].
  rewrite fmap_cons, filter_cons. rewrite bool_decide_eq_false_2 by done.
  case_decide; [done|]. by apply IH.
Qed.

Lemma NoLIM_state_map_of_stored cfg subj_id ttss labels i state maps :
  NoLIMSubject.state_map_of cfg subj_id ttss labels i state = Ok maps →
  Forall (λ sm, all_nan (sm_value sm) = false) maps.
Proof.
  unfold NoLIMSubject.state_map_of, make_tmp_df.
  destruct (all_nan _) eqn:E; simpl; [by intros [= <-]|].
  case_decide; simpl; [|done]. intros [= <-].
  constructor; [done|constructor].
Qed.

(** In [extract_brain_states_noLIM.py] no stored state map is entirely
    NaN. *)
Lemma NoLIM_no_nan_state_map cfg subj_id ttss maps :
  NoLIMSubject.subject_state_maps cfg subj_id ttss = Ok maps →
  Forall (λ sm, all_nan (sm_value sm) = false) maps.
Proof.
  unfold NoLIMSubject.subject_state_maps.
  destruct (NoLIMSubject.time_labels _ _) as [labels|]; simpl; [|done].
  destruct (mapM _ _) as [blocks|] eqn:E; simpl; [|done].
  intros [= <-]. apply mapM_Ok_inv in E.
  apply Forall_concat. eapply Forall2_Forall_r; [exact E|].
  apply Forall_true. intros [i state] block. simpl.
  apply NoLIM_state_map_of_stored.
Qed.

Lemma configure_atlas_7 : NoLIM.configure atlas_7 = Ok cfg_7.
Proof. reflexivity. Qed.

(** C9, the code at the failing input.  For a subject whose z-scored
    signal is NaN in every region, [extract_brain_states.py] labels every
    timepoint with the reject state, stores an all-zero map for each of
    the seven absent states and also stores the entirely-NaN map of the
    reject state, where [extract_brain_states_noLIM.py] on the same kind
    of subject stores the all-zero maps and drops the NaN one. *)
Theorem full_script_stores_nan_state_map :
  let zero_map n state :=
    {| sm_subject := 42; sm_state := state; sm_value := replicate n (Fin 0) |} in
  Full.time_labels atlas_7 7 (nan_ttss 7) = Ok [8; 8] ∧
  Full.subject_state_maps atlas_7 42 7 (nan_ttss 7)
  = Ok ((zero_map 7%nat <$> take 7 Full.LABELS)
        ++ [ {| sm_subject := 42; sm_state := "NOTA";
                sm_value := replicate 7 NaN |} ]) ∧
  all_nan (replicate 7 NaN) = true ∧
  NoLIMSubject.time_labels cfg_7 (nan_ttss 6) = Ok [7; 7] ∧
  NoLIMSubject.subject_state_maps cfg_7 42 (nan_ttss 6)
  = Ok (zero_map 6%nat <$> take 6 NoLIM.labels).
Proof. repeat split; vm_compute; reflexivity. Qed.

(** ** Block decomposition: change points against maximal runs *)

Lemma np_diff_cons2 x y rest :
  np_diff (x :: y :: rest) = wrap64 (y - x) :: np_diff (y :: rest).
Proof. reflexivity. Qed.

Lemma wrap64_diff_zero x y : int64 x → int64 y → wrap64 (y - x) = 0 ↔ x = y.
Proof.
  unfold int64, wrap64. intros Hx Hy. split; [|intros ->; by rewrite Z.sub_diag].
  intros H. Z.div_mod_to_equations. lia.
Qed.

Lemma block_ok_shift pos x l b :
  block_ok (pos + 1) l b → block_ok pos (x :: l) b.
Proof.
  intros [Hb Hl]. split.
  - simpl length. lia.
  - replace (Z.to_nat (Spec.start b - pos))
      with (S (Z.to_nat (Spec.start b - (pos + 1)))) by lia.
    done.
Qed.

Lemma blocks_from_change_points l pos :
  l ≠ [] → Forall int64 l → 0 ≤ pos → pos + Z.of_nat (length l) < 2 ^ 63 →
  let bs := Spec.blocks_from pos l in
  Spec.start <$> bs = pos :: cps_from pos l ∧
  Spec.stop <$> bs = cps_from pos l ++ [pos + Z.of_nat (length l)] ∧
  Forall (block_ok pos l) bs.
Proof.
  revert pos. induction l as [|x [|y rest] IH]; intros pos Hne H64 Hpos Hlen; [done| |].
  - simpl. split; [done|]. split; [f_equal; f_equal; lia|].
    constructor; [|constructor]. split; simpl; [lia|].
    by replace (pos - pos) with 0 by lia.
  - assert (Hx : int64 x) by (by inversion H64).
    assert (H64' : Forall int64 (y :: rest)) by (by inversion H64).
    assert (Hy : int64 y) by (by inversion H64').
    destruct (IH (pos + 1)) as (Hst & Hsp & Hok); [done|done|lia| |].
    { simpl length in *. lia. }
    change (Spec.blocks_from pos (x :: y :: rest))
      with (match Spec.blocks_from (pos + 1) (y :: rest) with
            | b :: more =>
                if decide (Spec.label b = x)
                then {| Spec.label := x; Spec.start := pos;
                        Spec.stop := Spec.stop b |} :: more
                else {| Spec.label := x; Spec.start := pos;
                        Spec.stop := pos + 1 |} :: b :: more
            | [] => [{| Spec.label := x; Spec.start := pos; Spec.stop := pos + 1 |}]
            end).
    destruct (Spec.blocks_from (pos + 1) (y :: rest)) as [|b more] eqn:Eb;
      [done|].
    injection Hst as Hb0 Hmore.
    assert (Hby : Spec.label b = y).
    { apply Forall_cons in Hok as [[_ Hl] _]. rewrite Hb0 in Hl.
      replace (pos + 1 - (pos + 1)) with 0 in Hl by lia. by injection Hl. }
    unfold cps_from in *. rewrite np_diff_cons2.
    assert (Hlen' : Z.of_nat (length (x :: y :: rest))
                    = 1 + Z.of_nat (length (y :: rest))) by (simpl length; lia).
    apply Forall_cons in Hok as [Hokb Hokm].
    case_decide as Hxl.
    + assert (Hd : wrap64 (y - x) = 0) by (apply wrap64_diff_zero; congruence).
      simpl where_nonzero. rewrite Hd. simpl (0 =? 0).
      rewrite !fmap_cons. simpl Spec.start. simpl Spec.stop.
      split; [f_equal; exact Hmore|]. split.
      * rewrite fmap_cons in Hsp. rewrite Hsp, Hlen'. f_equal. f_equal. lia.
      * constructor.
        -- destruct Hokb as [Hb _]. split; simpl; [simpl length in *; lia|].
           by replace (pos - pos) with 0 by lia.
        -- eapply Forall_impl; [exact Hokm|]. intros b'. apply block_ok_shift.
    + assert (Hd : wrap64 (y - x) ≠ 0).
      { rewrite wrap64_diff_zero by done. congruence. }
      simpl where_nonzero. rewrite (proj2 (Z.eqb_neq _ _) Hd).
      rewrite !fmap_cons. simpl Spec.start. simpl Spec.stop.
      rewrite wrap64_small by (unfold int64; lia).
      split; [rewrite Hb0; do 2 f_equal; exact Hmore|]. split.
      * rewrite fmap_cons in Hsp. rewrite Hsp, Hlen'. simpl.
        do 3 f_equal. lia.
      * constructor; [|constructor].
        -- split; simpl; [simpl length; lia|].
           by replace (pos - pos) with 0 by lia.
        -- by apply block_ok_shift.
        -- eapply Forall_impl; [exact Hokm|]. intros b'. apply block_ok_shift.
Qed.

Section Blocks.
Variable time_labels : list Z.
Hypothesis labels_nonempty : time_labels ≠ [].
Hypothesis labels_int64 : Forall int64 time_labels.
Hypothesis length_int64 : Z.of_nat (length time_labels) < 2 ^ 63.

Lemma blocks_starts :
  block_starts time_labels = Spec.start <$> Spec.blocks time_labels.
Proof.
  destruct (blocks_from_change_points time_labels 0) as (H & _); done.
Qed.

Lemma blocks_ends :
  block_ends (Z.of_nat (length time_labels)) time_labels
  = Spec.stop <$> Spec.blocks time_labels.
Proof.
  destruct (blocks_from_change_points time_labels 0) as (_ & H & _); done.
Qed.

Lemma blocks_ok : Forall (block_ok 0 time_labels) (Spec.blocks time_labels).
Proof.
  destruct (blocks_from_change_points time_labels 0) as (_ & _ & H); done.
Qed.

Lemma blocks_lengths :
  block_lengths (Z.of_nat (length time_labels)) time_labels
  = (λ b, Spec.stop b - Spec.start b) <$> Spec.blocks time_labels.
Proof.
  unfold block_lengths. rewrite blocks_starts, blocks_ends.
  rewrite zip_with_fmap_l, zip_with_fmap_r, zip_with_diag.
  apply Forall_fmap_ext. eapply Forall_impl; [exact blocks_ok|].
  intros b [Hb _]. simpl. apply wrap64_small. unfold int64. lia.
Qed.

Lemma blocks_states :
  block_states time_labels
  = Ok ((λ b, wrap64 (Spec.label b - 1)) <$> Spec.blocks time_labels).
Proof.
  unfold block_states. rewrite blocks_starts.
  apply mapM_Ok_intro. apply Forall2_fmap, Forall_Forall2_diag.
  eapply Forall_impl; [exact blocks_ok|].
  intros b [Hb Hl]. simpl. rewrite np_index_nonneg by lia.
  replace (Spec.start b - 0) with (Spec.start b) in Hl by lia.
  by rewrite Hl.
Qed.

Lemma blocks_labels_elem b :
  b ∈ Spec.blocks time_labels → Spec.label b ∈ time_labels.
Proof.
  intros Hb. pose proof blocks_ok as H. rewrite Forall_forall in H.
  destruct (H b Hb) as [_ Hl]. by eapply list_elem_of_lookup_2.
Qed.

Lemma blocks_state_lengths (n : nat) (i : Z) :
  Z.of_nat n < 2 ^ 63 → 0 ≤ i < Z.of_nat n →
  state_block_lengths (Z.of_nat (length time_labels)) time_labels
    ((λ b, wrap64 (Spec.label b - 1)) <$> Spec.blocks time_labels) i
  = (λ b, Spec.stop b - Spec.start b) <$> Spec.blocks_of time_labels (i + 1).
Proof.
  intros Hn Hi. unfold state_block_lengths, Spec.blocks_of.
  rewrite blocks_lengths.
  assert (Hin : Forall (λ b, int64 (Spec.label b)) (Spec.blocks time_labels)).
  { apply Forall_forall. intros b Hb. pose proof labels_int64 as H64.
    rewrite Forall_forall in H64. by apply H64, blocks_labels_elem. }
  clear -Hin Hn Hi. induction (Spec.blocks time_labels) as [|b l IH]; [done|].
  apply Forall_cons in Hin as [Hb Hl].
  rewrite !fmap_cons. simpl zip. rewrite !filter_cons. simpl.
  destruct (decide (wrap64 (Spec.label b - 1) = i)) as [E|E].
  - apply wrap64_pred_inj in E; [|done|lia].
    rewrite decide_True by done. rewrite !fmap_cons. f_equal. by apply IH.
  - rewrite decide_False; [by apply IH|].
    intros E'. apply E. rewrite E'. replace (i + 1 - 1) with i by lia.
    apply wrap64_small. unfold int64. lia.
Qed.
End Blocks.

Lemma py_truediv_nonzero a b :
  ¬ (b == 0)%Q → py_truediv a b = Ok (inject_Z a / b)%Q.
Proof.
  intros Hb. unfold py_truediv.
  destruct (Qeq_bool b 0) eqn:E; [|done].
  by apply Qeq_bool_iff in E.
Qed.

Lemma dwell_appearance_spec tr labels (n : nat) (i : Z) :
  labels ≠ [] → Forall int64 labels → Z.of_nat (length labels) < 2 ^ 63 →
  Z.of_nat n < 2 ^ 63 → 0 ≤ i < Z.of_nat n →
  ¬ (scan_length_min tr (Z.of_nat (length labels)) == 0)%Q →
  dwell_appearance tr (Z.of_nat (length labels)) labels
    ((λ b, wrap64 (Spec.label b - 1)) <$> Spec.blocks labels) i
  = Ok (Spec.dwell_time tr labels (i + 1), Spec.appearance_rate tr labels (i + 1)).
Proof.
  intros Hne H64 Hlen Hn Hi Hscan. unfold dwell_appearance.
  rewrite (blocks_state_lengths labels Hne H64 Hlen n i Hn Hi).
  unfold Spec.dwell_time, Spec.appearance_rate.
  destruct (Spec.blocks_of labels (i + 1)) as [|b l]; [done|].
  rewrite decide_True by (rewrite length_fmap; simpl; lia).
  rewrite py_truediv_nonzero by done. simpl. by rewrite length_fmap.
Qed.

(** ** The transition loop as a fold over adjacent pairs *)

Section Fold.
Variable n_states : nat.
Variable labels : list Z.

Lemma pairs_lookup (t : nat) a b :
  states_0based labels !! t = Some a →
  states_0based labels !! S t = Some b →
  state_pairs labels !! t = Some (a, b).
Proof.
  intros Ha Hb. unfold state_pairs. apply lookup_zip_with_Some.
  exists a, b. split; [done|]. split; [done|]. by rewrite lookup_drop.
Qed.

Lemma tp_loop_fold (k start : nat) tp :
  (k = 0 ∨ start + k < length labels)%nat →
  tp_loop n_states (states_0based labels) (seqZ (Z.of_nat start) (Z.of_nat k)) tp
  = Ok (foldl (step n_states) tp (take k (drop start (state_pairs labels)))).
Proof.
  revert start tp. induction k as [|k IH]; intros start tp Hk; [done|].
  destruct Hk as [|Hk]; [done|].
  rewrite seqZ_cons by lia.
  replace (Z.pred (Z.of_nat (S k))) with (Z.of_nat k) by lia.
  replace (Z.succ (Z.of_nat start)) with (Z.of_nat (S start)) by lia.
  assert (Hls : length (states_0based labels) = length labels).
  { unfold states_0based. by rewrite length_fmap. }
  destruct (lookup_lt_is_Some_2 (states_0based labels) start) as [a Ha]; [lia|].
  destruct (lookup_lt_is_Some_2 (states_0based labels) (S start)) as [b Hb]; [lia|].
  simpl tp_loop.
  rewrite !np_index_nonneg by lia.
  replace (Z.to_nat (Z.of_nat start + 1)) with (S start) by lia.
  rewrite Nat2Z.id, Ha, Hb. simpl.
  rewrite IH by lia.
  erewrite (drop_S (state_pairs labels) (a, b) start) by (by apply pairs_lookup).
  done.
Qed.

Lemma transition_counts_fold total :
  total ≤ 1 ∨ total ≤ Z.of_nat (length labels) →
  transition_counts n_states total labels
  = Ok (foldl (step n_states) (replicate n_states (replicate n_states 0))
              (take (Z.to_nat (total - 1)) (state_pairs labels))).
Proof.
  intros Ht. unfold transition_counts.
  destruct (decide (total ≤ 1)) as [H1|H1].
  - rewrite seqZ_nil by lia. by replace (Z.to_nat (total - 1)) with 0%nat by lia.
  - rewrite <- (Z2Nat.id (total - 1)) at 1 by lia.
    rewrite (tp_loop_fold _ 0) by lia. done.
Qed.

Lemma step_entry tp p (i j : nat) :
  (i < n_states)%nat → (j < n_states)%nat →
  entry2 (step n_states tp p) i j
  = (λ c, c + (if decide (p = (Z.of_nat i, Z.of_nat j)) then 1 else 0))
      <$> entry2 tp i j.
Proof.
  intros Hi Hj. destruct p as [a b]. unfold step, in_range, entry2. simpl.
  assert (Hid : ∀ o : option Z, (λ c, c + 0) <$> o = o).
  { intros [c|]; simpl; [f_equal; lia|done]. }
  destruct (Z.leb_spec 0 a); simpl.
  2:{ rewrite decide_False by (intros [= -> _]; lia). apply eq_sym, Hid. }
  destruct (Z.ltb_spec a (Z.of_nat n_states)); simpl.
  2:{ rewrite decide_False by (intros [= -> _]; lia). apply eq_sym, Hid. }
  destruct (Z.leb_spec 0 b); simpl.
  2:{ rewrite decide_False by (intros [= _ ->]; lia). apply eq_sym, Hid. }
  destruct (Z.ltb_spec b (Z.of_nat n_states)); simpl.
  2:{ rewrite decide_False by (intros [= _ ->]; lia). apply eq_sym, Hid. }
  unfold increment. rewrite list_lookup_alter.
  destruct (decide (Z.to_nat a = i)) as [Ea|Ea].
  - subst i. destruct (tp !! Z.to_nat a) as [row|]; simpl; [|done].
    rewrite list_lookup_alter.
    destruct (decide (Z.to_nat b = j)) as [Eb|Eb].
    + subst j. rewrite decide_True by (f_equal; lia).
      destruct (row !! Z.to_nat b); simpl; [f_equal; lia|done].
    + rewrite decide_False by (intros [= _ ->]; lia). apply eq_sym, Hid.
  - rewrite decide_False by (intros [= -> _]; lia). apply eq_sym, Hid.
Qed.

Lemma foldl_step_entry ps tp (i j : nat) :
  (i < n_states)%nat → (j < n_states)%nat →
  entry2 (foldl (step n_states) tp ps) i j
  = (λ c, c + pair_count ps (Z.of_nat i, Z.of_nat j)) <$> entry2 tp i j.
Proof.
  intros Hi Hj. revert tp. induction ps as [|p ps IH]; intros tp.
  - simpl. destruct (entry2 tp i j); simpl; [|done].
    f_equal. unfold pair_count. simpl. lia.
  - simpl foldl. rewrite IH, step_entry by done.
    unfold pair_count. rewrite filter_cons.
    destruct (entry2 tp i j) as [c|]; simpl; [|done]. f_equal.
    case_decide; simpl length; lia.
Qed.
End Fold.

Lemma matrix_eq_entries (M : matrix Z) (n : nat) (F : nat → nat → Z) :
  shape2 M n n →
  (∀ i j, (i < n)%nat → (j < n)%nat → entry2 M i j = Some (F i j)) →
  M = (λ i, (λ j, F i j) <$> seq 0 n) <$> seq 0 n.
Proof.
  intros [Hlen Hrows] Hent.
  apply (list_eq_same_length _ _ n); [by rewrite length_fmap, length_seq|done|].
  intros i row row' Hi Hrow Hrow'.
  rewrite list_lookup_fmap, lookup_seq_lt in Hrow' by done.
  injection Hrow' as <-.
  assert (Hrl : length row = n) by (rewrite Forall_lookup in Hrows; eauto).
  apply (list_eq_same_length _ _ n); [by rewrite length_fmap, length_seq|done|].
  intros j c c' Hj Hc Hc'.
  rewrite list_lookup_fmap, lookup_seq_lt in Hc' by done.
  injection Hc' as <-.
  specialize (Hent i j Hi Hj). unfold entry2 in Hent.
  rewrite Hrow in Hent. simpl in Hent. congruence.
Qed.

Lemma seqZ_as_seq (n : nat) :
  seqZ 1 (Z.of_nat n) = (λ i : nat, Z.of_nat i + 1) <$> seq 0 n.
Proof. unfold seqZ. by rewrite Nat2Z.id. Qed.

Lemma pair_count_states (l l' : list Z) (i j : Z) :
  Forall int64 l → Forall int64 l' →
  0 ≤ i < 2 ^ 63 - 1 → 0 ≤ j < 2 ^ 63 - 1 →
  pair_count (zip ((λ x, wrap64 (x - 1)) <$> l) ((λ x, wrap64 (x - 1)) <$> l'))
             (i, j)
  = pair_count (zip l l') (i + 1, j + 1).
Proof.
  intros Hl Hl' Hi Hj. unfold pair_count. f_equal.
  revert l' Hl'. induction Hl as [|x l Hx _ IH]; intros l' Hl'; [done|].
  destruct Hl' as [|y l' Hy Hl']; [done|].
  rewrite !fmap_cons. simpl zip. rewrite !filter_cons.
  destruct (decide ((wrap64 (x - 1), wrap64 (y - 1)) = (i, j))) as [E|E].
  - injection E as Ex Ey.
    apply wrap64_pred_inj in Ex; [|done|done].
    apply wrap64_pred_inj in Ey; [|done|done].
    rewrite decide_True by congruence. simpl. f_equal. by apply IH.
  - rewrite decide_False; [by apply IH|].
    intros [= -> ->]. apply E.
    replace (i + 1 - 1) with i by lia. replace (j + 1 - 1) with j by lia.
    rewrite !wrap64_small by (unfold int64; lia). done.
Qed.

Lemma transition_counts_spec (n : nat) labels :
  Forall int64 labels → Z.of_nat n < 2 ^ 63 →
  transition_counts n (Z.of_nat (length labels)) labels
  = Ok (Spec.count_matrix n labels).
Proof.
  intros H64 Hn.
  assert (Hf := transition_counts_fold n labels (Z.of_nat (length labels))
                  (or_intror (Z.le_refl _))).
  rewrite Hf.
  pose proof (transition_counts_shape n labels (Z.of_nat (length labels)) _ Hf)
    as Hshape.
  f_equal. unfold Spec.count_matrix. rewrite seqZ_as_seq, <- list_fmap_compose.
  rewrite (matrix_eq_entries _ n
             (λ i j, Spec.transitions labels (Z.of_nat i + 1) (Z.of_nat j + 1)));
    [|done|].
  { apply list_fmap_ext. intros _ i _. simpl. by rewrite <- list_fmap_compose. }
  intros i j Hi Hj. rewrite foldl_step_entry by done.
  unfold entry2 at 1. rewrite lookup_replicate_2 by done. simpl.
  rewrite lookup_replicate_2 by done. simpl. f_equal.
  rewrite take_ge.
  2:{ unfold state_pairs. rewrite length_zip_with, length_drop.
      unfold states_0based. rewrite length_fmap. lia. }
  unfold state_pairs, states_0based. rewrite <- fmap_drop.
  rewrite pair_count_states; [done|done| |lia|lia].
  by apply Forall_drop.
Qed.

Lemma row_normalize_spec (M : matrix Z) :
  row_normalize M = Spec.normalize_rows M.
Proof.
  unfold row_normalize, Spec.normalize_rows, divide_row.
  apply list_fmap_ext. intros _ row _. apply list_fmap_ext. intros _ c _.
  destruct (Z.eqb_spec (sumZ row) 0) as [E|E].
  - by rewrite decide_True.
  - by rewrite decide_False.
Qed.

Lemma fill_diagonal_spec (M : matrix Z) :
  fill_diagonal_0 M = Spec.zero_diagonal M.
Proof.
  unfold fill_diagonal_0, Spec.zero_diagonal.
  apply imap_ext. intros i row _. apply list_eq. intros j.
  rewrite list_lookup_imap.
  destruct (decide (i = j)) as [<-|Hne].
  - destruct (row !! i) as [c|] eqn:E; simpl.
    + rewrite list_lookup_insert_eq by (by eapply lookup_lt_Some).
      done.
    + apply lookup_ge_None. rewrite length_insert. by apply lookup_ge_None.
  - rewrite list_lookup_insert_ne by done.
    destruct (row !! j); simpl; [|done]. by rewrite ?decide_False.
Qed.

Lemma mapM_Ok_fmap_ext {A B} (f : A → result B) (g : A → B) (l : list A) :
  Forall (λ x, f x = Ok (g x)) l → mapM f l = Ok (g <$> l).
Proof.
  intros H. apply mapM_Ok_intro, Forall2_fmap_r, Forall_Forall2_diag. done.
Qed.

Lemma scan_length_nonzero tr total :
  ¬ (tr == 0)%Q → total ≠ 0 → ¬ (scan_length_min tr total == 0)%Q.
Proof.
  intros Htr Htot E. unfold scan_length_min in E.
  assert (E' : (inject_Z total * tr == 0)%Q).
  { rewrite <- (Qmult_div_r (inject_Z total * tr) 60) by done.
    unfold Qdiv in *. rewrite E. ring. }
  apply Qmult_integral in E' as [E'|E']; [|done].
  apply Htot. unfold Qeq in E'. simpl in E'. lia.
Qed.

Lemma tp_loop_app n labels ts1 ts2 tp :
  tp_loop n (states_0based labels) (ts1 ++ ts2) tp
  = (tp_loop n (states_0based labels) ts1 tp ≫= tp_loop n (states_0based labels) ts2).
Proof.
  revert tp. induction ts1 as [|t ts1 IH]; intros tp; [done|].
  simpl. destruct (np_index _ t); simpl; [|done].
  destruct (np_index _ (t + 1)); simpl; [|done]. apply IH.
Qed.

Lemma np_index_out_of_range {A} (a : list A) (i : Z) :
  Z.of_nat (length a) ≤ i → np_index a i = Raise IndexError.
Proof.
  intros Hi. unfold np_index.
  rewrite (proj2 (Z.ltb_ge i 0)) by lia.
  rewrite (proj2 (Z.ltb_ge i 0)) by lia.
  by rewrite (proj2 (Z.leb_le _ _) Hi).
Qed.

Lemma transition_counts_short n total labels :
  Z.of_nat (length labels) < total → 2 ≤ total →
  transition_counts n total labels = Raise IndexError.
Proof.
  intros Hshort Htot. unfold transition_counts.
  assert (Hls : length (states_0based labels) = length labels).
  { unfold states_0based. by rewrite length_fmap. }
  destruct (decide (labels = [])) as [->|Hne].
  - rewrite seqZ_cons by lia. reflexivity.
  - assert (Hpos : (0 < length labels)%nat).
    { destruct labels; [done|simpl; lia]. }
    set (k := (length labels - 1)%nat).
    replace (total - 1) with (Z.of_nat k + (total - Z.of_nat (length labels)))
      by (unfold k; lia).
    rewrite seqZ_app, tp_loop_app by lia.
    rewrite (tp_loop_fold n labels k 0) by (unfold k; lia).
    change (Ok ?x ≫= ?f) with (f x).
    rewrite seqZ_cons by lia.
    change (tp_loop n (states_0based labels) (?t :: ?ts) ?tp)
      with (np_index (states_0based labels) t ≫= λ from_state,
            np_index (states_0based labels) (t + 1) ≫= λ to_state,
            tp_loop n (states_0based labels) ts
              (if in_range n from_state && in_range n to_state
               then increment tp from_state to_state else tp)).
    rewrite (np_index_nonneg _ (0 + Z.of_nat k)) by lia.
    destruct (lookup_lt_is_Some_2 (states_0based labels) (Z.to_nat (0 + Z.of_nat k)))
      as [a Ha]; [unfold k; rewrite Hls; lia|].
    rewrite Ha.
    rewrite np_index_out_of_range; [done|].
    rewrite Hls. unfold k. lia.
Qed.

Section Refinement.
Variable n_states : nat.
Variable tr_duration_s : Q.
Variable time_labels : list Z.

Hypothesis labels_int64 : Forall int64 time_labels.
Hypothesis length_int64 : Z.of_nat (length time_labels) < 2 ^ 63.
Hypothesis n_states_int64 : Z.of_nat n_states < 2 ^ 63.
Hypothesis tr_nonzero : ¬ (tr_duration_s == 0)%Q.

Lemma dwell_appearance_total total states (i : Z) :
  total ≠ 0 →
  ∃ da, dwell_appearance tr_duration_s total time_labels states i = Ok da.
Proof.
  intros Htot. unfold dwell_appearance. case_decide; [|eauto].
  rewrite py_truediv_nonzero by (by apply scan_length_nonzero). eauto.
Qed.

Lemma subject_dynamics_short total :
  (Z.of_nat (length time_labels)) < total →
  subject_dynamics n_states tr_duration_s total time_labels = Raise IndexError.
Proof.
  intros Hshort. unfold subject_dynamics.
  destruct (decide (time_labels = [])) as [->|Hne]; [done|].
  rewrite blocks_states by done. simpl mbind.
  destruct (mapM_total (dwell_appearance tr_duration_s total time_labels
              ((λ b, wrap64 (Spec.label b - 1)) <$> Spec.blocks time_labels))
              (seqZ 0 (Z.of_nat n_states))) as [dtar ->].
  { apply Forall_true. intros i. apply dwell_appearance_total. lia. }
  simpl. rewrite transition_counts_short; [done|done|].
  destruct time_labels; [done|]. simpl length in *. lia.
Qed.

Lemma subject_dynamics_total total :
  0 < total ≤ (Z.of_nat (length time_labels)) →
  ∃ m, subject_dynamics n_states tr_duration_s total time_labels = Ok m ∧
       fo m = (λ i, Fin (inject_Z (count_label time_labels i) / inject_Z total))
                <$> seqZ 1 (Z.of_nat n_states).
Proof.
  intros Htot. unfold subject_dynamics.
  assert (Hne : time_labels ≠ []).
  { intros E. rewrite E in Htot. simpl in Htot. lia. }
  rewrite blocks_states by done. simpl mbind.
  destruct (mapM_total (dwell_appearance tr_duration_s total time_labels
              ((λ b, wrap64 (Spec.label b - 1)) <$> Spec.blocks time_labels))
              (seqZ 0 (Z.of_nat n_states))) as [dtar ->].
  { apply Forall_true. intros i. apply dwell_appearance_total. lia. }
  simpl. rewrite transition_counts_fold by lia. simpl.
  eexists. split; [reflexivity|]. simpl.
  unfold fractional_occupancy. apply list_fmap_ext. intros _ i _.
  apply int_true_divide_nonzero. lia.
Qed.

Lemma subject_dynamics_spec :
  time_labels ≠ [] →
  subject_dynamics n_states tr_duration_s (Z.of_nat (length time_labels)) time_labels
  = Ok (Spec.metrics n_states tr_duration_s time_labels).
Proof.
  intros Hne. unfold subject_dynamics.
  assert (Hlen : (Z.of_nat (length time_labels)) ≠ 0).
  { destruct time_labels; [done|simpl; lia]. }
  rewrite blocks_states by done. simpl mbind.
  rewrite (mapM_Ok_fmap_ext _
             (λ i, (Spec.dwell_time tr_duration_s time_labels (i + 1),
                    Spec.appearance_rate tr_duration_s time_labels (i + 1)))).
  2:{ apply Forall_seqZ. intros i Hi.
      apply (dwell_appearance_spec tr_duration_s time_labels n_states i);
        try done; try lia.
      by apply scan_length_nonzero. }
  simpl. rewrite transition_counts_spec by done. simpl.
  unfold Spec.metrics. f_equal. f_equal.
  - unfold fractional_occupancy. apply list_fmap_ext. intros _ i _.
    by apply int_true_divide_nonzero.
  - rewrite <- (fmap_add_seqZ 1 0), <- !list_fmap_compose.
    apply list_fmap_ext. intros _ i _. simpl. f_equal. lia.
  - rewrite <- (fmap_add_seqZ 1 0), <- !list_fmap_compose.
    apply list_fmap_ext. intros _ i _. simpl. f_equal. lia.
  - apply row_normalize_spec.
  - by rewrite fill_diagonal_spec, row_normalize_spec.
Qed.
End Refinement.

(** ** Blocks of a label, and a scan of zero duration *)

Lemma blocks_from_head pos l b more :
  Spec.blocks_from pos l = b :: more → Spec.start b = pos.
Proof.
  destruct l as [|x rest]; [done|]. simpl.
  destruct (Spec.blocks_from (pos + 1) rest) as [|b' more'].
  - by intros [= <- _].
  - case_decide; by intros [= <- _].
Qed.

Lemma blocks_from_nil pos l : Spec.blocks_from pos l = [] → l = [].
Proof.
  destruct l as [|x rest]; [done|]. simpl.
  destruct (Spec.blocks_from (pos + 1) rest) as [|b' more']; [done|].
  by case_decide.
Qed.

(** The blocks labeled [i] cover exactly the timepoints labeled [i]. *)
Lemma blocks_from_count pos l i :
  sumZ ((λ b, Spec.stop b - Spec.start b)
          <$> filter (λ b, Spec.label b = i) (Spec.blocks_from pos l))
  = Z.of_nat (length (filter (λ x, x = i) l)).
Proof.
  revert pos. induction l as [|x rest IH]; intros pos; [done|].
  specialize (IH (pos + 1)). simpl Spec.blocks_from.
  destruct (Spec.blocks_from (pos + 1) rest) as [|b more] eqn:E.
  - apply blocks_from_nil in E as ->. rewrite !filter_cons.
    simpl Spec.label. case_decide; [|done].
    rewrite fmap_cons, sumZ_cons. simpl. lia.
  - apply blocks_from_head in E as Hb.
    rewrite (filter_cons _ x rest).
    destruct (decide (Spec.label b = x)) as [Hbx|Hbx].
    + rewrite filter_cons. rewrite filter_cons in IH. simpl Spec.label.
      destruct (decide (x = i)) as [Hx|Hx].
      * rewrite decide_True in IH by congruence.
        rewrite fmap_cons, sumZ_cons in IH |- *. simpl in *. lia.
      * rewrite decide_False in IH by congruence. done.
    + rewrite (filter_cons _ {| Spec.label := x |}). simpl Spec.label.
      destruct (decide (x = i)) as [Hx|Hx]; [|done].
      rewrite fmap_cons, sumZ_cons. simpl in *. lia.
Qed.

Lemma mapM_Raise_only {A B} (f : A → result B) (l : list A) e :
  Forall (λ x, f x = Raise e ∨ ∃ y, f x = Ok y) l →
  Exists (λ x, f x = Raise e) l →
  mapM f l = Raise e.
Proof.
  induction 1 as [|x l Hx Hl IH]; intros Hex; [by inversion Hex|].
  simpl. destruct Hx as [->|[y Hy]]; [done|].
  rewrite Hy. simpl. rewrite IH; [done|].
  inversion Hex as [?? Hx|]; subst; [congruence|done].
Qed.

Lemma py_truediv_zero a b :
  (b == 0)%Q → py_truediv a b = Raise ZeroDivisionError.
Proof.
  intros Hb. unfold py_truediv.
  by rewrite (proj2 (Qeq_bool_iff b 0) Hb).
Qed.

Lemma blocks_of_label labels l :
  l ∈ labels → ∃ b, b ∈ Spec.blocks labels ∧ Spec.label b = l.
Proof.
  intros Hl.
  pose proof (blocks_from_count 0 labels l) as Hc.
  destruct (filter (λ b, Spec.label b = l) (Spec.blocks_from 0 labels))
    as [|b bs] eqn:E.
  - simpl in Hc.
    assert (Hin : l ∈ filter (λ x, x = l) labels)
      by (by apply list_elem_of_filter).
    destruct (filter (λ x, x = l) labels); [by apply elem_of_nil in Hin|].
    simpl in Hc. lia.
  - assert (Hb : b ∈ filter (λ b, Spec.label b = l) (Spec.blocks_from 0 labels))
      by (rewrite E; left).
    apply list_elem_of_filter in Hb as [Hb1 Hb2]. by exists b.
Qed.

(** With a scan of zero minutes, the Appearance Rate of a state that
    occurs in the sequence is a division by zero (line 58). *)
Lemma subject_dynamics_zero_scan n tr total labels l :
  Forall int64 labels → Z.of_nat (length labels) < 2 ^ 63 →
  Z.of_nat n < 2 ^ 63 →
  (scan_length_min tr total == 0)%Q →
  l ∈ labels → 1 ≤ l ≤ Z.of_nat n →
  subject_dynamics n tr total labels = Raise ZeroDivisionError.
Proof.
  intros H64 Hlen Hn Hscan Hl Hrange.
  assert (Hne : labels ≠ []) by (intros ->; by apply elem_of_nil in Hl).
  unfold subject_dynamics. rewrite blocks_states by done.
  change (Ok ?x ≫= ?f) with (f x). cbv beta.
  rewrite (mapM_Raise_only _ _ ZeroDivisionError); [done| |].
  - apply Forall_forall. intros i _. unfold dwell_appearance.
    case_decide; [left|right; eauto].
    by rewrite py_truediv_zero.
  - apply Exists_exists. exists (l - 1). split.
    { apply elem_of_seqZ. lia. }
    unfold dwell_appearance. rewrite decide_True.
    { by rewrite py_truediv_zero. }
    destruct (blocks_of_label labels l Hl) as (b & Hb & Hbl).
    apply list_elem_of_lookup_1 in Hb as [k Hk].
    unfold state_block_lengths. rewrite length_fmap.
    assert (Hlens : length (block_lengths total labels)
                    = length (Spec.blocks labels)).
    { unfold block_lengths, block_ends.
      rewrite length_zip_with, length_app, blocks_starts by done.
      rewrite length_fmap.
      change (change_points labels) with (cps_from 0 labels).
      destruct (blocks_from_change_points labels 0 Hne H64) as (Hst & _);
        [lia|lia|].
      apply (f_equal length) in Hst. rewrite length_fmap in Hst.
      simpl in *. unfold Spec.blocks. lia. }
    destruct (lookup_lt_is_Some_2 (block_lengths total labels) k) as [len Hlk].
    { rewrite Hlens. by eapply lookup_lt_Some. }
    assert (Hin : (len, l - 1)
                  ∈ filter (λ p, p.2 = l - 1)
                      (zip (block_lengths total labels)
                           ((λ b, wrap64 (Spec.label b - 1))
                              <$> Spec.blocks labels))).
    { apply list_elem_of_filter. split; [done|].
      apply (list_elem_of_lookup_2 _ k). apply lookup_zip_with_Some.
      exists len, (l - 1). split; [done|]. split; [done|].
      rewrite list_lookup_fmap, Hk. simpl. f_equal. rewrite Hbl.
      apply wrap64_small. unfold int64. lia. }
    destruct (filter _ _); [by apply elem_of_nil in Hin|simpl; lia].
Qed.

(** ** Scenarios, witnesses and counterexamples *)

(** C7 (amended).  For the label sequence [1,1,1,2,2,1] with K=2 states,
    sampling interval 1 second and 6 timepoints: Fractional Occupancy is
    [4/6, 2/6]; the block decomposition yields the maximal runs [0,3) of
    state 1, [3,5) of state 2 and [5,6) of state 1; Dwell Time is 2
    seconds for state 1 (mean of block lengths 3 and 1) and 2 seconds for
    state 2 (one block of length 2); Appearance Rate divides the block
    counts 2 and 1 by a scan length of 6/60 minutes. *)
Theorem scenario_1_metrics_correct :
  subject_dynamics 2 1 6 scenario_1 = Ok scenario_1_metrics ∧
  Forall2 (λ x q, ∃ p, x = Fin p ∧ (p == q)%Q) (fo scenario_1_metrics)
          [(4 / 6)%Q; (2 / 6)%Q] ∧
  (block_starts scenario_1 = [0; 3; 5] ∧
   block_ends 6 scenario_1 = [3; 5; 6] ∧
   block_states scenario_1 = Ok [0; 1; 0] ∧
   Spec.blocks scenario_1
   = [ {| Spec.label := 1; Spec.start := 0; Spec.stop := 3 |};
       {| Spec.label := 2; Spec.start := 3; Spec.stop := 5 |};
       {| Spec.label := 1; Spec.start := 5; Spec.stop := 6 |} ]) ∧
  (state_block_lengths 6 scenario_1 [0; 1; 0] 0 = [3; 1] ∧
   state_block_lengths 6 scenario_1 [0; 1; 0] 1 = [2] ∧
   Forall2 Qeq (dt scenario_1_metrics) [2%Q; 2%Q]) ∧
  ((scan_length_min 1 6 == 6 / 60)%Q ∧
   Forall2 Qeq (ar scenario_1_metrics) [(2 / (6 / 60))%Q; (1 / (6 / 60))%Q]).
Proof.
  split; [reflexivity|]. split.
  { constructor; [by eexists|].
    constructor; [by eexists|]. constructor. }
  split; [repeat split; reflexivity|]. split.
  { split; [reflexivity|]. split; [reflexivity|].
    constructor; [reflexivity|].
    constructor; [reflexivity|]. constructor. }
  split; [reflexivity|].
  constructor; [reflexivity|].
  constructor; [reflexivity|]. constructor.
Qed.

(** C7, counterexample.  The Dwell Time of state 2 in Scenario 1 is 2
    seconds, not 1: its only block is [3,5). *)
Lemma scenario_1_dwell_time_state_2 :
  ∃ m d, subject_dynamics 2 1 6 scenario_1 = Ok m ∧
         state_block_lengths 6 scenario_1 [0; 1; 0] 1 = [2] ∧
         dt m !! 1%nat = Some d ∧ (d == 2)%Q ∧ ¬ (d == 1)%Q.
Proof.
  exists scenario_1_metrics, (2 # 1)%Q.
  split; [reflexivity|]. split; [reflexivity|]. split; [reflexivity|].
  split; [reflexivity|]. discriminate.
Qed.

(** C10 (amended).  For an [int64] label sequence and a nonzero sampling
    interval: when the sequence is shorter than [total_timepoints] the
    subject raises [IndexError] (in the transition-count loop as soon as
    [total_timepoints >= 2]) and so the group raises; when
    [total_timepoints] is positive and the sequence is at least as long,
    the subject is processed, with [total_timepoints] as the occupancy
    denominator and as the final block end; when [total_timepoints] is
    positive and equal to the length, all metrics are as specified; and
    when [total_timepoints] is 0 and some label lies in [1, n_states], the
    Appearance Rate division raises [ZeroDivisionError] and so the group
    raises. *)
Theorem dynamics_length_precondition n tr total labels :
  Forall int64 labels → Z.of_nat (length labels) < 2 ^ 63 →
  Z.of_nat n < 2 ^ 63 → ¬ (tr == 0)%Q →
  (Z.of_nat (length labels) < total →
     subject_dynamics n tr total labels = Raise IndexError ∧
     (2 ≤ total → transition_counts n total labels = Raise IndexError) ∧
     (∀ files subject_list,
        labels ∈ loaded_labels files subject_list →
        ∃ e, calculate_dynamics_for_group files subject_list n tr total
             = Raise e)) ∧
  (0 < total ≤ Z.of_nat (length labels) →
     ∃ m, subject_dynamics n tr total labels = Ok m ∧
          fo m = (λ i, Fin (inject_Z (count_label labels i) / inject_Z total))
                   <$> seqZ 1 (Z.of_nat n) ∧
          last (block_ends total labels) = Some total) ∧
  (0 < total → total = Z.of_nat (length labels) →
     subject_dynamics n tr total labels = Ok (Spec.metrics n tr labels)) ∧
  (total = 0 → (∃ l, l ∈ labels ∧ 1 ≤ l ≤ Z.of_nat n) →
     subject_dynamics n tr total labels = Raise ZeroDivisionError ∧
     (∀ files subject_list,
        labels ∈ loaded_labels files subject_list →
        ∃ e, calculate_dynamics_for_group files subject_list n tr total
             = Raise e)).
Proof.
  intros H64 Hlen Hn Htr. split; [|split; [|split]].
  - intros Hshort.
    assert (Hraise := subject_dynamics_short n tr labels H64 Hlen Htr total Hshort).
    split; [done|]. split; [by apply transition_counts_short|].
    intros files subject_list Hin.
    destruct (mapM_Raise (subject_dynamics n tr total) _ _ _ Hin Hraise) as [e He].
    exists e. unfold calculate_dynamics_for_group. by rewrite He.
  - intros Htot.
    destruct (subject_dynamics_total n tr labels H64 Hlen Htr total Htot)
      as (m & Hm & Hfo).
    exists m. split; [done|]. split; [done|].
    unfold block_ends. apply last_snoc.
  - intros Hpos ->. apply subject_dynamics_spec; try done.
    intros ->. simpl in Hpos. lia.
  - intros -> (l & Hl & Hrange).
    assert (Hraise : subject_dynamics n tr 0 labels = Raise ZeroDivisionError).
    { by apply (subject_dynamics_zero_scan n tr 0 labels l). }
    split; [done|]. intros files subject_list Hin.
    destruct (mapM_Raise (subject_dynamics n tr 0) _ _ _ Hin Hraise) as [e He].
    exists e. unfold calculate_dynamics_for_group. by rewrite He.
Qed.

(** C10, witness: Scenario 1 with [total_timepoints] 7, 5, 6 and 0. *)
Lemma dynamics_length_precondition_witness :
  (Forall int64 scenario_1 ∧ Z.of_nat (length scenario_1) < 2 ^ 63 ∧
   Z.of_nat 2 < 2 ^ 63 ∧ ¬ (1 == 0)%Q) ∧
  subject_dynamics 2 1 7 scenario_1 = Raise IndexError ∧
  (∃ m, subject_dynamics 2 1 5 scenario_1 = Ok m ∧
        fo m = (λ i, Fin (inject_Z (count_label scenario_1 i) / inject_Z 5))
                 <$> seqZ 1 (Z.of_nat 2) ∧
        last (block_ends 5 scenario_1) = Some 5) ∧
  subject_dynamics 2 1 6 scenario_1 = Ok (Spec.metrics 2 1 scenario_1) ∧
  subject_dynamics 2 1 0 scenario_1 = Raise ZeroDivisionError.
Proof.
  assert (H1 : Forall int64 scenario_1).
  { repeat (constructor; [unfold int64; lia|]). constructor. }
  assert (H2 : Z.of_nat (length scenario_1) < 2 ^ 63) by (simpl; lia).
  assert (H3 : Z.of_nat 2 < 2 ^ 63) by lia.
  assert (H4 : ¬ (1 == 0)%Q) by discriminate.
  split; [done|]. split; [|split; [|split]].
  - apply (dynamics_length_precondition 2 1 7 scenario_1 H1 H2 H3 H4).
    simpl. lia.
  - apply (dynamics_length_precondition 2 1 5 scenario_1 H1 H2 H3 H4).
    simpl. lia.
  - apply (dynamics_length_precondition 2 1 6 scenario_1 H1 H2 H3 H4).
    + lia.
    + reflexivity.
  - apply (dynamics_length_precondition 2 1 0 scenario_1 H1 H2 H3 H4).
    + reflexivity.
    + exists 1. split; [by left|lia].
Defined.

(** C10, counterexample.  A sequence of length 3 with [total_timepoints]
    2 is processed without error, so the function is total without the
    lengths agreeing; its occupancy 3/2 is not as specified. *)
Lemma longer_sequence_is_processed :
  ∃ m, subject_dynamics 1 1 2 three_ones = Ok m ∧
       Z.of_nat (length three_ones) ≠ 2 ∧
       fo m = [Fin (3 # 2)] ∧
       m ≠ Spec.metrics 1 1 three_ones.
Proof.
  eexists. split; [reflexivity|]. split; [done|]. split; [reflexivity|].
  discriminate.
Qed.

(** C2, witness: Scenario 1. *)
Lemma fractional_occupancy_sum_witness :
  subject_dynamics 2 1 6 scenario_1 = Ok scenario_1_metrics ∧
  Z.of_nat (length scenario_1) = 6 ∧
  let T := inject_Z (Z.of_nat (length scenario_1)) in
  fo scenario_1_metrics
  = (λ i, Fin (inject_Z (count_label scenario_1 i) / T)) <$> seqZ 1 (Z.of_nat 2) ∧
  ∃ s, fsum (fo scenario_1_metrics) = Fin s ∧
       (s == 1 - inject_Z (outside_count 2 scenario_1) / T)%Q ∧
       (Forall (λ l, 1 ≤ l ≤ Z.of_nat 2) scenario_1 → (s == 1)%Q).
Proof.
  split; [reflexivity|]. split; [reflexivity|].
  apply (fractional_occupancy_sum 2 1 6 scenario_1 scenario_1_metrics);
    reflexivity.
Defined.

(** C2, counterexample.  The sequence [1,1,1] with [total_timepoints] 2
    is processed; the occupancy of state 1 is 3/2, not 3/3, and the
    occupancies of this clean sequence sum to 3/2, not 1. *)
Lemma fractional_occupancy_longer_sequence :
  ∃ m s, subject_dynamics 1 1 2 three_ones = Ok m ∧
         fo m = [Fin s] ∧
         ¬ (s == inject_Z (count_label three_ones 1)
                 / inject_Z (Z.of_nat (length three_ones)))%Q ∧
         Forall (λ l, 1 ≤ l ≤ Z.of_nat 1) three_ones ∧
         fsum (fo m) = Fin s ∧ ¬ (s == 1)%Q.
Proof.
  eexists _, (3 # 2)%Q. split; [reflexivity|]. split; [reflexivity|].
  split; [discriminate|]. split.
  { repeat (constructor; [lia|]). constructor. }
  split; [reflexivity|discriminate].
Qed.

(** C3, witness: Scenario 1. *)
Lemma transition_probability_rows_witness :
  subject_dynamics 2 1 6 scenario_1 = Ok scenario_1_metrics ∧
  ∃ tp_matrix,
    transition_counts 2 6 scenario_1 = Ok tp_matrix ∧
    Forall2 row_stochastic_or_zero tp_matrix (tp2d scenario_1_metrics) ∧
    Forall2 row_stochastic_or_zero (fill_diagonal_0 tp_matrix)
            (tp2d_nopersist scenario_1_metrics) ∧
    Forall (λ row, (sumQ row == 1)%Q ∨ Forall (λ p, p = 0%Q) row)
           (tp2d scenario_1_metrics ++ tp2d_nopersist scenario_1_metrics).
Proof.
  split; [reflexivity|].
  apply (transition_probability_rows 2 1 6 scenario_1 scenario_1_metrics).
  reflexivity.
Defined.

(** C8, witness: Scenario 1, state 2. *)
Lemma self_exclusive_diagonal_zero_witness :
  subject_dynamics 2 1 6 scenario_1 = Ok scenario_1_metrics ∧ (1 < 2)%nat ∧
  ∃ row q, tp2d_nopersist scenario_1_metrics !! 1%nat = Some row ∧
           row !! 1%nat = Some q ∧ (q == 0)%Q.
Proof.
  split; [reflexivity|]. split; [lia|].
  apply (self_exclusive_diagonal_zero 2 1 6 scenario_1 scenario_1_metrics 1);
    [reflexivity|lia].
Defined.

(** C6, witness: state 2 of 3 in the sequence [1,1,3]. *)
Lemma absent_state_metrics_zero_witness :
  ∃ m, subject_dynamics 3 1 3 no_state_2 = Ok m ∧
       count_label no_state_2 (Z.of_nat 1 + 1) = 0 ∧
       dt m !! 1%nat = Some 0%Q ∧
       ar m !! 1%nat = Some 0%Q ∧
       tp2d m !! 1%nat = Some (replicate 3 0%Q) ∧
       tp2d_nopersist m !! 1%nat = Some (replicate 3 0%Q) ∧
       ∃ states, block_states no_state_2 = Ok states ∧
                 dwell_appearance 1 3 no_state_2 states (Z.of_nat 1)
                 = Ok (0%Q, 0%Q).
Proof.
  eexists. split; [reflexivity|]. split; [reflexivity|].
  apply (absent_state_metrics_zero 3 1 3 no_state_2 _ 1).
  - reflexivity.
  - repeat (constructor; [unfold int64; lia|]). constructor.
  - lia.
  - lia.
  - reflexivity.
Defined.

(** C4, witness: an atlas of nine regions; region 5 of network 7 is
    bound to network 6, and region 3 of the Limbic network has no entry. *)
Lemma limbic_exclusion_witness :
  ∃ cfg, NoLIM.configure atlas_9 = Ok cfg ∧
    NoLIM.cfg_limbic_id cfg = 5 ∧
    NoLIM.cfg_atlas_order cfg
    = [(1, Some 1); (2, Some 3); (4, Some 2); (5, Some 6); (6, Some 5);
       (7, Some 4); (9, Some 1)] ∧
    NoLIM.cfg_roi2id cfg !! 5 = Some (Some 6) ∧
    NoLIM.cfg_roi2id cfg !! 3 = None ∧
    NoLIM.cfg_nlabels cfg = 7.
Proof.
  destruct (limbic_exclusion atlas_9)
    as (cfg & Hcfg & Hid & Hatlas & _ & _ & _ & _ & Hkeys & Hval & _ & Hn & _).
  - intros k. unfold atlas_9. simpl. set_unfold. lia.
  - exists cfg. split; [done|]. split; [done|].
    split; [rewrite Hatlas; reflexivity|].
    split; [|split; [|done]].
    + apply (Hval 5 7).
      * unfold atlas_9. set_unfold. tauto.
      * lia.
      * intros old' Hin _. unfold atlas_9 in Hin. set_unfold.
        naive_solver.
    + apply eq_None_not_Some. intros (old & Hin & Hne)%Hkeys.
      unfold atlas_9 in Hin. set_unfold.
      naive_solver.
Defined.

(** C5, witness: two subjects with a label file and one without. *)
Lemma thr_0_alignment_witness :
  ∃ mdd hc,
    process_condition thr_0 demo_files demo_list demo_files demo_list
    = Ok (mdd, hc) ∧
    nota_removed demo_files demo_list mdd ∧ nota_removed demo_files demo_list hc.
Proof.
  assert (E : process_condition thr_0 demo_files demo_list demo_files demo_list
              = demo_thr_0) by (vm_compute; reflexivity).
  unfold demo_thr_0 in E.
  eexists _, _. split; [exact E|].
  exact (thr_0_alignment demo_files demo_list demo_files demo_list _ _ E).
Defined.

(** * Further properties of the code *)

(** ** [tr_net_labels] and the labelling loop *)

Lemma argmax_loop_bound mp max_ind i ip :
  (max_ind < i)%nat →
  (argmax_loop mp max_ind i ip < i + length ip)%nat.
Proof.
  revert mp max_ind i. induction ip as [|x rest IH]; intros mp max_ind i Hlt.
  - simpl. lia.
  - simpl. destruct (fle x mp); simpl.
    + specialize (IH mp max_ind (S i)). lia.
    + destruct (isnan x); [lia|]. specialize (IH x i (S i)). lia.
Qed.

Lemma np_argmax_bound a idx : np_argmax a = Ok idx → (idx < length a)%nat.
Proof.
  destruct a as [|x rest]; [done|]. simpl.
  destruct (isnan x); intros [= <-]; [lia|].
  pose proof (argmax_loop_bound x 0 1 rest). lia.
Qed.

Lemma np_argmax_total a : a ≠ [] → ∃ idx, np_argmax a = Ok idx.
Proof. destruct a as [|x rest]; [done|]. simpl. destruct (isnan x); eauto. Qed.

Lemma tr_net_labels_in_range df nlabels thr :
  2 ≤ nlabels →
  ∃ l, tr_net_labels df nlabels thr = Ok l ∧ 1 ≤ l ≤ nlabels.
Proof.
  intros Hn. unfold tr_net_labels.
  destruct (np_argmax_total (net_means df nlabels)) as [idx Hidx].
  { intros E. apply (f_equal length) in E. rewrite net_means_length in E.
    simpl in E. lia. }
  rewrite Hidx. simpl.
  destruct (lookup_lt_is_Some_2 (net_means df nlabels) idx) as [m Hm].
  { by apply np_argmax_bound. }
  rewrite Hm. destruct (net_means_lookup _ _ _ _ Hm) as [Hlt _].
  destruct (fle thr m); eexists; (split; [reflexivity|]); lia.
Qed.

(** X1.  With at least one non-reject network ([nlabels >= 2]),
    [tr_net_labels] returns for every dataframe and threshold, NaN means
    included, and what it returns is either the reject identifier
    [nlabels] or a network identifier in [1, nlabels - 1] whose mean
    activity reaches the threshold. *)
Theorem tr_net_labels_range df nlabels thr :
  2 ≤ nlabels →
  ∃ l, tr_net_labels df nlabels thr = Ok l ∧
       (l = nlabels ∨
        (1 ≤ l < nlabels ∧
         fle thr (series_mean (network_values df l)) = true)).
Proof.
  intros Hn. unfold tr_net_labels.
  destruct (np_argmax_total (net_means df nlabels)) as [idx Hidx].
  { intros E. apply (f_equal length) in E. rewrite net_means_length in E.
    simpl in E. lia. }
  rewrite Hidx. simpl.
  destruct (lookup_lt_is_Some_2 (net_means df nlabels) idx) as [m Hm].
  { by apply np_argmax_bound. }
  rewrite Hm. destruct (net_means_lookup _ _ _ _ Hm) as [Hlt ->].
  destruct (fle thr _) eqn:E; eexists; (split; [reflexivity|]); [|by left].
  right. split; [lia|done].
Qed.

(** X1, witness: two networks, three labels. *)
Lemma tr_net_labels_range_witness :
  2 ≤ 3 ∧
  ∃ l, tr_net_labels df_two 3 (Fin 0) = Ok l ∧
       (l = 3 ∨
        (1 ≤ l < 3 ∧
         fle (Fin 0) (series_mean (network_values df_two l)) = true)).
Proof. split; [lia|]. apply (tr_net_labels_range df_two 3 (Fin 0)). lia. Defined.

(** X2.  With no non-reject network ([nlabels <= 1]) the list of network
    means is empty and [np.argmax] raises [ValueError], whatever the
    dataframe and the threshold. *)
Theorem tr_net_labels_no_network df nlabels thr :
  nlabels ≤ 1 → tr_net_labels df nlabels thr = Raise ValueError.
Proof.
  intros Hn. unfold tr_net_labels, net_means. by rewrite seqZ_nil by lia.
Qed.

(** X2, witness: one label. *)
Lemma tr_net_labels_no_network_witness :
  1 ≤ 1 ∧ tr_net_labels df_two 1 (Fin 0) = Raise ValueError.
Proof. split; [lia|]. apply (tr_net_labels_no_network df_two 1 (Fin 0)). lia. Defined.

Lemma argmax_loop_nan mp max_ind i ip :
  isnan mp = false → Exists (λ x, isnan x = true) ip →
  ∃ k x, argmax_loop mp max_ind i ip = (i + k)%nat ∧
         ip !! k = Some x ∧ isnan x = true.
Proof.
  revert mp max_ind i. induction ip as [|y rest IH]; intros mp max_ind i Hmp Hex.
  - by apply Exists_nil in Hex.
  - simpl. destruct (fle y mp) eqn:Hle; simpl.
    + assert (Hy : isnan y = false) by (by destruct y, mp).
      apply Exists_cons in Hex as [Hex|Hex]; [congruence|].
      destruct (IH mp max_ind (S i) Hmp Hex) as (k & x & -> & Hk & Hx).
      exists (S k), x. split; [lia|done].
    + destruct (isnan y) eqn:Hy.
      * exists 0%nat, y. split; [lia|done].
      * apply Exists_cons in Hex as [Hex|Hex]; [congruence|].
        destruct (IH y i (S i) Hy Hex) as (k & x & -> & Hk & Hx).
        exists (S k), x. split; [lia|done].
Qed.

Lemma np_argmax_nan a :
  Exists (λ x, isnan x = true) a →
  ∃ idx x, np_argmax a = Ok idx ∧ a !! idx = Some x ∧ isnan x = true.
Proof.
  destruct a as [|y rest]; [intros H; by apply Exists_nil in H|]. intros Hex.
  simpl. destruct (isnan y) eqn:Hy.
  - by exists 0%nat, y.
  - apply Exists_cons in Hex as [Hex|Hex]; [congruence|].
    destruct (argmax_loop_nan y 0 1 rest Hy Hex) as (k & x & -> & Hk & Hx).
    by exists (S k), x.
Qed.

(** X3.  As soon as one network mean is NaN (a network without a
    non-NaN value at that timepoint), [tr_net_labels] returns the reject
    identifier, for every threshold, infinite and NaN thresholds
    included. *)
Theorem tr_net_labels_nan_mean df nlabels thr :
  Exists (λ m, isnan m = true) (net_means df nlabels) →
  tr_net_labels df nlabels thr = Ok nlabels.
Proof.
  intros Hex. unfold tr_net_labels.
  destruct (np_argmax_nan _ Hex) as (idx & x & -> & Hx & Hnan). simpl.
  rewrite Hx. by destruct x, thr.
Qed.

(** X3, witness: a timepoint with a region of network 1 only. *)
Lemma tr_net_labels_nan_mean_witness :
  Exists (λ m, isnan m = true) (net_means df_one 3) ∧
  tr_net_labels df_one 3 (Fin 0) = Ok 3.
Proof.
  assert (H : Exists (λ m, isnan m = true) (net_means df_one 3)).
  { apply Exists_cons_tl, Exists_cons_hd. reflexivity. }
  split; [exact H|]. apply (tr_net_labels_nan_mean df_one 3 (Fin 0) H).
Defined.

(** X4.  Lowering the threshold never changes a label that was not the
    reject one: a timepoint labelled with network [l] at threshold [thr']
    keeps the label [l] at every threshold [thr <= thr']. *)
Theorem tr_net_labels_lower_threshold df nlabels thr thr' l :
  tr_net_labels df nlabels thr' = Ok l → l ≠ nlabels →
  fle thr thr' = true →
  tr_net_labels df nlabels thr = Ok l.
Proof.
  unfold tr_net_labels. intros H Hl Hthr.
  destruct (np_argmax _) as [idx|]; simpl in *; [|done].
  destruct (net_means df nlabels !! idx) as [m|]; [|done].
  destruct (fle thr' m) eqn:E; [|congruence].
  by rewrite (fle_trans _ _ _ Hthr E).
Qed.

(** X4, witness: thresholds 1 and 0 on two networks. *)
Lemma tr_net_labels_lower_threshold_witness :
  tr_net_labels df_two 3 (Fin 1) = Ok 1 ∧ 1 ≠ 3 ∧
  fle (Fin 0) (Fin 1) = true ∧
  tr_net_labels df_two 3 (Fin 0) = Ok 1.
Proof.
  split; [reflexivity|]. split; [lia|]. split; [reflexivity|].
  apply (tr_net_labels_lower_threshold df_two 3 (Fin 0) (Fin 1) 1);
    [reflexivity|lia|reflexivity].
Defined.

Lemma label_timepoints_in_range column_network nlabels thr ttss :
  2 ≤ nlabels →
  ∃ labels,
    label_timepoints column_network nlabels thr ttss = Ok labels ∧
    length labels = length ttss ∧
    Forall (λ l, 1 ≤ l ≤ nlabels) labels.
Proof.
  intros Hn. unfold label_timepoints.
  destruct (mapM_total
              (λ activity, tr_net_labels (timepoint_df column_network activity)
                             nlabels thr) ttss) as [labels Hl].
  { apply Forall_true. intros activity.
    destruct (tr_net_labels_in_range (timepoint_df column_network activity)
                nlabels thr Hn) as (l & Hl & _). eauto. }
  exists labels. split; [done|]. apply mapM_Ok_inv in Hl.
  split; [symmetry; by eapply Forall2_length|].
  eapply Forall2_Forall_r; [exact Hl|]. apply Forall_true.
  intros activity l Hres.
  destruct (tr_net_labels_in_range (timepoint_df column_network activity)
              nlabels thr Hn) as (l' & Hl' & Hr).
  rewrite Hres in Hl'. by injection Hl' as <-.
Qed.

(** X5.  The labelling loop gives every timepoint of [ttss] exactly one
    label, and each label lies in [1, nlabels]; it never raises when
    there is at least one non-reject network. *)
Theorem label_timepoints_range column_network nlabels thr ttss :
  2 ≤ nlabels →
  ∃ labels,
    label_timepoints column_network nlabels thr ttss = Ok labels ∧
    length labels = length ttss ∧
    Forall (λ l, 1 ≤ l ≤ nlabels) labels.
Proof.
  intros Hn. unfold label_timepoints.
  destruct (mapM_total
              (λ activity, tr_net_labels (timepoint_df column_network activity)
                             nlabels thr) ttss) as [labels Hl].
  { apply Forall_true. intros activity.
    destruct (tr_net_labels_in_range (timepoint_df column_network activity)
                nlabels thr Hn) as (l & Hl & _). eauto. }
  exists labels. split; [done|]. apply mapM_Ok_inv in Hl.
  split; [symmetry; by eapply Forall2_length|].
  eapply Forall2_Forall_r; [exact Hl|]. apply Forall_true.
  intros activity l Hres.
  destruct (tr_net_labels_in_range (timepoint_df column_network activity)
              nlabels thr Hn) as (l' & Hl' & Hr).
  rewrite Hres in Hl'. by injection Hl' as <-.
Qed.

(** X5, witness: two timepoints. *)
Lemma label_timepoints_range_witness :
  2 ≤ 3 ∧
  ∃ labels,
    label_timepoints [Some 1; Some 2] 3 (Fin 0)
      [[Fin 1; Fin 2]; [Fin (-1); Fin (-2)]] = Ok labels ∧
    length labels = 2%nat ∧
    Forall (λ l, 1 ≤ l ≤ 3) labels.
Proof.
  split; [lia|].
  apply (label_timepoints_range [Some 1; Some 2] 3 (Fin 0)
           [[Fin 1; Fin 2]; [Fin (-1); Fin (-2)]]).
  lia.
Defined.

(** ** The State-Map Aggregator *)

Lemma masked_rows_Forall (P : list fval → Prop) mask ttss :
  Forall P ttss → Forall P (masked_rows mask ttss).
Proof.
  intros H. unfold masked_rows. apply Forall_fmap.
  revert mask. induction H as [|row ttss Hrow _ IH]; intros [|b mask];
    try apply Forall_nil_2.
  simpl zip. rewrite filter_cons. case_decide; [|apply IH].
  apply Forall_cons. split; [done|apply IH].
Qed.

Lemma length_state_mean n_rois_curr ttss mask :
  Forall (λ row, length row = n_rois_curr) ttss →
  length (state_mean n_rois_curr ttss mask) = n_rois_curr.
Proof.
  intros H. unfold state_mean. case_decide; [|apply length_replicate].
  unfold column_means. rewrite length_fmap. apply length_transpose.
  by apply masked_rows_Forall.
Qed.

Lemma mapM_imap_Ok_at {A B} (h : nat → nat) (f : nat → A → result B)
    (g : nat → A → B) (l : list A) :
  (∀ i x, l !! i = Some x → f (h i) x = Ok (g (h i) x)) →
  mapM (λ p, f p.1 p.2) (imap (λ i x, (h i, x)) l)
  = Ok (imap (λ i, g (h i)) l).
Proof.
  revert h. induction l as [|x l IH]; intros h H; [done|].
  rewrite !imap_cons. apply mapM_Ok_cons.
  - apply (H 0%nat x). done.
  - apply (IH (h ∘ S)). intros i y Hy. by apply (H (S i)).
Qed.

Lemma mapM_imap_Ok {A B} (f : nat → A → result B) (g : nat → A → B)
    (l : list A) :
  (∀ i x, l !! i = Some x → f i x = Ok (g i x)) →
  mapM (λ p, f p.1 p.2) (imap (λ i x, (i, x)) l) = Ok (imap g l).
Proof. apply (mapM_imap_Ok_at id). Qed.


Lemma concat_imap_singleton {A B} (g : nat → A → B) (l : list A) :
  concat (imap (λ i x, [g i x]) l) = imap g l.
Proof.
  revert g. induction l as [|x l IH]; intros g; [done|].
  rewrite !imap_cons. simpl. f_equal. apply (IH (g ∘ S)).
Qed.

Section FullScript.
Variable atlas_order : list (Z * Z).
Variable subj_id : Z.
Variable n_rois_curr : nat.
Variable ttss : matrix fval.

(** [ttss] has shape [(n_timepoints, n_rois_curr)]. *)
Hypothesis ttss_shape : Forall (λ row, length row = n_rois_curr) ttss.

Lemma Full_time_labels_range :
  ∃ labels, Full.time_labels atlas_order n_rois_curr ttss = Ok labels ∧
            length labels = length ttss ∧
            Forall (λ l, 1 ≤ l ≤ 8) labels.
Proof.
  unfold Full.time_labels.
  destruct (label_timepoints_in_range
              (Full.column_network atlas_order n_rois_curr) Full.nlabels
              Full.ACTIVITY_THR ttss) as (labels & H); [done|].
  by exists labels.
Qed.

Lemma Full_subject_state_maps_eq labels :
  length atlas_order = n_rois_curr →
  Full.time_labels atlas_order n_rois_curr ttss = Ok labels →
  Full.subject_state_maps atlas_order subj_id n_rois_curr ttss
  = Ok (imap (λ i state,
                {| sm_subject := subj_id; sm_state := state;
                   sm_value := state_mean n_rois_curr ttss
                                 (state_mask labels i) |}) Full.LABELS).
Proof.
  intros Hlen Hl. unfold Full.subject_state_maps. rewrite Hl.
  change (Ok labels ≫= ?f) with (f labels). cbv beta.
  rewrite (mapM_imap_Ok
             (Full.state_map_of atlas_order subj_id n_rois_curr ttss labels)
             (λ i state,
                [ {| sm_subject := subj_id; sm_state := state;
                     sm_value := state_mean n_rois_curr ttss
                                   (state_mask labels i) |} ])).
  - change (Ok ?bs ≫= ?f) with (f bs). cbv beta. by f_equal.
  - intros i state _. unfold Full.state_map_of, make_tmp_df.
    rewrite decide_True; [done|].
    by rewrite length_state_mean.
Qed.

(** X6.  In [extract_brain_states.py], when the atlas has one row per
    column of [ttss], a subject contributes exactly one state map for
    each of the eight labels, in label order, reject state included;
    each map carries the subject's identifier and has one value per
    region. *)
Theorem Full_subject_state_maps_shape :
  length atlas_order = n_rois_curr →
  ∃ maps,
    Full.subject_state_maps atlas_order subj_id n_rois_curr ttss = Ok maps ∧
    sm_state <$> maps = Full.LABELS ∧
    Forall (λ sm, sm_subject sm = subj_id ∧
                  length (sm_value sm) = n_rois_curr) maps.
Proof.
  intros Hlen. destruct Full_time_labels_range as (labels & Hl & _).
  eexists. split; [by apply Full_subject_state_maps_eq|]. split.
  - reflexivity.
  - apply Forall_lookup. intros i sm Hsm.
    apply list_lookup_imap_Some in Hsm as (state & _ & ->). simpl.
    split; [done|]. by apply length_state_mean.
Qed.


(** X8.  In [extract_brain_states.py] a state that labels no timepoint
    of the subject gets an all-zero state map, stored at the position
    of that state. *)
Theorem Full_absent_state_zero_map (i : nat) state :
  length atlas_order = n_rois_curr →
  Full.LABELS !! i = Some state →
  ∃ labels maps,
    Full.time_labels atlas_order n_rois_curr ttss = Ok labels ∧
    Full.subject_state_maps atlas_order subj_id n_rois_curr ttss = Ok maps ∧
    (Z.of_nat i + 1 ∉ labels →
     maps !! i = Some {| sm_subject := subj_id; sm_state := state;
                         sm_value := replicate n_rois_curr (Fin 0) |}).
Proof.
  intros Hlen Hstate. destruct Full_time_labels_range as (labels & Hl & _).
  exists labels. eexists. split; [done|].
  split; [by apply Full_subject_state_maps_eq|].
  intros Habs. rewrite list_lookup_imap, Hstate. simpl.
  by rewrite state_mean_absent by (by apply mask_count_absent).
Qed.
End FullScript.

(** X6, witness: seven regions, two timepoints. *)
Lemma Full_subject_state_maps_shape_witness :
  ∃ maps,
    Full.subject_state_maps atlas_7 42 7 (nan_ttss 7) = Ok maps ∧
    sm_state <$> maps = Full.LABELS ∧
    Forall (λ sm, sm_subject sm = 42 ∧ length (sm_value sm) = 7%nat) maps.
Proof.
  apply (Full_subject_state_maps_shape atlas_7 42 7 (nan_ttss 7)).
  - repeat constructor.
  - reflexivity.
Defined.


(** X8, witness: the state Vis for a subject whose timepoints are all
    rejected. *)
Lemma Full_absent_state_zero_map_witness :
  ∃ labels maps,
    Full.time_labels atlas_7 7 (nan_ttss 7) = Ok labels ∧
    Full.subject_state_maps atlas_7 42 7 (nan_ttss 7) = Ok maps ∧
    (Z.of_nat 0 + 1 ∉ labels →
     maps !! 0%nat = Some {| sm_subject := 42; sm_state := "Vis";
                             sm_value := replicate 7 (Fin 0) |}).
Proof.
  refine (Full_absent_state_zero_map atlas_7 42 7 (nan_ttss 7) _ 0 "Vis" _ _).
  - repeat constructor.
  - reflexivity.
  - reflexivity.
Defined.

Lemma sublist_concat_imap {A B} (f : B → A) (g : nat → A → list B) (l : list A) :
  (∀ i x, l !! i = Some x → f <$> g i x `sublist_of` [x]) →
  f <$> concat (imap g l) `sublist_of` l.
Proof.
  revert g. induction l as [|x l IH]; intros g H; [done|].
  rewrite imap_cons. simpl concat. rewrite fmap_app.
  change (x :: l) with ([x] ++ l). apply sublist_app.
  - by apply (H 0%nat).
  - apply (IH (g ∘ S)). intros i y Hy. by apply (H (S i)).
Qed.

Lemma elem_of_concat_2 {A} (x : A) (l : list A) (ls : list (list A)) :
  x ∈ l → l ∈ ls → x ∈ concat ls.
Proof.
  intros Hx Hl. induction Hl as [l ls|l l' ls _ IH]; simpl;
    apply elem_of_app; auto.
Qed.

Lemma configure_inv atlas cfg :
  NoLIM.configure atlas = Ok cfg →
  NoLIM.cfg_atlas_order cfg = NoLIM.atlas_order atlas 5 ∧
  NoLIM.cfg_rois_to_keep_indices cfg = NoLIM.rois_to_keep_indices atlas 5 ∧
  NoLIM.cfg_labels cfg = NoLIM.labels ∧
  NoLIM.cfg_nlabels cfg = 7.
Proof.
  unfold NoLIM.configure. rewrite limbic_id_5.
  change (Ok 5 ≫= ?f) with (f 5). cbv beta. by intros [= <-].
Qed.

Lemma configure_region_count atlas cfg :
  NoLIM.configure atlas = Ok cfg →
  length (NoLIM.cfg_atlas_order cfg) = NoLIMSubject.curr_n_rois cfg.
Proof.
  intros (Ha & Hr & _)%configure_inv. unfold NoLIMSubject.curr_n_rois.
  rewrite Ha, Hr. unfold NoLIM.atlas_order, NoLIM.rois_to_keep_indices.
  by rewrite !length_fmap.
Qed.

Section NoLIMScript.
Variable original_atlas_order : list (Z * Z).
Variable cfg : NoLIM.config.
Variable subj_id : Z.
Variable ttss : matrix fval.

Hypothesis configured : NoLIM.configure original_atlas_order = Ok cfg.

(** [ttss] holds the columns of the kept regions. *)
Hypothesis NoLIM_ttss_shape :
  Forall (λ row, length row = NoLIMSubject.curr_n_rois cfg) ttss.

Lemma NoLIM_time_labels_range :
  ∃ labels, NoLIMSubject.time_labels cfg ttss = Ok labels ∧
            length labels = length ttss ∧
            Forall (λ l, 1 ≤ l ≤ 7) labels.
Proof.
  destruct (configure_inv _ _ configured) as (_ & _ & _ & Hn).
  unfold NoLIMSubject.time_labels. rewrite Hn.
  destruct (label_timepoints_in_range
              (NoLIMSubject.column_network cfg) 7
              NoLIMSubject.activity_thr ttss) as (labels & H); [done|].
  by exists labels.
Qed.

Lemma NoLIM_subject_state_maps_eq labels :
  NoLIMSubject.time_labels cfg ttss = Ok labels →
  NoLIMSubject.subject_state_maps cfg subj_id ttss
  = Ok (concat (imap (NoLIM_stored cfg subj_id ttss labels) (NoLIM.cfg_labels cfg))).
Proof.
  intros Hl. unfold NoLIMSubject.subject_state_maps. rewrite Hl.
  change (Ok labels ≫= ?f) with (f labels). cbv beta.
  rewrite (mapM_imap_Ok (NoLIMSubject.state_map_of cfg subj_id ttss labels)
                        (NoLIM_stored cfg subj_id ttss labels)); [done|].
  intros i state _. unfold NoLIMSubject.state_map_of, NoLIM_stored.
  cbv zeta. destruct (all_nan _); simpl negb; cbv iota; [done|].
  unfold make_tmp_df. rewrite decide_True; [done|].
  rewrite length_state_mean by done.
  symmetry. by eapply configure_region_count.
Qed.

(** X9.  In [extract_brain_states_noLIM.py], for an atlas the
    configuration block accepts and a [ttss] with one column per kept
    region, a subject's state maps are produced without an exception;
    the states stored are a sub-sequence of the six network labels and
    NOTA, in that order, and every stored map carries the subject's
    identifier, has one value per kept region and is not entirely
    NaN. *)
Theorem NoLIM_subject_state_maps_shape :
  ∃ maps,
    NoLIMSubject.subject_state_maps cfg subj_id ttss = Ok maps ∧
    sm_state <$> maps `sublist_of` NoLIM.labels ∧
    Forall (λ sm, sm_subject sm = subj_id ∧
                  length (sm_value sm) = NoLIMSubject.curr_n_rois cfg ∧
                  all_nan (sm_value sm) = false) maps.
Proof.
  destruct NoLIM_time_labels_range as (labels & Hl & _).
  destruct (configure_inv _ _ configured) as (_ & _ & Hlab & _).
  eexists. split; [by apply NoLIM_subject_state_maps_eq|]. split.
  - rewrite <- Hlab. apply sublist_concat_imap. intros i state _.
    unfold NoLIM_stored. cbv zeta. destruct (all_nan _); simpl.
    + apply sublist_nil_l.
    + done.
  - apply Forall_concat, Forall_lookup. intros i block Hb.
    apply list_lookup_imap_Some in Hb as (state & _ & ->).
    unfold NoLIM_stored. cbv zeta. destruct (all_nan _) eqn:E; [done|].
    apply Forall_singleton. simpl.
    split; [done|]. split; [|done]. by apply length_state_mean.
Qed.

(** X10.  In [extract_brain_states_noLIM.py], when at least one region
    is kept, a state that labels no timepoint of the subject is stored
    with an all-zero map. *)
Theorem NoLIM_absent_state_zero_map (i : nat) state :
  NoLIM.labels !! i = Some state →
  (0 < NoLIMSubject.curr_n_rois cfg)%nat →
  ∃ labels maps,
    NoLIMSubject.time_labels cfg ttss = Ok labels ∧
    NoLIMSubject.subject_state_maps cfg subj_id ttss = Ok maps ∧
    (Z.of_nat i + 1 ∉ labels →
     {| sm_subject := subj_id; sm_state := state;
        sm_value := replicate (NoLIMSubject.curr_n_rois cfg) (Fin 0) |}
     ∈ maps).
Proof.
  intros Hstate Hpos.
  destruct NoLIM_time_labels_range as (labels & Hl & _).
  destruct (configure_inv _ _ configured) as (_ & _ & Hlab & _).
  exists labels. eexists. split; [done|].
  split; [by apply NoLIM_subject_state_maps_eq|].
  intros Habs. eapply elem_of_concat_2; last first.
  - apply list_elem_of_lookup. exists i.
    rewrite list_lookup_imap, Hlab, Hstate. reflexivity.
  - unfold NoLIM_stored. cbv zeta.
    rewrite state_mean_absent by (by apply mask_count_absent).
    destruct (NoLIMSubject.curr_n_rois cfg) as [|n]; [lia|].
    simpl. apply list_elem_of_singleton. done.
Qed.
End NoLIMScript.

(** X9, witness: the seven-region atlas, a subject with NaN signal. *)
Lemma NoLIM_subject_state_maps_shape_witness :
  ∃ maps,
    NoLIMSubject.subject_state_maps cfg_7 42 (nan_ttss 6) = Ok maps ∧
    sm_state <$> maps `sublist_of` NoLIM.labels ∧
    Forall (λ sm, sm_subject sm = 42 ∧
                  length (sm_value sm) = NoLIMSubject.curr_n_rois cfg_7 ∧
                  all_nan (sm_value sm) = false) maps.
Proof.
  apply (NoLIM_subject_state_maps_shape atlas_7 cfg_7 42 (nan_ttss 6)).
  - reflexivity.
  - repeat constructor.
Defined.

(** X10, witness: the state Vis for a subject whose timepoints are all
    rejected. *)
Lemma NoLIM_absent_state_zero_map_witness :
  ∃ labels maps,
    NoLIMSubject.time_labels cfg_7 (nan_ttss 6) = Ok labels ∧
    NoLIMSubject.subject_state_maps cfg_7 42 (nan_ttss 6) = Ok maps ∧
    (Z.of_nat 0 + 1 ∉ labels →
     {| sm_subject := 42; sm_state := "Vis";
        sm_value := replicate (NoLIMSubject.curr_n_rois cfg_7) (Fin 0) |}
     ∈ maps).
Proof.
  refine (NoLIM_absent_state_zero_map atlas_7 cfg_7 42 (nan_ttss 6) _ _
            0 "Vis" _ _).
  - reflexivity.
  - repeat constructor.
  - reflexivity.
  - vm_compute. lia.
Defined.

(** ** Renumbering the networks of an arbitrary atlas *)

Section DictNoDup.
Context `{Countable K} {V : Type}.

Lemma py_dict_acc_other (m : gmap K V) (pairs : list (K * V)) k :
  k ∉ pairs.*1 →
  foldl (λ m p, <[p.1 := p.2]> m) m pairs !! k = m !! k.
Proof.
  revert m. induction pairs as [|[k' v'] pairs IH]; intros m Hk; [done|].
  rewrite fmap_cons in Hk. apply not_elem_of_cons in Hk as [Hne Hk].
  simpl. rewrite IH by done. by apply lookup_insert_ne.
Qed.

Lemma py_dict_acc_NoDup (m : gmap K V) (pairs : list (K * V)) k v :
  NoDup pairs.*1 → (k, v) ∈ pairs →
  foldl (λ m p, <[p.1 := p.2]> m) m pairs !! k = Some v.
Proof.
  revert m. induction pairs as [|[k' v'] pairs IH]; intros m Hnd Hin.
  - by apply elem_of_nil in Hin.
  - rewrite fmap_cons in Hnd. apply NoDup_cons in Hnd as [Hk' Hnd].
    apply elem_of_cons in Hin as [[= -> ->]|Hin]; simpl.
    + rewrite py_dict_acc_other by done. apply lookup_insert_eq.
    + by apply IH.
Qed.

Lemma py_dict_lookup_NoDup (pairs : list (K * V)) k v :
  NoDup pairs.*1 → py_dict pairs !! k = Some v ↔ (k, v) ∈ pairs.
Proof.
  intros Hnd. split; [apply py_dict_lookup|]. by apply py_dict_acc_NoDup.
Qed.
End DictNoDup.

Lemma enumerate_lookup {A} (l : list A) start (i : nat) :
  enumerate l start !! i = (λ x, (start + Z.of_nat i, x)) <$> l !! i.
Proof.
  unfold enumerate. destruct (l !! i) as [x|] eqn:E; simpl.
  - apply lookup_zip_with_Some. exists (start + Z.of_nat i), x.
    split; [done|]. split; [|done]. apply lookup_seqZ_lt.
    apply lookup_lt_Some in E. lia.
  - apply lookup_ge_None. apply lookup_ge_None in E.
    rewrite length_zip_with, length_seqZ. lia.
Qed.

Lemma enumerate_keys {A} (l : list A) start :
  (enumerate l start).*1 = seqZ start (Z.of_nat (length l)).
Proof. unfold enumerate. apply fst_zip. rewrite length_seqZ. lia. Qed.

Lemma enumerate_swap_elem (u : list Z) old new :
  (old, new) ∈ ((λ p : Z * Z, (p.2, p.1)) <$> enumerate u 1)
  ↔ ∃ i : nat, u !! i = Some old ∧ new = Z.of_nat i + 1.
Proof.
  rewrite list_elem_of_fmap. split.
  - intros ([n o] & [= -> ->] & Hin).
    apply list_elem_of_lookup in Hin as [i Hi].
    rewrite enumerate_lookup in Hi. exists i.
    destruct (u !! i); simplify_eq/=. split; [done|lia].
  - intros (i & Hi & ->). exists (Z.of_nat i + 1, old). split; [done|].
    apply list_elem_of_lookup. exists i.
    rewrite enumerate_lookup, Hi. simpl. do 2 f_equal. lia.
Qed.

Lemma enumerate_swap_keys (u : list Z) :
  ((λ p : Z * Z, (p.2, p.1)) <$> enumerate u 1).*1 = u.
Proof.
  rewrite <- list_fmap_compose. unfold enumerate.
  change (fst ∘ _) with (@snd Z Z). apply snd_zip.
  rewrite length_seqZ. lia.
Qed.

Lemma StronglySorted_lookup_le (l : list Z) (i j : nat) a b :
  StronglySorted Z.le l → l !! i = Some a → l !! j = Some b →
  (i ≤ j)%nat → a ≤ b.
Proof.
  intros Hs. revert i j. induction Hs as [|x l Hs IH Hx]; intros i j; [done|].
  destruct i as [|i], j as [|j]; simpl; intros Ha Hb Hij; simplify_eq.
  - lia.
  - rewrite Forall_forall in Hx. by eapply Hx, list_elem_of_lookup_2.
  - lia.
  - eapply IH; [done..|lia].
Qed.

Section Renumbering.
Variable original_atlas_order : list (Z * Z).
Variable lid : Z.

Abbreviation u := (NoLIM.unique_old_ids original_atlas_order lid).
Abbreviation renum := (NoLIM.old_to_new_id_map original_atlas_order lid).

Lemma unique_old_ids_elem old :
  old ∈ u ↔ old ≠ lid ∧ old ∈ original_atlas_order.*2.
Proof.
  unfold NoLIM.unique_old_ids, NoLIM.filter_atlas.
  rewrite merge_sort_Permutation, elem_of_remove_dups.
  rewrite !list_elem_of_fmap. setoid_rewrite list_elem_of_filter.
  split.
  - intros ([roi o] & -> & Hne & Hin). split; [done|]. by exists (roi, o).
  - intros (Hne & [roi o] & -> & Hin). by exists (roi, o).
Qed.

Lemma unique_old_ids_NoDup : NoDup u.
Proof.
  unfold NoLIM.unique_old_ids. rewrite merge_sort_Permutation.
  apply NoDup_remove_dups.
Qed.

Lemma unique_old_ids_sorted : StronglySorted Z.le u.
Proof.
  unfold NoLIM.unique_old_ids. apply StronglySorted_merge_sort.
  - intros x y z. lia.
  - intros x y. lia.
Qed.

Lemma renum_lookup old new :
  renum !! old = Some new
  ↔ ∃ i : nat, u !! i = Some old ∧ new = Z.of_nat i + 1.
Proof.
  unfold NoLIM.old_to_new_id_map.
  rewrite py_dict_lookup_NoDup.
  - apply enumerate_swap_elem.
  - rewrite enumerate_swap_keys. apply unique_old_ids_NoDup.
Qed.

Lemma unique_old_ids_lt (i j : nat) a b :
  u !! i = Some a → u !! j = Some b → (i < j)%nat ↔ a < b.
Proof.
  intros Ha Hb. split.
  - intros Hij.
    assert (a ≤ b).
    { eapply StronglySorted_lookup_le;
        [apply unique_old_ids_sorted|done..|lia]. }
    assert (a ≠ b); [|lia]. intros ->.
    pose proof (NoDup_lookup _ _ _ _ unique_old_ids_NoDup Ha Hb). lia.
  - intros Hab. destruct (decide (i < j)%nat) as [|Hge]; [done|].
    assert (b ≤ a); [|lia].
    eapply StronglySorted_lookup_le;
      [apply unique_old_ids_sorted|done..|lia].
Qed.

(** X11.  For every atlas and every excluded network identifier, the
    renumbering dictionary is defined exactly on the identifiers that
    survive the exclusion, maps them onto [1, k] where [k] is the number
    of distinct survivors, and is strictly increasing; every row of the
    filtered atlas keeps its region and gets a new identifier in
    [1, k], never NaN. *)
Theorem renumbering_any_atlas :
  let k := Z.of_nat (length u) in
  (∀ old, is_Some (renum !! old)
          ↔ old ≠ lid ∧ old ∈ original_atlas_order.*2) ∧
  (∀ new, (∃ old, renum !! old = Some new) ↔ 1 ≤ new ≤ k) ∧
  (∀ a b a' b', renum !! a = Some a' → renum !! b = Some b' →
                (a < b ↔ a' < b')) ∧
  Forall2 (λ r r', r'.1 = r.1 ∧ r.2 ≠ lid ∧ 1 ≤ renum !!! r.2 ≤ k ∧
                   r'.2 = Some (renum !!! r.2))
    (filter (λ r, r.2 ≠ lid) original_atlas_order)
    (NoLIM.atlas_order original_atlas_order lid).
Proof.
  intros k. split; [|split; [|split]].
  - intros old. rewrite <- unique_old_ids_elem. split.
    + intros [new (i & Hi & _)%renum_lookup].
      by eapply list_elem_of_lookup_2.
    + intros [i Hi]%list_elem_of_lookup_1. eexists.
      apply renum_lookup. by exists i.
  - intros new. split.
    + intros (old & (i & Hi & ->)%renum_lookup).
      apply lookup_lt_Some in Hi. lia.
    + intros Hnew.
      destruct (lookup_lt_is_Some_2 u (Z.to_nat (new - 1))) as [old Hold];
        [lia|].
      exists old. apply renum_lookup. eexists. split; [done|lia].
  - intros a b a' b' (i & Hi & ->)%renum_lookup (j & Hj & ->)%renum_lookup.
    rewrite <- (unique_old_ids_lt i j a b) by done. lia.
  - unfold NoLIM.atlas_order, NoLIM.filter_atlas.
    apply Forall2_fmap_r, Forall_Forall2_diag, Forall_forall.
    intros [roi old] [Hne Hin]%list_elem_of_filter. simpl in *.
    assert (Hu : old ∈ u).
    { apply unique_old_ids_elem. split; [done|].
      apply list_elem_of_fmap. by exists (roi, old). }
    apply list_elem_of_lookup_1 in Hu as [i Hi].
    assert (Hr : renum !! old = Some (Z.of_nat i + 1)).
    { apply renum_lookup. by exists i. }
    rewrite (lookup_total_correct _ _ _ Hr).
    apply lookup_lt_Some in Hi. repeat split; [done|lia|lia|done].
Qed.
End Renumbering.

(** ** The network of each signal column *)

Lemma configure_roi2id atlas cfg :
  configure atlas = Ok cfg →
  cfg_roi2id cfg = py_dict (cfg_atlas_order cfg).
Proof.
  unfold configure. rewrite limbic_id_5.
  change (Ok 5 ≫= ?f) with (f 5). cbv beta. by intros [= <-].
Qed.

Lemma filter_atlas_rois_NoDup atlas lid :
  NoDup atlas.*1 → NoDup (atlas_order atlas lid).*1.
Proof.
  intros Hnd. unfold atlas_order. rewrite <- list_fmap_compose.
  change (fst ∘ _) with (@fst Z Z).
  eapply sublist_NoDup; [exact Hnd|].
  unfold filter_atlas. apply fmap_sublist, sublist_filter.
Qed.

(** X12.  In [extract_brain_states_noLIM.py], when the region identifiers
    of the atlas are pairwise distinct, the network looked up for column
    [c] of the filtered signal (through the continuous index, the original
    region identifier and the region-to-network dictionary) is the
    renumbered network of row [c] of the filtered atlas. *)
Theorem NoLIM_column_network_aligned atlas cfg :
  configure atlas = Ok cfg →
  NoDup atlas.*1 →
  NoLIMSubject.column_network cfg = (cfg_atlas_order cfg).*2.
Proof.
  intros Hcfg Hnd.
  pose proof (configure_region_count _ _ Hcfg) as Hlen.
  pose proof (configure_roi2id _ _ Hcfg) as Hroi.
  destruct (configure_inv _ _ Hcfg) as (Hao & _).
  assert (Hnd' : NoDup (cfg_atlas_order cfg).*1).
  { rewrite Hao. by apply filter_atlas_rois_NoDup. }
  unfold NoLIMSubject.column_network. rewrite <- Hlen, Hroi.
  unfold NoLIMSubject.continuous_roi_to_original_roi.
  clear Hlen Hroi Hao Hcfg Hnd. revert Hnd'.
  generalize (cfg_atlas_order cfg). intros ao Hnd'.
  apply list_eq. intros i. rewrite !list_lookup_fmap.
  destruct (ao !! i) as [[roi new]|] eqn:Hi.
  - rewrite lookup_seqZ_lt by (apply lookup_lt_Some in Hi; lia). simpl.
    assert (Hc : py_dict (enumerate ao.*1 1) !! (1 + Z.of_nat i) = Some roi).
    { apply py_dict_lookup_NoDup.
      - rewrite enumerate_keys. apply NoDup_seqZ.
      - apply list_elem_of_lookup. exists i.
        by rewrite enumerate_lookup, list_lookup_fmap, Hi. }
    rewrite Hc. simpl.
    assert (Hr : py_dict ao !! roi = Some new).
    { apply py_dict_lookup_NoDup; [done|]. by eapply list_elem_of_lookup_2. }
    by rewrite Hr.
  - rewrite lookup_seqZ_ge; [done|]. apply lookup_ge_None in Hi. lia.
Qed.

(** X12, witness: the seven-region atlas. *)
Lemma NoLIM_column_network_aligned_witness :
  NoLIMSubject.column_network cfg_7 = (cfg_atlas_order cfg_7).*2.
Proof.
  apply (NoLIM_column_network_aligned atlas_7 cfg_7).
  - reflexivity.
  - by apply (bool_decide_unpack (NoDup _)).
Defined.

(** ** Consistency of the temporal metrics *)

(** X13.  When the label sequence has the configured length, the three
    per-state metrics are tied together: for every state, Fractional
    Occupancy = Dwell Time x Appearance Rate / 60. *)
Theorem occupancy_is_dwell_times_rate n tr labels m :
  Forall int64 labels → Z.of_nat (length labels) < 2 ^ 63 →
  Z.of_nat n < 2 ^ 63 → ¬ (tr == 0)%Q →
  subject_dynamics n tr (Z.of_nat (length labels)) labels = Ok m →
  ∀ (i : nat) f d a,
    fo m !! i = Some f → dt m !! i = Some d → ar m !! i = Some a →
    ∃ q, f = Fin q ∧ (q == d * a / 60)%Q.
Proof.
  intros H64 Hlen Hn Htr Hm i f d a.
  assert (Hne : labels ≠ []) by (by eapply subject_dynamics_nonempty).
  rewrite subject_dynamics_spec in Hm by done. injection Hm as <-.
  unfold Spec.metrics. cbn [fo dt ar]. rewrite !list_lookup_fmap.
  destruct (seqZ 1 (Z.of_nat n) !! i) as [s|]; [|done]. simpl.
  intros [= <-] [= <-] [= <-]. eexists. split; [done|].
  unfold Spec.fractional_occupancy, Spec.occurrences, Spec.dwell_time,
    Spec.appearance_rate, Spec.mean, Spec.scan_minutes, Spec.T.
  rewrite <- (blocks_from_count 0 labels s).
  change (filter _ (Spec.blocks_from 0 labels)) with (Spec.blocks_of labels s).
  assert (HT : ¬ (inject_Z (Z.of_nat (length labels)) == 0)%Q).
  { destruct labels; [done|]. unfold Qeq. simpl. lia. }
  destruct (Spec.blocks_of labels s) as [|b bs].
  - simpl. field. done.
  - set (k := length (b :: bs)).
    assert (Hk : ¬ (inject_Z (Z.of_nat k) == 0)%Q).
    { unfold Qeq, k. simpl. lia. }
    rewrite length_fmap. fold k. field. auto.
Qed.

(** X13, witness: state 1 of Scenario 1. *)
Lemma occupancy_is_dwell_times_rate_witness :
  ∃ q, Fin (4 # 6) = Fin q ∧ (q == (4 # 2) * (120 # 6) / 60)%Q.
Proof.
  apply (occupancy_is_dwell_times_rate 2 1 scenario_1 scenario_1_metrics)
    with (i := 0%nat).
  - repeat (constructor; [unfold int64; lia|]). constructor.
  - simpl. lia.
  - lia.
  - discriminate.
  - reflexivity.
  - reflexivity.
  - reflexivity.
  - reflexivity.
Defined.

(** ** The block decomposition *)

Lemma block_lengths_telescope (cps : list Z) s0 t :
  Forall (λ c, 0 ≤ c < 2 ^ 63) cps → 0 ≤ s0 < 2 ^ 63 → 0 ≤ t < 2 ^ 63 →
  sumZ (zip_with (λ e s, wrap64 (e - s)) (cps ++ [t]) (s0 :: cps)) = t - s0.
Proof.
  intros Hc. revert s0. induction Hc as [|c cps Hc _ IH]; intros s0 Hs Ht.
  - simpl. rewrite wrap64_small by (unfold int64; lia). lia.
  - change (sumZ (wrap64 (c - s0)
              :: zip_with (λ e s, wrap64 (e - s)) (cps ++ [t]) (c :: cps))
            = t - s0).
    rewrite sumZ_cons, IH by done.
    rewrite wrap64_small by (unfold int64; lia). lia.
Qed.

Lemma block_lengths_positive (cps : list Z) s0 t t' :
  Forall (λ c, 0 ≤ c < 2 ^ 63) cps → 0 ≤ s0 < 2 ^ 63 →
  0 ≤ t ≤ t' → t' < 2 ^ 63 →
  Forall (λ x, 0 < x)
    (zip_with (λ e s, wrap64 (e - s)) (cps ++ [t]) (s0 :: cps)) →
  Forall (λ x, 0 < x)
    (zip_with (λ e s, wrap64 (e - s)) (cps ++ [t']) (s0 :: cps)).
Proof.
  intros Hc. revert s0. induction Hc as [|c cps Hc _ IH]; intros s0 Hs Ht Ht'.
  - simpl. intros [H _]%Forall_cons. constructor; [|constructor].
    rewrite wrap64_small in * by (unfold int64; lia). lia.
  - change (Forall (λ x, 0 < x)
              (wrap64 (c - s0)
               :: zip_with (λ e s, wrap64 (e - s)) (cps ++ [t]) (c :: cps))
            → Forall (λ x, 0 < x)
                (wrap64 (c - s0)
                 :: zip_with (λ e s, wrap64 (e - s)) (cps ++ [t']) (c :: cps))).
    intros [H Hrest]%Forall_cons. constructor; [done|]. by apply IH.
Qed.

(** X14.  For a non-empty label sequence there is one block length per
    block start, and the block lengths always add up to
    [total_timepoints]; when the sequence is not longer than
    [total_timepoints] every block length is positive. *)
Theorem block_lengths_partition total labels :
  labels ≠ [] → Forall int64 labels → Z.of_nat (length labels) < 2 ^ 63 →
  0 ≤ total < 2 ^ 63 →
  length (block_lengths total labels) = length (block_starts labels) ∧
  sumZ (block_lengths total labels) = total ∧
  (Z.of_nat (length labels) ≤ total →
   Forall (λ x, 0 < x) (block_lengths total labels)).
Proof.
  intros Hne H64 Hlen Htot.
  destruct (blocks_from_change_points labels 0 Hne H64) as (Hst & _ & Hok);
    [lia|lia|].
  assert (Hcps : Forall (λ c, 0 ≤ c < 2 ^ 63) (change_points labels)).
  { change (change_points labels) with (cps_from 0 labels).
    assert (Hall : Forall (λ c, 0 ≤ c < 2 ^ 63) (0 :: cps_from 0 labels)).
    { rewrite <- Hst. apply Forall_fmap. eapply Forall_impl; [exact Hok|].
      intros b [Hb _]. simpl. lia. }
    by apply Forall_cons in Hall as [_ Hall]. }
  unfold block_lengths, block_ends, block_starts. split; [|split].
  - rewrite length_zip_with, length_app. simpl. lia.
  - rewrite block_lengths_telescope by (done || lia). lia.
  - intros Hle.
    apply (block_lengths_positive _ 0 (Z.of_nat (length labels)));
      [done|lia|lia|lia|].
    pose proof (blocks_lengths labels Hne H64 Hlen) as Hbl.
    unfold block_lengths, block_ends, block_starts in Hbl. rewrite Hbl.
    apply Forall_fmap. eapply Forall_impl; [exact Hok|].
    intros b [Hb _]. simpl. lia.
Qed.

(** X14, witness: Scenario 1. *)
Lemma block_lengths_partition_witness :
  length (block_lengths 6 scenario_1) = length (block_starts scenario_1) ∧
  sumZ (block_lengths 6 scenario_1) = 6 ∧
  (Z.of_nat (length scenario_1) ≤ 6 →
   Forall (λ x, 0 < x) (block_lengths 6 scenario_1)).
Proof.
  apply (block_lengths_partition 6 scenario_1).
  - done.
  - repeat (constructor; [unfold int64; lia|]). constructor.
  - simpl. lia.
  - lia.
Defined.

(** ** The transition matrices *)

Lemma transition_counts_nonneg n total labels tpm :
  transition_counts n total labels = Ok tpm →
  Forall (Forall (λ c, 0 ≤ c)) tpm.
Proof.
  unfold transition_counts.
  apply (tp_loop_invariant n labels (λ m, Forall (Forall (λ c, 0 ≤ c)) m)).
  - intros tp f t _ _ _ _ H. unfold increment.
    apply Forall_alter; [done|]. intros row _ Hrow.
    apply Forall_alter; [done|]. intros c _ Hc. lia.
  - apply Forall_replicate, Forall_replicate. lia.
Qed.

Lemma sumZ_nonneg row : Forall (λ c, 0 ≤ c) row → 0 ≤ sumZ row.
Proof.
  induction 1 as [|c row Hc _ IH]; [done|]. rewrite sumZ_cons. lia.
Qed.

Lemma sumZ_elem_le row c : Forall (λ c, 0 ≤ c) row → c ∈ row → c ≤ sumZ row.
Proof.
  induction 1 as [|d row Hd Hrow IH]; [by intros ?%elem_of_nil|].
  rewrite sumZ_cons. pose proof (sumZ_nonneg row Hrow).
  intros [->|Hin]%elem_of_cons; [lia|]. specialize (IH Hin). lia.
Qed.

Lemma sumZ_zero_elems row c :
  Forall (λ c, 0 ≤ c) row → sumZ row = 0 → c ∈ row → c = 0.
Proof.
  intros Hrow Hsum Hc. pose proof (sumZ_elem_le row c Hrow Hc).
  rewrite Forall_forall in Hrow. specialize (Hrow c Hc). lia.
Qed.

Lemma sumZ_insert_0 row (i : nat) c :
  row !! i = Some c → sumZ (<[i := 0]> row) = sumZ row - c.
Proof.
  revert i. induction row as [|d row IH]; intros [|i] Hi; simplify_eq/=.
  - change (sumZ (0 :: row) = sumZ (c :: row) - c). rewrite !sumZ_cons. lia.
  - change (sumZ (d :: <[i := 0]> row) = sumZ (d :: row) - c).
    rewrite !sumZ_cons, (IH i) by done. lia.
Qed.

Lemma Q_unit_fraction c r :
  0 ≤ c ≤ r → 0 < r → (0 <= inject_Z c / inject_Z r <= 1)%Q.
Proof.
  intros Hc Hr.
  assert (Hr' : (0 < inject_Z r)%Q) by (unfold Qlt; simpl; lia).
  split.
  - apply Qle_shift_div_l; [done|]. unfold Qle. simpl. lia.
  - apply Qle_shift_div_r; [done|]. unfold Qle. simpl. lia.
Qed.

Lemma divide_row_unit row :
  Forall (λ c, 0 ≤ c) row →
  Forall (λ q, (0 <= q <= 1)%Q) (divide_row row).
Proof.
  intros Hrow. unfold divide_row. apply Forall_fmap, Forall_forall.
  intros c Hc. simpl.
  destruct (Z.eqb_spec (sumZ row) 0) as [E|E]; [done|].
  pose proof (sumZ_elem_le row c Hrow Hc).
  pose proof (sumZ_nonneg row Hrow).
  rewrite Forall_forall in Hrow. specialize (Hrow c Hc).
  apply Q_unit_fraction; lia.
Qed.

Lemma fill_diagonal_0_nonneg tpm :
  Forall (Forall (λ c, 0 ≤ c)) tpm →
  Forall (Forall (λ c, 0 ≤ c)) (fill_diagonal_0 tpm).
Proof.
  intros H. unfold fill_diagonal_0. apply Forall_lookup.
  intros i row Hrow. apply list_lookup_imap_Some in Hrow as (r & Hr & ->).
  apply Forall_insert; [|done]. rewrite Forall_lookup in H. eauto.
Qed.

(** X15.  Every entry of both transition-probability matrices of a
    processed subject lies between 0 and 1. *)
Theorem transition_probabilities_unit_interval n tr total labels m :
  subject_dynamics n tr total labels = Ok m →
  Forall (Forall (λ p, (0 <= p <= 1)%Q)) (tp2d m ++ tp2d_nopersist m).
Proof.
  intros Hm. apply subject_dynamics_inv in Hm as (? & ? & tpm & _ & _ & Htp & ->).
  apply transition_counts_nonneg in Htp. cbn [tp2d tp2d_nopersist].
  unfold row_normalize. apply Forall_app. split; apply Forall_fmap.
  - eapply Forall_impl; [exact Htp|]. apply divide_row_unit.
  - eapply Forall_impl; [exact (fill_diagonal_0_nonneg _ Htp)|].
    apply divide_row_unit.
Qed.

(** X15, witness: Scenario 1. *)
Lemma transition_probabilities_unit_interval_witness :
  Forall (Forall (λ p, (0 <= p <= 1)%Q))
         (tp2d scenario_1_metrics ++ tp2d_nopersist scenario_1_metrics).
Proof.
  apply (transition_probabilities_unit_interval 2 1 6 scenario_1).
  reflexivity.
Defined.

(** X16.  For two different states i and j, the self-inclusive
    probability of the transition i -> j is the self-exclusive one times
    the probability of leaving i:
    [tp2d[i][j] = tp2d_nopersist[i][j] * (1 - tp2d[i][i])]. *)
Theorem nopersist_is_conditional_on_leaving n tr total labels m :
  subject_dynamics n tr total labels = Ok m →
  ∀ (i j : nat) p stay q,
    i ≠ j →
    entry2 (tp2d m) i j = Some p →
    entry2 (tp2d m) i i = Some stay →
    entry2 (tp2d_nopersist m) i j = Some q →
    (p == q * (1 - stay))%Q.
Proof.
  intros Hm i j p stay q Hij.
  apply subject_dynamics_inv in Hm as (? & ? & tpm & _ & _ & Htp & ->).
  apply transition_counts_nonneg in Htp. cbn [tp2d tp2d_nopersist].
  unfold entry2, row_normalize, fill_diagonal_0.
  rewrite !list_lookup_fmap, list_lookup_imap.
  destruct (tpm !! i) as [row|] eqn:Hrow; [|done]. simpl.
  assert (Hnn : Forall (λ c, 0 ≤ c) row).
  { rewrite Forall_lookup in Htp. eauto. }
  destruct (row !! j) as [cj|] eqn:Hj.
  2:{ unfold divide_row. by rewrite !list_lookup_fmap, Hj. }
  destruct (row !! i) as [ci|] eqn:Hi.
  2:{ unfold divide_row. by rewrite !list_lookup_fmap, Hi. }
  rewrite (divide_row_lookup row j cj), (divide_row_lookup row i ci) by done.
  rewrite (divide_row_lookup (<[i := 0]> row) j cj)
    by (by rewrite list_lookup_insert_ne).
  rewrite (sumZ_insert_0 row i ci) by done.
  intros [= <-] [= <-] [= <-].
  assert (Hcj : 0 ≤ cj ≤ sumZ row - ci).
  { rewrite <- (sumZ_insert_0 row i ci) by done.
    assert (Hnn' : Forall (λ c, 0 ≤ c) (<[i := 0]> row))
      by (by apply Forall_insert).
    split.
    - rewrite Forall_forall in Hnn. eapply Hnn, list_elem_of_lookup_2, Hj.
    - apply sumZ_elem_le; [done|].
      apply (list_elem_of_lookup_2 _ j). by rewrite list_lookup_insert_ne. }
  assert (Hci : 0 ≤ ci).
  { rewrite Forall_forall in Hnn. eapply Hnn, list_elem_of_lookup_2, Hi. }
  destruct (Z.eqb_spec (sumZ row) 0) as [E|E];
    destruct (Z.eqb_spec (sumZ row - ci) 0) as [E'|E'].
  - ring.
  - lia.
  - assert (cj = 0) as -> by lia. unfold Qdiv. ring.
  - assert (H1 : ¬ (inject_Z (sumZ row) == 0)%Q) by (unfold Qeq; simpl; lia).
    assert (H2 : ¬ (inject_Z (sumZ row - ci) == 0)%Q)
      by (unfold Qeq; simpl; lia).
    assert (H3 : (inject_Z (sumZ row - ci)
                  == inject_Z (sumZ row) - inject_Z ci)%Q).
    { unfold Qeq. simpl. lia. }
    rewrite H3 in H2 |- *. field. auto.
Qed.

(** X16, witness: the transition 1 -> 2 of Scenario 1. *)
Lemma nopersist_is_conditional_on_leaving_witness :
  ((1 # 3) == 1 * (1 - (2 # 3)))%Q.
Proof.
  apply (nopersist_is_conditional_on_leaving 2 1 6 scenario_1
           scenario_1_metrics)
    with (i := 0%nat) (j := 1%nat).
  - reflexivity.
  - lia.
  - reflexivity.
  - reflexivity.
  - reflexivity.
Defined.

(** *** Every transition is counted once *)

Lemma filter_Forall_id {A} (P : A → Prop) `{∀ x, Decision (P x)} (l : list A) :
  Forall P l → filter P l = l.
Proof.
  induction 1 as [|x l Hx _ IH]; [done|].
  rewrite filter_cons, decide_True by done. by rewrite IH.
Qed.

Lemma sum_pair_indicator (n : nat) (p : Z * Z) :
  sumZ ((λ i, sumZ ((λ j, if decide (p = (i, j)) then 1 else 0)
                      <$> seqZ 1 (Z.of_nat n)))
          <$> seqZ 1 (Z.of_nat n))
  = if decide (in_states n p) then 1 else 0.
Proof.
  destruct p as [a b].
  erewrite (list_fmap_ext _ (λ i, if decide (a = i)
                                  then (if decide (1 ≤ b < 1 + Z.of_nat n)
                                        then 1 else 0)
                                  else 0)); last first.
  { intros _ i _. simpl. destruct (decide (a = i)) as [->|Hne].
    - rewrite <- sum_indicator. f_equal. apply list_fmap_ext. intros _ j _.
      simpl. repeat case_decide; simplify_eq; done.
    - erewrite (list_fmap_ext _ (λ _, 0)); last first.
      { intros _ j _. simpl. rewrite decide_False; [done|]. congruence. }
      induction (seqZ 1 (Z.of_nat n)) as [|j js IH]; [done|].
      rewrite fmap_cons, sumZ_cons, IH. done. }
  destruct (decide (1 ≤ b < 1 + Z.of_nat n)) as [Hb|Hb].
  - rewrite sum_indicator. unfold in_states. simpl.
    repeat case_decide; lia.
  - erewrite (list_fmap_ext _ (λ _, 0)); last first.
    { intros _ i _. simpl. by case_decide. }
    rewrite decide_False by (unfold in_states; simpl; lia).
    induction (seqZ 1 (Z.of_nat n)) as [|j js IH]; [done|].
    rewrite fmap_cons, sumZ_cons, IH. done.
Qed.

Lemma sum_transitions (n : nat) (ps : list (Z * Z)) :
  sumZ ((λ i, sumZ ((λ j, pair_count ps (i, j)) <$> seqZ 1 (Z.of_nat n)))
          <$> seqZ 1 (Z.of_nat n))
  = Z.of_nat (length (filter (in_states n) ps)).
Proof.
  induction ps as [|p ps IH].
  - unfold pair_count. simpl.
    erewrite (list_fmap_ext _ (λ _, 0)); last first.
    { intros _ i _. simpl.
      induction (seqZ 1 (Z.of_nat n)) as [|j js IHj]; [done|].
      rewrite fmap_cons, sumZ_cons, IHj. done. }
    induction (seqZ 1 (Z.of_nat n)) as [|j js IHj]; [done|].
    rewrite fmap_cons, sumZ_cons, IHj. done.
  - erewrite (list_fmap_ext _
                (λ i, sumZ ((λ j, if decide (p = (i, j)) then 1 else 0)
                              <$> seqZ 1 (Z.of_nat n))
                      + sumZ ((λ j, pair_count ps (i, j))
                                <$> seqZ 1 (Z.of_nat n)))); last first.
    { intros _ i _. simpl. rewrite <- sumZ_add. f_equal.
      apply list_fmap_ext. intros _ j _. simpl.
      unfold pair_count. rewrite filter_cons.
      repeat case_decide; simplify_eq; simpl length; lia. }
    rewrite sumZ_add, IH, sum_pair_indicator, filter_cons.
    case_decide; simpl length; lia.
Qed.

(** X17.  When the label sequence has the configured length, the
    transition loop returns, and the count matrix sums to the number of
    pairs of consecutive timepoints whose two labels lie in
    [1, n_states]: each such transition is counted exactly once, and a
    sequence without foreign labels gives a total of T - 1. *)
Theorem transition_counts_total n labels :
  Forall int64 labels → Z.of_nat n < 2 ^ 63 →
  ∃ tp_matrix,
    transition_counts n (Z.of_nat (length labels)) labels = Ok tp_matrix ∧
    sumZ (sumZ <$> tp_matrix)
    = Z.of_nat (length (filter (in_states n) (zip labels (drop 1 labels)))) ∧
    (Forall (λ l, 1 ≤ l ≤ Z.of_nat n) labels →
     sumZ (sumZ <$> tp_matrix) = Z.of_nat (length labels - 1)).
Proof.
  intros H64 Hn. eexists. split; [by apply transition_counts_spec|].
  assert (Hsum : sumZ (sumZ <$> Spec.count_matrix n labels)
                 = Z.of_nat (length (filter (in_states n)
                                       (zip labels (drop 1 labels))))).
  { unfold Spec.count_matrix. rewrite <- list_fmap_compose.
    rewrite <- sum_transitions. f_equal. }
  split; [done|]. intros Hclean. rewrite Hsum. f_equal.
  rewrite filter_Forall_id.
  - rewrite length_zip_with, length_drop. lia.
  - apply Forall_lookup. intros t [a b] Hab.
    apply lookup_zip_with_Some in Hab as (a' & b' & [= <- <-] & Ha & Hb).
    rewrite lookup_drop in Hb. rewrite Forall_lookup in Hclean.
    split; simpl; eauto.
Qed.

(** X17, witness: Scenario 1. *)
Lemma transition_counts_total_witness :
  ∃ tp_matrix,
    transition_counts 2 (Z.of_nat (length scenario_1)) scenario_1
    = Ok tp_matrix ∧
    sumZ (sumZ <$> tp_matrix)
    = Z.of_nat (length (filter (in_states 2)
                          (zip scenario_1 (drop 1 scenario_1)))) ∧
    (Forall (λ l, 1 ≤ l ≤ Z.of_nat 2) scenario_1 →
     sumZ (sumZ <$> tp_matrix) = Z.of_nat (length scenario_1 - 1)).
Proof.
  apply (transition_counts_total 2 scenario_1).
  - repeat (constructor; [unfold int64; lia|]). constructor.
  - lia.
Defined.

(** ** The loop over subjects *)

Lemma loaded_labels_app files l1 l2 :
  loaded_labels files (l1 ++ l2)
  = loaded_labels files l1 ++ loaded_labels files l2.
Proof. apply omap_app. Qed.

Lemma loaded_labels_none files subject_list :
  Forall (λ id, files !! id = None) subject_list →
  loaded_labels files subject_list = [].
Proof.
  unfold loaded_labels. induction 1 as [|id l Hid _ IH]; [done|].
  simpl. by rewrite Hid.
Qed.

(** X18.  When no subject of the list has a label file, nothing is
    collected and [np.stack] raises [ValueError]. *)
Theorem group_without_label_files files subject_list n tr total :
  Forall (λ id, files !! id = None) subject_list →
  calculate_dynamics_for_group files subject_list n tr total
  = Raise ValueError.
Proof.
  intros H. unfold calculate_dynamics_for_group.
  by rewrite loaded_labels_none.
Qed.

(** X18, witness: two subjects without a file. *)
Lemma group_without_label_files_witness :
  calculate_dynamics_for_group demo_files [102; 104] 7 TR_DURATION_S
    TOTAL_TIMEPOINTS
  = Raise ValueError.
Proof.
  apply group_without_label_files.
  repeat constructor.
Defined.

(** X19.  A subject without a label file is skipped: the result for the
    group, error or arrays, is the same with and without that subject in
    the list. *)
Theorem missing_subject_is_skipped files before id after n tr total :
  files !! id = None →
  calculate_dynamics_for_group files (before ++ id :: after) n tr total
  = calculate_dynamics_for_group files (before ++ after) n tr total.
Proof.
  intros H. unfold calculate_dynamics_for_group.
  rewrite !loaded_labels_app. unfold loaded_labels at 2. simpl.
  by rewrite H.
Qed.

(** X19, witness: subject 102 of the demonstration directory. *)
Lemma missing_subject_is_skipped_witness :
  calculate_dynamics_for_group demo_files ([101] ++ 102 :: [103]) 7
    TR_DURATION_S TOTAL_TIMEPOINTS
  = calculate_dynamics_for_group demo_files ([101] ++ [103]) 7
      TR_DURATION_S TOTAL_TIMEPOINTS.
Proof.
  apply missing_subject_is_skipped.
  reflexivity.
Defined.

(** ** A scan of zero duration *)

(** X20.  When the scan length in minutes is zero (a zero sampling
    interval or zero [total_timepoints]) and some label of the sequence
    lies in [1, n_states], the Appearance Rate division raises
    [ZeroDivisionError] for the subject. *)
Theorem zero_scan_length_raises n tr total labels l :
  Forall int64 labels → Z.of_nat (length labels) < 2 ^ 63 →
  Z.of_nat n < 2 ^ 63 →
  (scan_length_min tr total == 0)%Q →
  l ∈ labels → 1 ≤ l ≤ Z.of_nat n →
  subject_dynamics n tr total labels = Raise ZeroDivisionError.
Proof. apply subject_dynamics_zero_scan. Qed.

(** X20, witness: Scenario 1 with a sampling interval of 0. *)
Lemma zero_scan_length_raises_witness :
  subject_dynamics 2 0 6 scenario_1 = Raise ZeroDivisionError.
Proof.
  apply (zero_scan_length_raises 2 0 6 scenario_1 1).
  - repeat (constructor; [unfold int64; lia|]). constructor.
  - simpl. lia.
  - lia.
  - reflexivity.
  - by left.
  - lia.
Defined.

(** ** The layout of the stacked arrays *)

(** X21.  When [calculate_dynamics_for_group] returns, every subject
    with a label file was processed and there is at least one; the
    occupancy, dwell and appearance arrays have shape (states, subjects),
    the two transition tensors shape (subjects, states, states); entry
    (i, s) is metric i of the s-th subject with a file, in list order, and
    entry (s, i, j) is entry (i, j) of that subject's matrix. *)
Theorem group_arrays_layout files subject_list n tr total g :
  calculate_dynamics_for_group files subject_list n tr total = Ok g →
  ∃ ms,
    Forall2 (λ labels m, subject_dynamics n tr total labels = Ok m)
            (loaded_labels files subject_list) ms ∧
    ms ≠ [] ∧
    (shape2 (fo_all g) n (length ms) ∧ shape2 (dt_all g) n (length ms) ∧
     shape2 (ar_all g) n (length ms) ∧
     shape3 (tp_all g) (length ms) n n ∧
     shape3 (tp_nopersist_all g) (length ms) n n) ∧
    (∀ i s, (i < n)%nat →
       entry2 (fo_all g) i s = ms !! s ≫= (λ m, fo m !! i) ∧
       entry2 (dt_all g) i s = ms !! s ≫= (λ m, dt m !! i) ∧
       entry2 (ar_all g) i s = ms !! s ≫= (λ m, ar m !! i)) ∧
    (∀ s i j,
       entry3 (tp_all g) s i j = ms !! s ≫= (λ m, entry2 (tp2d m) i j) ∧
       entry3 (tp_nopersist_all g) s i j
       = ms !! s ≫= (λ m, entry2 (tp2d_nopersist m) i j)).
Proof.
  intros Hg. apply calculate_dynamics_for_group_inv in Hg as (ms & Hms & Hne & ->).
  exists ms. apply mapM_Ok_inv in Hms. split; [done|]. split; [done|].
  assert (Hshape : Forall (λ m,
            length (fo m) = n ∧ length (dt m) = n ∧ length (ar m) = n ∧
            shape2 (tp2d m) n n ∧ shape2 (tp2d_nopersist m) n n) ms).
  { eapply Forall2_Forall_r; [exact Hms|].
    apply Forall_true. intros labels m Hm.
    by apply subject_dynamics_shape in Hm. }
  assert (Hfo : Forall (λ r, length r = n) (fo <$> ms)).
  { apply Forall_fmap. eapply Forall_impl; [exact Hshape|]. by intros m (? & _). }
  assert (Hdt : Forall (λ r, length r = n) (dt <$> ms)).
  { apply Forall_fmap. eapply Forall_impl; [exact Hshape|].
    by intros m (_ & ? & _). }
  assert (Har : Forall (λ r, length r = n) (ar <$> ms)).
  { apply Forall_fmap. eapply Forall_impl; [exact Hshape|].
    by intros m (_ & _ & ? & _). }
  assert (Hcols : ∀ {A} (rows : matrix A),
            Forall (λ r, length r = n) rows →
            shape2 (transpose n rows) n (length rows)).
  { intros A rows Hrows. split; [by apply length_transpose|].
    apply transpose_column_lengths. }
  cbn [fo_all dt_all ar_all tp_all tp_nopersist_all].
  split; [|split].
  - pose proof (Hcols _ _ Hfo) as H1. pose proof (Hcols _ _ Hdt) as H2.
    pose proof (Hcols _ _ Har) as H3. rewrite length_fmap in H1.
    rewrite length_fmap in H2. rewrite length_fmap in H3.
    split; [done|]. split; [done|]. split; [done|].
    split; (split; [by rewrite length_fmap|]); apply Forall_fmap;
      (eapply Forall_impl; [exact Hshape|]); by intros m (_ & _ & _ & ? & ?).
  - intros i s Hi.
    rewrite !entry2_transpose by done.
    rewrite !list_lookup_fmap. by destruct (ms !! s).
  - intros s i j. unfold entry3. rewrite !list_lookup_fmap.
    by destruct (ms !! s).
Qed.

(** X21, witness: two subjects, two states. *)
Lemma group_arrays_layout_witness :
  ∃ ms,
    Forall2 (λ labels m, subject_dynamics 2 1 6 labels = Ok m)
            (loaded_labels scenario_1_files [7; 8]) ms ∧
    ms ≠ [] ∧
    (shape2 (fo_all scenario_1_group) 2 (length ms) ∧
     shape2 (dt_all scenario_1_group) 2 (length ms) ∧
     shape2 (ar_all scenario_1_group) 2 (length ms) ∧
     shape3 (tp_all scenario_1_group) (length ms) 2 2 ∧
     shape3 (tp_nopersist_all scenario_1_group) (length ms) 2 2) ∧
    (∀ i s, (i < 2)%nat →
       entry2 (fo_all scenario_1_group) i s = ms !! s ≫= (λ m, fo m !! i) ∧
       entry2 (dt_all scenario_1_group) i s = ms !! s ≫= (λ m, dt m !! i) ∧
       entry2 (ar_all scenario_1_group) i s = ms !! s ≫= (λ m, ar m !! i)) ∧
    (∀ s i j,
       entry3 (tp_all scenario_1_group) s i j
       = ms !! s ≫= (λ m, entry2 (tp2d m) i j) ∧
       entry3 (tp_nopersist_all scenario_1_group) s i j
       = ms !! s ≫= (λ m, entry2 (tp2d_nopersist m) i j)).
Proof.
  apply (group_arrays_layout scenario_1_files [7; 8] 2 1 6 scenario_1_group).
  reflexivity.
Defined.

(** ** Control tasks and the energy matrix *)

Lemma mapM_np_index {A B} (f : A → result B) (l : list A) (start k : nat) :
  (start + k ≤ length l)%nat →
  mapM (λ i, x ← np_index l i; f x) (seqZ (Z.of_nat start) (Z.of_nat k))
  = mapM f (take k (drop start l)).
Proof.
  revert start. induction k as [|k IH]; intros start Hk; [done|].
  rewrite seqZ_cons by lia.
  replace (Z.pred (Z.of_nat (S k))) with (Z.of_nat k) by lia.
  replace (Z.succ (Z.of_nat start)) with (Z.of_nat (S start)) by lia.
  destruct (lookup_lt_is_Some_2 l start) as [x Hx]; [lia|].
  rewrite (drop_S l x start Hx).
  change (take (S k) (x :: ?t)) with (x :: take k t).
  change (mapM ?g (?a :: ?t)) with (y ← g a; r ← mapM g t; mret (y :: r)).
  cbv beta. rewrite np_index_nonneg, Nat2Z.id, Hx by lia.
  change (Ok x ≫= ?g) with (g x). cbv beta.
  by rewrite IH by lia.
Qed.

Lemma mapM_np_index_all {A B} (f : A → result B) (l : list A) :
  mapM (λ i, x ← np_index l i; f x) (seqZ 0 (Z.of_nat (length l)))
  = mapM f l.
Proof.
  etrans; [apply (mapM_np_index f l 0 (length l)); lia|].
  by rewrite drop_0, firstn_all.
Qed.

Lemma length_concat_blocks {A} (blocks : list (list A)) (c : nat) :
  Forall (λ b, length b = c) blocks →
  length (concat blocks) = (length blocks * c)%nat.
Proof.
  induction 1 as [|b bs Hb _ IH]; [done|].
  simpl. rewrite length_app, IH, Hb. done.
Qed.

Lemma np_reshape_concat {A} (blocks : list (list A)) (c : nat) :
  Forall (λ b, length b = c) blocks →
  np_reshape (concat blocks) (length blocks) c = Ok blocks.
Proof.
  intros H. unfold np_reshape.
  rewrite decide_True by (by apply length_concat_blocks). f_equal.
  induction H as [|b bs Hb _ IH]; [done|].
  simpl length. rewrite <- cons_seq, fmap_cons. f_equal.
  - simpl. rewrite drop_0, take_app_length'; done.
  - rewrite <- fmap_S_seq, <- list_fmap_compose. rewrite <- IH at 2.
    apply list_fmap_ext. intros _ i _. simpl.
    rewrite <- Hb at 2. by rewrite drop_app_add.
Qed.

Lemma fmap_concat_blocks {A B} (f : A → B) (blocks : list (list A)) :
  f <$> concat blocks = concat ((λ b : list A, f <$> b) <$> blocks).
Proof.
  induction blocks as [|b bs IH]; [done|].
  simpl. by rewrite fmap_app, IH.
Qed.

Section TaskLists.
Variable normalize_state : list fval → list fval.
Variable task_energy : matrix fval → Energy.control_task → fval.

Lemma assemble_control_tasks_eq states_x0 states_xf control_set n_nodes :
  (length states_x0 ≤ length states_xf)%nat →
  Energy.assemble_control_tasks normalize_state states_x0 states_xf
    control_set n_nodes
  = Ok (concat ((λ initial,
                   Energy.transition_task normalize_state control_set n_nodes initial
                     <$> take (length states_x0) states_xf)
                  <$> states_x0)).
Proof.
  intros Hlen. unfold Energy.assemble_control_tasks. cbv zeta.
  rewrite (mapM_np_index_all
             (λ column,
                mapM (λ target_idx,
                        column' ← np_index states_xf target_idx;
                        Ok (Energy.transition_task normalize_state control_set n_nodes column column'))
                     (seqZ 0 (Z.of_nat (length states_x0))))).
  rewrite (mapM_Ok_fmap_ext _
             (λ initial, Energy.transition_task normalize_state control_set n_nodes initial
                           <$> take (length states_x0) states_xf)); [done|].
  apply Forall_true. intros initial.
  etrans; [apply (mapM_np_index _ states_xf 0 (length states_x0)); lia|].
  by rewrite drop_0, mapM_Ok_fmap.
Qed.

Lemma energy_matrix_eq A states_matrix control_set n_roi :
  Energy.energy_matrix normalize_state task_energy A states_matrix
    control_set n_roi
  = Ok ((λ initial,
           (λ target, task_energy A
                        (Energy.transition_task normalize_state control_set n_roi initial target))
             <$> states_matrix)
          <$> states_matrix).
Proof.
  unfold Energy.energy_matrix. cbv zeta.
  rewrite assemble_control_tasks_eq by done.
  change (Ok ?x ≫= ?g) with (g x). cbv beta.
  rewrite firstn_all.
  set (blocks := (λ initial,
           (λ target, task_energy A
                        (Energy.transition_task normalize_state control_set n_roi initial target))
             <$> states_matrix) <$> states_matrix).
  replace (task_energy A <$> concat _) with (concat blocks).
  - replace (length states_matrix) with (length blocks) at 1
      by (unfold blocks; by rewrite length_fmap).
    apply np_reshape_concat. unfold blocks. apply Forall_fmap, Forall_true.
    intros initial. simpl. by rewrite length_fmap.
  - unfold blocks. rewrite fmap_concat_blocks, <- list_fmap_compose.
    f_equal. apply list_fmap_ext. intros _ initial _. simpl.
    by rewrite <- list_fmap_compose.
Qed.
End TaskLists.

Lemma concat_lookup_block {A} (blocks : list (list A)) (c i j : nat) b x :
  Forall (λ b, length b = c) blocks →
  blocks !! i = Some b → b !! j = Some x →
  concat blocks !! (i * c + j)%nat = Some x.
Proof.
  intros H. revert i. induction H as [|b' bs Hb' _ IH]; intros i Hb Hx; [done|].
  destruct i as [|i]; simplify_eq/=.
  - by apply lookup_app_l_Some.
  - rewrite lookup_app_r by lia.
    replace (length b' + i * length b' + j - length b')%nat
      with (i * length b' + j)%nat by lia.
    by apply IH.
Qed.

(** X22.  For [n] initial states and at least [n] target states,
    [assemble_control_tasks] returns [n * n] tasks, and the task at
    position [i * n + j] goes from the normalized initial state [i] to
    the normalized target state [j], with the given control set, the
    identity as trajectory constraint and [rho = 1]. *)
Theorem assemble_control_tasks_pairs
    (normalize_state : list fval → list fval)
    states_x0 states_xf control_set n_nodes :
  (length states_x0 ≤ length states_xf)%nat →
  ∃ control_tasks,
    Energy.assemble_control_tasks normalize_state states_x0 states_xf
      control_set n_nodes = Ok control_tasks ∧
    length control_tasks = (length states_x0 * length states_x0)%nat ∧
    ∀ (i j : nat) initial target,
      states_x0 !! i = Some initial → (j < length states_x0)%nat →
      states_xf !! j = Some target →
      control_tasks !! (i * length states_x0 + j)%nat
      = Some (Energy.transition_task normalize_state control_set n_nodes
                initial target).
Proof.
  intros Hlen. eexists. split; [by apply assemble_control_tasks_eq|].
  assert (Hblocks : Forall (λ b, length b = length states_x0)
            ((λ initial,
                Energy.transition_task normalize_state control_set n_nodes
                  initial <$> take (length states_x0) states_xf)
               <$> states_x0)).
  { apply Forall_fmap, Forall_true. intros initial. simpl.
    rewrite length_fmap, length_take. lia. }
  split.
  - rewrite (length_concat_blocks _ _ Hblocks). by rewrite length_fmap.
  - intros i j initial target Hi Hj Ht.
    eapply concat_lookup_block; [exact Hblocks| |].
    + by rewrite list_lookup_fmap, Hi.
    + by rewrite list_lookup_fmap, lookup_take_lt, Ht.
Qed.

(** X22, witness: two states of one node. *)
Lemma assemble_control_tasks_pairs_witness :
  ∃ control_tasks,
    Energy.assemble_control_tasks id [[Fin 1]; [Fin 2]] [[Fin 1]; [Fin 2]]
      (np_eye 1) 1 = Ok control_tasks ∧
    length control_tasks = (2 * 2)%nat ∧
    ∀ (i j : nat) initial target,
      [[Fin 1]; [Fin 2]] !! i = Some initial → (j < 2)%nat →
      [[Fin 1]; [Fin 2]] !! j = Some target →
      control_tasks !! (i * 2 + j)%nat
      = Some (Energy.transition_task id (np_eye 1) 1 initial target).
Proof.
  apply (assemble_control_tasks_pairs id [[Fin 1]; [Fin 2]] [[Fin 1]; [Fin 2]]).
  simpl. lia.
Defined.

(** ** Loading the states *)

Lemma fill_states_inr subj_states_df n_roi labels :
  Forall (λ l, length (Energy.state_values subj_states_df l) = n_roi) labels →
  Energy.fill_states subj_states_df n_roi labels
  = inr (Energy.state_values subj_states_df <$> labels).
Proof.
  induction 1 as [|l labels Hl _ IH]; [done|].
  simpl. rewrite decide_True by done. by rewrite IH.
Qed.

Lemma fill_states_inl subj_states_df n_roi labels :
  ¬ Forall (λ l, length (Energy.state_values subj_states_df l) = n_roi) labels →
  ∃ l, Energy.fill_states subj_states_df n_roi labels = inl l ∧ l ∈ labels ∧
       length (Energy.state_values subj_states_df l) ≠ n_roi.
Proof.
  induction labels as [|l labels IH]; intros H.
  - destruct H. constructor.
  - simpl. case_decide as Hl.
    + destruct IH as (l' & -> & Hin & Hne).
      { intros Hall. apply H. by constructor. }
      exists l'. split; [done|]. split; [by right|done].
    + exists l. split; [done|]. split; [by left|done].
Qed.

Section EnergyOutcome.
Variable normalize_state : list fval → list fval.
Variable task_energy : matrix fval → Energy.control_task → fval.
Variable states_file : option (list Energy.state_row).
Variable sc_file : option (matrix fval).
Variable subject_id : Z.
Variable n_roi : nat.

Abbreviation inputs_complete :=
  (Energy.inputs_complete states_file sc_file subject_id n_roi).

Lemma load_inputs_inr states_matrix A :
  Energy.load_inputs states_file sc_file subject_id n_roi
  = inr (states_matrix, A)
  ↔ inputs_complete states_matrix A.
Proof.
  unfold Energy.load_inputs, Energy.inputs_complete. split.
  - destruct states_file as [states_all_df|]; [|done].
    case_decide as Hne; [done|].
    destruct (decide (Forall (λ l, length (Energy.state_values
                (filter (λ r, Energy.sr_subject r = subject_id) states_all_df)
                l) = n_roi)
              (Energy.present_labels
                 (filter (λ r, Energy.sr_subject r = subject_id)
                    states_all_df)))) as [Hall|Hall].
    + rewrite fill_states_inr by done.
      destruct sc_file as [sc|]; [|done]. intros [= <- <-].
      exists states_all_df, sc. done.
    + destruct (fill_states_inl _ _ _ Hall) as (l & -> & _). done.
  - intros (states_all_df & sc & -> & -> & Hne & Hall & -> & ->).
    rewrite decide_False by done. by rewrite fill_states_inr.
Qed.

(** X23.  [get_control_energy] never raises, and it saves an energy
    matrix exactly when the state file and the connectivity file exist,
    the subject has rows in the state table, and every standard label
    found there has [n_roi] values; otherwise it returns without a
    result. *)
Theorem get_control_energy_outcome :
  ∃ o,
    Energy.get_control_energy normalize_state task_energy
      states_file sc_file subject_id n_roi = Ok o ∧
    ((∃ oce, o = Energy.Saved oce)
     ↔ ∃ states_matrix A, inputs_complete states_matrix A).
Proof.
  unfold Energy.get_control_energy.
  destruct (Energy.load_inputs states_file sc_file subject_id n_roi)
    as [why|[states_matrix A]] eqn:E.
  - eexists. split; [done|]. split; [by intros [? ?]|].
    intros (sm & A & H). apply load_inputs_inr in H. congruence.
  - rewrite energy_matrix_eq. eexists. split; [done|].
    split; [|by eauto]. intros _. exists states_matrix, A.
    by apply load_inputs_inr.
Qed.

(** X24.  The matrix [get_control_energy] saves is square, with one
    row and one column per standard label present for the subject, in
    the order of the standard labels; its entry (i, j) is the energy of
    the task that goes from the state map of label i to the state map
    of label j under full control (identity control set), on the
    connectivity matrix cut to [n_roi] regions with a zero diagonal. *)
Theorem energy_matrix_orientation oce :
  Energy.get_control_energy normalize_state task_energy
    states_file sc_file subject_id n_roi = Ok (Energy.Saved oce) →
  ∃ states_matrix A,
    inputs_complete states_matrix A ∧
    shape2 oce (length states_matrix) (length states_matrix) ∧
    ∀ (i j : nat) initial target,
      states_matrix !! i = Some initial →
      states_matrix !! j = Some target →
      entry2 oce i j
      = Some (task_energy A
                (Energy.transition_task normalize_state (np_eye n_roi)
                   n_roi initial target)).
Proof.
  unfold Energy.get_control_energy.
  destruct (Energy.load_inputs states_file sc_file subject_id n_roi)
    as [why|[states_matrix A]] eqn:E; [done|].
  rewrite energy_matrix_eq. intros [= <-].
  exists states_matrix, A. split; [by apply load_inputs_inr|]. split.
  - split; [by rewrite length_fmap|].
    apply Forall_fmap, Forall_true. intros initial. simpl.
    by rewrite length_fmap.
  - intros i j initial target Hi Hj. unfold entry2.
    rewrite list_lookup_fmap, Hi. simpl.
    by rewrite list_lookup_fmap, Hj.
Qed.

Lemma control_set_add1_entry (k a b : nat) :
  (k < n_roi)%nat → (a < n_roi)%nat → (b < n_roi)%nat →
  entry2 (Energy.control_set_add1 n_roi k) a b
  = Some (if decide (a = b)
          then (if decide (a = k) then Fin 2 else Fin 1)
          else Fin 0).
Proof.
  intros Hk Ha Hb. unfold entry2, Energy.control_set_add1, np_eye.
  rewrite list_lookup_alter, list_lookup_fmap, lookup_seq_lt by done.
  destruct (decide (k = a)) as [->|Hne]; simpl.
  - destruct (decide (a = b)) as [->|Hab].
    + rewrite list_lookup_insert_eq by (by rewrite length_fmap, length_seq).
      by rewrite decide_True.
    + rewrite list_lookup_insert_ne by done.
      rewrite list_lookup_fmap, lookup_seq_lt by done. simpl.
      by rewrite decide_False.
  - rewrite !list_lookup_fmap, !lookup_seq_lt by done. simpl.
    rewrite !list_lookup_fmap, !lookup_seq_lt by done. simpl.
    destruct (decide (a = b)); [|done]. by rewrite decide_False by congruence.
Qed.

(** X25.  The tensor [get_regional_control_energy] saves has shape
    (n_roi, states, states); its entry (k, i, j) is the energy of the
    transition from state i to state j under the control set of region
    k, which is the identity except for the value 2 at (k, k). *)
Theorem regional_energy_tensor oce :
  Energy.get_regional_control_energy normalize_state task_energy
    states_file sc_file subject_id n_roi = Ok (Energy.Saved oce) →
  ∃ states_matrix A,
    inputs_complete states_matrix A ∧
    shape3 oce n_roi (length states_matrix) (length states_matrix) ∧
    (∀ (k i j : nat) initial target,
       (k < n_roi)%nat →
       states_matrix !! i = Some initial →
       states_matrix !! j = Some target →
       entry3 oce k i j
       = Some (task_energy A
                 (Energy.transition_task normalize_state
                    (Energy.control_set_add1 n_roi k) n_roi
                    initial target))) ∧
    (∀ k a b : nat,
       (k < n_roi)%nat → (a < n_roi)%nat → (b < n_roi)%nat →
       entry2 (Energy.control_set_add1 n_roi k) a b
       = Some (if decide (a = b)
               then (if decide (a = k) then Fin 2 else Fin 1)
               else Fin 0)).
Proof.
  unfold Energy.get_regional_control_energy.
  destruct (Energy.load_inputs states_file sc_file subject_id n_roi)
    as [why|[states_matrix A]] eqn:E; [done|].
  rewrite (mapM_Ok_fmap_ext _
             (λ k, (λ initial,
                      (λ target, task_energy A
                         (Energy.transition_task normalize_state
                            (Energy.control_set_add1 n_roi k) n_roi
                            initial target))
                        <$> states_matrix)
                     <$> states_matrix)).
  2:{ apply Forall_true. intros k. apply energy_matrix_eq. }
  intros [= <-]. exists states_matrix, A.
  split; [by apply load_inputs_inr|]. split; [|split].
  - split; [by rewrite length_fmap, length_seq|].
    apply Forall_fmap, Forall_true. intros k. simpl.
    split; [by rewrite length_fmap|].
    apply Forall_fmap, Forall_true. intros initial. simpl.
    by rewrite length_fmap.
  - intros k i j initial target Hk Hi Hj. unfold entry3, entry2.
    rewrite list_lookup_fmap, lookup_seq_lt by done. simpl.
    rewrite list_lookup_fmap, Hi. simpl.
    by rewrite list_lookup_fmap, Hj.
  - apply control_set_add1_entry.
Qed.
End EnergyOutcome.

(** X24, witness: two states of one region. *)
Lemma energy_matrix_orientation_witness :
  ∃ states_matrix A,
    Energy.inputs_complete (Some demo_state_table) (Some demo_sc) 7 1
      states_matrix A ∧
    shape2 [[Fin 1; Fin 2]; [Fin 1; Fin 2]]
           (length states_matrix) (length states_matrix) ∧
    ∀ (i j : nat) initial target,
      states_matrix !! i = Some initial →
      states_matrix !! j = Some target →
      entry2 [[Fin 1; Fin 2]; [Fin 1; Fin 2]] i j
      = Some (demo_task_energy A
                (Energy.transition_task id (np_eye 1) 1 initial target)).
Proof.
  apply (energy_matrix_orientation id demo_task_energy
           (Some demo_state_table) (Some demo_sc) 7 1).
  reflexivity.
Defined.

(** X25, witness: two states of one region. *)
Lemma regional_energy_tensor_witness :
  ∃ states_matrix A,
    Energy.inputs_complete (Some demo_state_table) (Some demo_sc) 7 1
      states_matrix A ∧
    shape3 [[[Fin 1; Fin 2]; [Fin 1; Fin 2]]] 1
           (length states_matrix) (length states_matrix) ∧
    (∀ (k i j : nat) initial target,
       (k < 1)%nat →
       states_matrix !! i = Some initial →
       states_matrix !! j = Some target →
       entry3 [[[Fin 1; Fin 2]; [Fin 1; Fin 2]]] k i j
       = Some (demo_task_energy A
                 (Energy.transition_task id
                    (Energy.control_set_add1 1 k) 1 initial target))) ∧
    (∀ k a b : nat,
       (k < 1)%nat → (a < 1)%nat → (b < 1)%nat →
       entry2 (Energy.control_set_add1 1 k) a b
       = Some (if decide (a = b)
               then (if decide (a = k) then Fin 2 else Fin 1)
               else Fin 0)).
Proof.
  apply (regional_energy_tensor id demo_task_energy
           (Some demo_state_table) (Some demo_sc) 7 1).
  reflexivity.
Defined.

(** ** From the state maps to the control states *)

Lemma state_table_cons sm maps :
  Energy.state_table (sm :: maps)
  = Energy.rows_of sm ++ Energy.state_table maps.
Proof. reflexivity. Qed.

Lemma state_table_app maps1 maps2 :
  Energy.state_table (maps1 ++ maps2)
  = Energy.state_table maps1 ++ Energy.state_table maps2.
Proof.
  induction maps1 as [|sm maps1 IH]; [done|].
  rewrite <- app_comm_cons, !state_table_cons, IH. by rewrite app_assoc.
Qed.

Lemma filter_rows_of (P : Energy.state_row → Prop) `{∀ r, Decision (P r)}
    (Q : state_map → Prop) `{∀ sm, Decision (Q sm)} sm :
  (∀ v, P {| Energy.sr_subject := sm_subject sm;
             Energy.sr_state := sm_state sm;
             Energy.sr_value := v |} ↔ Q sm) →
  filter P (Energy.rows_of sm) = if decide (Q sm) then Energy.rows_of sm else [].
Proof.
  intros HPQ. unfold Energy.rows_of.
  induction (sm_value sm) as [|v vs IH]; [by case_decide|].
  rewrite fmap_cons, filter_cons, IH.
  destruct (decide (Q sm)) as [HQ|HQ].
  - rewrite decide_True; [done|]. by apply HPQ.
  - rewrite decide_False; [done|]. by rewrite HPQ.
Qed.

Lemma filter_subject_table subject_id maps :
  Forall (λ sm, sm_subject sm = subject_id) maps →
  filter (λ r, Energy.sr_subject r = subject_id) (Energy.state_table maps)
  = Energy.state_table maps.
Proof.
  induction 1 as [|sm maps Hsm _ IH]; [done|].
  rewrite state_table_cons, filter_app, IH.
  rewrite (filter_rows_of _ (λ sm, sm_subject sm = subject_id)) by done.
  by rewrite decide_True.
Qed.

Lemma filter_other_subjects subject_id maps :
  Forall (λ sm, sm_subject sm ≠ subject_id) maps →
  filter (λ r, Energy.sr_subject r = subject_id) (Energy.state_table maps)
  = [].
Proof.
  induction 1 as [|sm maps Hsm _ IH]; [done|].
  rewrite state_table_cons, filter_app, IH.
  rewrite (filter_rows_of _ (λ sm, sm_subject sm = subject_id)) by done.
  by rewrite decide_False.
Qed.

Lemma sr_value_rows_of sm : Energy.sr_value <$> Energy.rows_of sm = sm_value sm.
Proof.
  unfold Energy.rows_of. rewrite <- list_fmap_compose.
  induction (sm_value sm) as [|v vs IH]; [done|].
  rewrite fmap_cons. simpl. by rewrite IH.
Qed.

Lemma state_values_other maps l :
  l ∉ sm_state <$> maps →
  Energy.state_values (Energy.state_table maps) l = [].
Proof.
  unfold Energy.state_values.
  induction maps as [|sm maps IH]; [done|].
  rewrite fmap_cons. intros [Hne Hl]%not_elem_of_cons.
  rewrite state_table_cons, filter_app, fmap_app, IH by done.
  rewrite (filter_rows_of _ (λ sm, sm_state sm = l)) by done.
  by rewrite decide_False.
Qed.

Lemma state_values_table maps (i : nat) sm :
  NoDup (sm_state <$> maps) → maps !! i = Some sm →
  Energy.state_values (Energy.state_table maps) (sm_state sm) = sm_value sm.
Proof.
  revert i. induction maps as [|sm' maps IH]; intros i Hnd Hi; [done|].
  rewrite fmap_cons in Hnd. apply NoDup_cons in Hnd as [Hnotin Hnd].
  unfold Energy.state_values in *.
  rewrite state_table_cons, filter_app, fmap_app.
  rewrite (filter_rows_of _ (λ sm0, sm_state sm0 = sm_state sm)) by done.
  destruct i as [|i]; simplify_eq/=.
  - rewrite decide_True by done.
    rewrite sr_value_rows_of.
    pose proof (state_values_other maps (sm_state sm) Hnotin) as Ho.
    unfold Energy.state_values in Ho. rewrite Ho. apply app_nil_r.
  - rewrite decide_False.
    + simpl. by eapply IH.
    + intros E. apply Hnotin. rewrite E.
      apply list_elem_of_fmap. exists sm. split; [done|].
      by eapply list_elem_of_lookup_2.
Qed.

Lemma table_has_state maps sm :
  sm ∈ maps → sm_value sm ≠ [] →
  sm_state sm ∈ Energy.sr_state <$> Energy.state_table maps.
Proof.
  intros Hin Hne. induction Hin as [sm maps|sm sm' maps _ IH].
  - rewrite state_table_cons, fmap_app. apply elem_of_app. left.
    unfold Energy.rows_of. revert Hne.
    destruct (sm_value sm) as [|v vs]; [done|]. intros _.
    rewrite !fmap_cons. simpl. left.
  - rewrite state_table_cons, fmap_app. apply elem_of_app. right. by apply IH.
Qed.

(** X26.  The state maps [extract_brain_states.py] stores for a subject
    (an atlas of [n_roi > 0] regions, one signal column per region) pass
    every check [get_control_energy] makes on the state table, whatever
    other subjects the table holds: the subject has rows, the seven
    network labels are all present with [n_roi] values each, and the
    reject state is left out.  What the function loads is therefore the
    seven mean activity patterns in label order and the connectivity
    matrix cut to [n_roi] regions with a zero diagonal, and a missing
    connectivity file is the only early return left.  Whenever it saves a
    matrix for these state maps, a connectivity file was there, the
    matrix is 7 x 7, and its entry (i, j) is the energy the toolbox gives
    for the transition from the pattern of network i+1 to that of network
    j+1.  The size of the connectivity matrix is not checked by the code
    (lines 122-125). *)
Theorem full_state_maps_feed_energy
    (normalize_state : list fval → list fval)
    (task_energy : matrix fval → Energy.control_task → fval)
    atlas_order subj_id (n_roi : nat) ttss before after :
  Forall (λ row, length row = n_roi) ttss →
  length atlas_order = n_roi → (0 < n_roi)%nat →
  Forall (λ sm, sm_subject sm ≠ subj_id) (before ++ after) →
  ∃ labels maps,
    Full.time_labels atlas_order n_roi ttss = Ok labels ∧
    Full.subject_state_maps atlas_order subj_id n_roi ttss = Ok maps ∧
    ∀ sc_file,
      let states_file := Some (Energy.state_table (before ++ maps ++ after)) in
      let states_matrix :=
        (λ i : nat, state_mean n_roi ttss (state_mask labels i)) <$> seq 0 7 in
      Energy.load_inputs states_file sc_file subj_id n_roi
      = match sc_file with
        | None => inl Energy.no_sc_file
        | Some sc => inr (states_matrix, Energy.adjacency sc n_roi)
        end ∧
      ∀ oce,
        Energy.get_control_energy normalize_state task_energy
          states_file sc_file subj_id n_roi = Ok (Energy.Saved oce) →
        ∃ sc, sc_file = Some sc ∧
          shape2 oce 7 7 ∧
          ∀ i j : nat, (i < 7)%nat → (j < 7)%nat →
            entry2 oce i j
            = Some (task_energy (Energy.adjacency sc n_roi)
                      (Energy.transition_task normalize_state (np_eye n_roi)
                         n_roi
                         (state_mean n_roi ttss (state_mask labels i))
                         (state_mean n_roi ttss (state_mask labels j)))).
Proof.
  intros Hshape Hlen Hpos Hothers.
  destruct (Full_time_labels_range atlas_order n_roi ttss)
    as (labels & Hl & _).
  pose proof (Full_subject_state_maps_eq atlas_order subj_id n_roi ttss
                Hshape labels Hlen Hl) as Hmaps.
  set (maps := imap (λ i state,
                  {| sm_subject := subj_id; sm_state := state;
                     sm_value := state_mean n_roi ttss (state_mask labels i) |})
                 Full.LABELS) in *.
  exists labels, maps. split; [done|]. split; [done|].
  apply Forall_app in Hothers as [Hbefore Hafter].
  assert (Hsubj : Forall (λ sm, sm_subject sm = subj_id) maps).
  { apply Forall_lookup. intros i sm Hsm.
    by apply list_lookup_imap_Some in Hsm as (state & _ & ->). }
  assert (Hdf : filter (λ r, Energy.sr_subject r = subj_id)
                  (Energy.state_table (before ++ maps ++ after))
                = Energy.state_table maps).
  { rewrite !state_table_app, !filter_app.
    rewrite (filter_other_subjects _ before), (filter_other_subjects _ after),
      filter_subject_table by done.
    by rewrite app_nil_r. }
  assert (Hstates : sm_state <$> maps = Full.LABELS).
  { unfold maps. apply list_eq. intros i.
    rewrite list_lookup_fmap, list_lookup_imap.
    by destruct (Full.LABELS !! i). }
  assert (Hnd : NoDup (sm_state <$> maps)).
  { rewrite Hstates. by apply (bool_decide_unpack (NoDup _)). }
  assert (Hmap : ∀ (i : nat) l, Energy.standard_labels !! i = Some l →
            maps !! i = Some {| sm_subject := subj_id; sm_state := l;
                                sm_value := state_mean n_roi ttss
                                              (state_mask labels i) |}).
  { intros i l Hi. unfold maps. rewrite list_lookup_imap.
    assert (HL : Full.LABELS !! i = Some l).
    { change Full.LABELS with (Energy.standard_labels ++ ["NOTA"]).
      by apply lookup_app_l_Some. }
    by rewrite HL. }
  assert (Hvalues : ∀ (i : nat) l, Energy.standard_labels !! i = Some l →
            Energy.state_values (Energy.state_table maps) l
            = state_mean n_roi ttss (state_mask labels i)).
  { intros i l Hi.
    apply (state_values_table maps i _ Hnd (Hmap i l Hi)). }
  assert (Hpresent : Energy.present_labels (Energy.state_table maps)
                     = Energy.standard_labels).
  { unfold Energy.present_labels. apply filter_Forall_id.
    apply Forall_lookup. intros i l Hi.
    apply (table_has_state maps _ (list_elem_of_lookup_2 _ _ _ (Hmap i l Hi))).
    simpl. intros E. apply (f_equal length) in E.
    rewrite length_state_mean in E by done. simpl in E. lia. }
  assert (Hcols : Energy.state_values (Energy.state_table maps)
                    <$> Energy.standard_labels
                  = (λ i, state_mean n_roi ttss (state_mask labels i))
                      <$> seq 0 7).
  { apply list_eq. intros i. rewrite !list_lookup_fmap.
    destruct (decide (i < 7)%nat) as [Hi7|Hi7].
    - rewrite lookup_seq_lt by done.
      destruct (lookup_lt_is_Some_2 Energy.standard_labels i) as [l Hi];
        [simpl; lia|].
      rewrite Hi. simpl. by rewrite (Hvalues i l Hi).
    - rewrite lookup_seq_ge by lia.
      by rewrite (lookup_ge_None_2 Energy.standard_labels i) by (simpl; lia). }
  assert (Hne : Energy.state_table maps ≠ []).
  { pose proof (Hmap 0%nat "Vis" eq_refl) as Hm0.
    intros E. apply (f_equal (fmap Energy.sr_state)) in E.
    assert (Hin : "Vis" ∈ Energy.sr_state <$> Energy.state_table maps).
    { apply (table_has_state maps _ (list_elem_of_lookup_2 _ _ _ Hm0)).
      simpl. intros E'. apply (f_equal length) in E'.
      rewrite length_state_mean in E' by done. simpl in E'. lia. }
    rewrite E in Hin. by apply elem_of_nil in Hin. }
  assert (Hfill : Energy.fill_states (Energy.state_table maps) n_roi
                    Energy.standard_labels
                  = inr ((λ i, state_mean n_roi ttss (state_mask labels i))
                           <$> seq 0 7)).
  { rewrite fill_states_inr, Hcols; [done|].
    apply Forall_lookup. intros i l Hi. rewrite (Hvalues i l Hi).
    by apply length_state_mean. }
  intros sc_file. cbv zeta.
  assert (Hload : Energy.load_inputs
                    (Some (Energy.state_table (before ++ maps ++ after)))
                    sc_file subj_id n_roi
                  = match sc_file with
                    | None => inl Energy.no_sc_file
                    | Some sc =>
                        inr ((λ i, state_mean n_roi ttss (state_mask labels i))
                               <$> seq 0 7,
                             Energy.adjacency sc n_roi)
                    end).
  { unfold Energy.load_inputs. cbv zeta. rewrite Hdf.
    rewrite decide_False by done. by rewrite Hpresent, Hfill. }
  split; [exact Hload|].
  intros oce. unfold Energy.get_control_energy. rewrite Hload.
  destruct sc_file as [sc|]; [|done].
  rewrite energy_matrix_eq. cbv zeta.
  change (Ok ?x ≫= ?g) with (g x). cbv beta. intros Hoce.
  assert (Hoce' : oce
            = (λ initial,
                 (λ target, task_energy (Energy.adjacency sc n_roi)
                    (Energy.transition_task normalize_state (np_eye n_roi)
                       n_roi initial target))
                 <$> ((λ i, state_mean n_roi ttss (state_mask labels i))
                        <$> seq 0 7))
              <$> ((λ i, state_mean n_roi ttss (state_mask labels i))
                     <$> seq 0 7)) by congruence.
  clear Hoce. subst oce. exists sc. split; [done|]. split.
  - split; [reflexivity|].
    apply Forall_fmap, Forall_true. intros initial. reflexivity.
  - intros i j Hi Hj. unfold entry2.
    set (cols := (λ i, state_mean n_roi ttss (state_mask labels i))
                   <$> seq 0 7).
    assert (Hc : ∀ k, (k < 7)%nat →
              cols !! k = Some (state_mean n_roi ttss (state_mask labels k))).
    { intros k Hk. unfold cols.
      by rewrite list_lookup_fmap, lookup_seq_lt by done. }
    clearbody cols. rewrite list_lookup_fmap, (Hc i Hi). simpl.
    by rewrite list_lookup_fmap, (Hc j Hj).
Qed.

(** X26, witness: the seven-region atlas, a subject with NaN signal and
    a 7 x 7 connectivity matrix. *)
Lemma full_state_maps_feed_energy_witness :
  ∃ labels maps oce,
    Full.time_labels atlas_7 7 (nan_ttss 7) = Ok labels ∧
    Full.subject_state_maps atlas_7 42 7 (nan_ttss 7) = Ok maps ∧
    Energy.load_inputs (Some (Energy.state_table ([] ++ maps ++ [])))
      (Some demo_sc_7) 42 7
    = inr ((λ i : nat, state_mean 7 (nan_ttss 7) (state_mask labels i))
             <$> seq 0 7,
           Energy.adjacency demo_sc_7 7) ∧
    Energy.get_control_energy id demo_task_energy
      (Some (Energy.state_table ([] ++ maps ++ []))) (Some demo_sc_7)
      42 7 = Ok (Energy.Saved oce) ∧
    shape2 (Energy.adjacency demo_sc_7 7) 7 7 ∧
    shape2 oce 7 7 ∧
    ∀ i j : nat, (i < 7)%nat → (j < 7)%nat →
      entry2 oce i j
      = Some (demo_task_energy (Energy.adjacency demo_sc_7 7)
                (Energy.transition_task id (np_eye 7) 7
                   (state_mean 7 (nan_ttss 7) (state_mask labels i))
                   (state_mean 7 (nan_ttss 7) (state_mask labels j)))).
Proof.
  destruct (full_state_maps_feed_energy id demo_task_energy atlas_7 42 7
              (nan_ttss 7) [] [])
    as (labels & maps & Hl & Hm & H).
  - repeat constructor.
  - reflexivity.
  - lia.
  - constructor.
  - destruct (H (Some demo_sc_7)) as [Hload Hsaved].
    assert (Hrun : ∃ oce,
              Energy.get_control_energy id demo_task_energy
                (Some (Energy.state_table ([] ++ maps ++ []))) (Some demo_sc_7)
                42 7 = Ok (Energy.Saved oce)).
    { unfold Energy.get_control_energy. rewrite Hload, energy_matrix_eq.
      by eexists. }
    destruct Hrun as [oce Hrun].
    destruct (Hsaved oce Hrun) as (sc & [= <-] & Hshape & Hentries).
    exists labels, maps, oce.
    repeat (split; [done|]).
    split; [|done]. split; [reflexivity|]. repeat constructor.
Defined.

(** ** The summary tables *)

Lemma mapM_app {A B} (f : A → result B) (l1 l2 : list A) :
  mapM f (l1 ++ l2)
  = (ys1 ← mapM f l1; ys2 ← mapM f l2; Ok (ys1 ++ ys2)).
Proof.
  induction l1 as [|x l1 IH]; simpl.
  - by destruct (mapM f l2).
  - destruct (f x) as [y|e]; simpl; [|done]. rewrite IH.
    destruct (mapM f l1) as [ys1|e]; simpl; [|done].
    by destruct (mapM f l2).
Qed.

Lemma mapM_exn_only {A B} (f : A → result B) (l : list A) e :
  (∀ x, (∃ y, f x = Ok y) ∨ f x = Raise e) →
  (∃ ys, mapM f l = Ok ys) ∨ mapM f l = Raise e.
Proof.
  intros Hf. induction l as [|x l IH]; simpl; [by eauto|].
  destruct (Hf x) as [[y ->]| ->]; simpl; [|by right].
  destruct IH as [[ys ->]| ->]; simpl; eauto.
Qed.

Lemma np_index_exn {A} (a : list A) (i : Z) :
  (∃ x, np_index a i = Ok x) ∨ np_index a i = Raise IndexError.
Proof.
  unfold np_index. case_match; [by right|].
  destruct (a !! _); eauto.
Qed.

Lemma mapM_np_index_imap {A B} (g : Z → A → B) (l : list A) (start k : nat) :
  (start + k ≤ length l)%nat →
  mapM (λ i, x ← np_index l i; Ok (g i x))
       (seqZ (Z.of_nat start) (Z.of_nat k))
  = Ok (imap (λ i x, g (Z.of_nat (start + i)) x) (take k (drop start l))).
Proof.
  revert start. induction k as [|k IH]; intros start Hk; [done|].
  rewrite seqZ_cons by lia.
  replace (Z.pred (Z.of_nat (S k))) with (Z.of_nat k) by lia.
  replace (Z.succ (Z.of_nat start)) with (Z.of_nat (S start)) by lia.
  destruct (lookup_lt_is_Some_2 l start) as [x Hx]; [lia|].
  rewrite (drop_S l x start Hx).
  change (take (S k) (x :: ?t)) with (x :: take k t).
  apply mapM_Ok_cons.
  - rewrite np_index_nonneg, Nat2Z.id, Hx by lia. simpl.
    by rewrite Nat.add_0_r.
  - rewrite IH by lia. f_equal. apply imap_ext. intros i y _. simpl.
    do 2 f_equal. lia.
Qed.

Lemma mapM_np_index_short {A B} (g : Z → A → B) (l : list A) (n : Z) :
  Z.of_nat (length l) < n →
  mapM (λ i, x ← np_index l i; Ok (g i x)) (seqZ 0 n) = Raise IndexError.
Proof.
  intros Hn.
  replace n with (Z.of_nat (length l) + (n - Z.of_nat (length l))) by lia.
  rewrite seqZ_app by lia. rewrite mapM_app.
  pose proof (mapM_np_index_imap g l 0 (length l)) as H0.
  change (Z.of_nat 0) with 0 in H0. rewrite H0 by lia.
  change (Ok ?x ≫= ?f) with (f x). cbv beta.
  rewrite seqZ_cons by lia.
  change (mapM ?h (?a :: ?t)) with (y ← h a; r ← mapM h t; mret (y :: r)).
  cbv beta. by rewrite np_index_out_of_range by lia.
Qed.

Lemma off_diagonal_row {A} (row : list A) (d : nat) :
  concat (imap (λ j x, if decide (d = j) then [] else [x]) row)
  = take d row ++ drop (S d) row.
Proof.
  revert d. induction row as [|x row IH]; intros d; [by destruct d|].
  rewrite imap_cons. simpl concat. destruct d as [|d].
  - rewrite decide_True by done. simpl.
    rewrite (imap_ext _ (λ _ y, [y])).
    + rewrite drop_0. clear IH. induction row as [|y row IH']; [done|].
      rewrite imap_cons. simpl. f_equal. exact IH'.
    + intros j y _. simpl. by try rewrite decide_False.
  - rewrite decide_False by done. simpl. f_equal.
    rewrite <- IH. f_equal. apply imap_ext. intros j y _. simpl.
    destruct (decide (d = j)) as [->|Hne].
    + by rewrite decide_True.
    + rewrite decide_False; [done|]. lia.
Qed.

Lemma off_diagonal_eq {A} (m : matrix A) :
  Forall (λ row, length row = length m) m →
  off_diagonal m
  = Ok (concat (imap (λ i row, take i row ++ drop (S i) row) m)).
Proof.
  intros H. unfold off_diagonal. rewrite decide_True by done.
  do 2 f_equal. apply imap_ext. intros i row _. apply off_diagonal_row.
Qed.

Lemma np_diag_lookup_at {A} (m : matrix A) (k i : nat) :
  Forall (λ row, (k + length m ≤ length row)%nat) m →
  omap id (imap (λ i row, row !! (k + i)%nat) m) !! i
  = m !! i ≫= (.!! (k + i)%nat).
Proof.
  revert k i. induction m as [|row m IH]; intros k i Hm; [done|].
  apply Forall_cons in Hm as [Hrow Hm]. simpl length in *.
  rewrite imap_cons.
  destruct (lookup_lt_is_Some_2 row (k + 0)) as [x Hx]; [lia|].
  change (omap id (?o :: ?l)) with (match id o with
                                    | Some y => y :: omap id l
                                    | None => omap id l
                                    end).
  unfold id at 1. rewrite Hx.
  destruct i as [|i]; [simpl; by rewrite Hx|]. simpl.
  rewrite (imap_ext _ (λ i row, row !! (S k + i)%nat)).
  - rewrite IH.
    + replace (S k + i)%nat with (k + S i)%nat by lia. done.
    + eapply Forall_impl; [exact Hm|]. intros r Hr. simpl in Hr. lia.
  - intros j r _. simpl. f_equal. lia.
Qed.

Lemma np_diag_lookup {A} (m : matrix A) (i : nat) :
  Forall (λ row, length row = length m) m →
  np_diag m !! i = entry2 m i i.
Proof.
  intros H. unfold np_diag, entry2.
  apply (np_diag_lookup_at m 0 i).
  eapply Forall_impl; [exact H|]. intros r Hr. simpl in *. lia.
Qed.

Lemma length_np_diag {A} (m : matrix A) :
  Forall (λ row, length row = length m) m → length (np_diag m) = length m.
Proof.
  intros H. destruct (decide (length (np_diag m) = length m)) as [|Hne]; [done|].
  exfalso.
  destruct (decide (length (np_diag m) < length m)%nat) as [Hlt|Hge].
  - pose proof (np_diag_lookup m (length (np_diag m)) H) as E.
    rewrite lookup_ge_None_2 in E by lia. unfold entry2 in E.
    destruct (lookup_lt_is_Some_2 m (length (np_diag m)) Hlt) as [row Hrow].
    rewrite Hrow in E. simpl in E. symmetry in E.
    apply lookup_ge_None in E. rewrite Forall_lookup in H.
    rewrite (H _ _ Hrow) in E. lia.
  - pose proof (np_diag_lookup m (length m) H) as E.
    destruct (lookup_lt_is_Some_2 (np_diag m) (length m)) as [x Hx]; [lia|].
    rewrite Hx in E. unfold entry2 in E.
    by rewrite lookup_ge_None_2 in E by lia.
Qed.

Lemma length_off_diagonal {A} (m : matrix A) (n : nat) :
  length m = n → Forall (λ row, length row = n) m →
  length (concat (imap (λ i row, take i row ++ drop (S i) row) m))
  = (n * (n - 1))%nat.
Proof.
  intros Hn H.
  rewrite (length_concat_blocks _ (n - 1)).
  - rewrite length_imap. lia.
  - apply Forall_lookup. intros i block Hb.
    apply list_lookup_imap_Some in Hb as (row & Hrow & ->).
    rewrite length_app, length_take, length_drop.
    rewrite Forall_lookup in H. rewrite (H _ _ Hrow).
    apply lookup_lt_Some in Hrow. lia.
Qed.

Section OrganizeErrors.
Variable log10 : fval → fval.
Variable load_subject_data : string → Z → option (matrix fval).

Lemma subject_rows_exn condition sub_id matrix :
  (∃ r, Organize.subject_rows log10 condition sub_id matrix = Ok r)
  ∨ Organize.subject_rows log10 condition sub_id matrix = Raise IndexError.
Proof.
  unfold Organize.subject_rows. cbv zeta.
  match goal with
  | |- context [mapM ?f ?l] =>
      destruct (mapM_exn_only f l IndexError) as [[te ->]| ->]
  end.
  - intros k. destruct (np_index_exn (concat matrix) k) as [[x ->]| ->];
      simpl; eauto.
  - change (Ok ?x ≫= ?f) with (f x). cbv beta.
    unfold off_diagonal. case_decide; simpl; eauto.
  - by right.
Qed.

(** X27.  An energy file whose array is not square makes
    [organize_energy_metrics] raise [IndexError], at the flattened
    index when it has fewer columns than rows and at the off-diagonal
    mask when it has more; no table is saved for any subject. *)
Theorem non_square_energy_matrix_raises condition sub_id matrix
    (n_columns : nat) mdd_list hc_list :
  matrix ≠ [] →
  Forall (λ row, length row = n_columns) matrix →
  n_columns ≠ length matrix →
  Organize.subject_rows log10 condition sub_id matrix = Raise IndexError ∧
  ((condition, sub_id, matrix)
     ∈ Organize.loaded_subjects load_subject_data mdd_list hc_list →
   Organize.organize_energy_metrics log10 load_subject_data mdd_list hc_list
   = Raise IndexError).
Proof.
  intros Hne Hrect Hcols.
  assert (Hraise : Organize.subject_rows log10 condition sub_id matrix
                   = Raise IndexError).
  { unfold Organize.subject_rows. cbv zeta.
    pose proof (length_concat_blocks matrix n_columns Hrect) as Hflat.
    destruct (decide (n_columns < length matrix)%nat) as [Hlt|Hge].
    - rewrite mapM_np_index_short; [done|]. rewrite Hflat. nia.
    - pose proof (mapM_np_index_imap
                    (λ k x, {| Organize.row_subject_id := sub_id;
                               Organize.row_condition := condition;
                               Organize.row_state_k := Organize.TE_ (k + 1);
                               Organize.row_value := x |})
                    (concat matrix) 0 (length matrix * length matrix)) as H0.
      change (Z.of_nat 0) with 0 in H0.
      rewrite Nat2Z.inj_mul in H0. rewrite H0 by (rewrite Hflat; nia).
      change (Ok ?x ≫= ?f) with (f x). cbv beta.
      unfold off_diagonal. rewrite decide_False; [done|].
      intros Hall. destruct matrix as [|row rows]; [done|].
      apply Forall_cons in Hall as [Hr _].
      apply Forall_cons in Hrect as [Hr' _]. congruence. }
  split; [done|]. intros Hin. unfold Organize.organize_energy_metrics.
  rewrite (mapM_Raise_only _ _ IndexError); [done| |].
  - apply Forall_forall. intros [[c s] m] _. simpl.
    destruct (subject_rows_exn c s m) as [[r Hr]|Hr]; eauto.
  - apply Exists_exists. by exists (condition, sub_id, matrix).
Qed.
End OrganizeErrors.

(** X27, witness: an array of shape (1, 2). *)
Lemma non_square_energy_matrix_raises_witness :
  Organize.subject_rows id "MDD" 1 [[Fin 1; Fin 2]] = Raise IndexError ∧
  (("MDD"%string, 1, [[Fin 1; Fin 2]])
     ∈ Organize.loaded_subjects (λ _ _, Some [[Fin 1; Fin 2]]) [1] [] →
   Organize.organize_energy_metrics id (λ _ _, Some [[Fin 1; Fin 2]]) [1] []
   = Raise IndexError).
Proof.
  apply (non_square_energy_matrix_raises id (λ _ _, Some [[Fin 1; Fin 2]])
           "MDD" 1 [[Fin 1; Fin 2]] 2 [1] []).
  - done.
  - repeat constructor.
  - simpl. lia.
Defined.

Section SquareMatrix.
Variable log10 : fval → fval.
Variable condition : string.
Variable sub_id : Z.

Abbreviation table_row_of := (Organize.table_row_of condition sub_id).

Lemma subject_rows_square matrix :
  Forall (λ row, length row = length matrix) matrix →
  Organize.subject_rows log10 condition sub_id matrix
  = Ok (imap (λ k x, table_row_of (Organize.TE_ (Z.of_nat k + 1)) x)
             (concat matrix),
        table_row_of Organize.ave_TE
          (np_mean (concat (imap (λ i row, take i row ++ drop (S i) row)
                                 matrix))),
        table_row_of Organize.ave_PE (np_mean (np_diag matrix)),
        table_row_of Organize.global_stability
          (if fpos (np_mean (np_diag matrix))
           then frecip (log10 (np_mean (np_diag matrix))) else NaN)).
Proof.
  intros Hsq. unfold Organize.subject_rows. cbv zeta.
  pose proof (length_concat_blocks matrix (length matrix) Hsq) as Hflat.
  pose proof (mapM_np_index_imap
                (λ k x, table_row_of (Organize.TE_ (k + 1)) x)
                (concat matrix) 0 (length matrix * length matrix)) as H0.
  change (Z.of_nat 0) with 0 in H0.
  rewrite Nat2Z.inj_mul in H0. unfold Organize.table_row_of in H0 at 1.
  rewrite H0 by (rewrite Hflat; lia).
  change (Ok ?x ≫= ?f) with (f x). cbv beta.
  rewrite off_diagonal_eq by done.
  change (Ok ?x ≫= ?f) with (f x). cbv beta.
  rewrite drop_0, take_ge by (rewrite Hflat; lia). done.
Qed.

(** X28.  For a square [n] x [n] energy matrix, a subject contributes
    [n * n] rows to the table of transition energies, row-major: the
    row at position [i * n + j] has the key [TE_{i*n+j+1}] and the value
    [matrix[i, j]]; the average TE is the mean of the [n * (n - 1)]
    off-diagonal entries, the average PE the mean of the [n] diagonal
    entries, and the stability is [1 / log10] of the average PE when
    that is positive and NaN otherwise. *)
Theorem square_energy_matrix_rows matrix :
  Forall (λ row, length row = length matrix) matrix →
  let n := length matrix in
  ∃ all_te te pe stability off,
    Organize.subject_rows log10 condition sub_id matrix
    = Ok (all_te, te, pe, stability) ∧
    (length all_te = (n * n)%nat ∧
     ∀ (i j : nat) x, entry2 matrix i j = Some x →
       all_te !! (i * n + j)%nat
       = Some {| Organize.row_subject_id := sub_id;
                 Organize.row_condition := condition;
                 Organize.row_state_k :=
                   Organize.TE_ (Z.of_nat (i * n + j) + 1);
                 Organize.row_value := x |}) ∧
    (off_diagonal matrix = Ok off ∧ length off = (n * (n - 1))%nat ∧
     te = {| Organize.row_subject_id := sub_id;
             Organize.row_condition := condition;
             Organize.row_state_k := Organize.ave_TE;
             Organize.row_value := np_mean off |}) ∧
    (length (np_diag matrix) = n ∧
     (∀ i : nat, np_diag matrix !! i = entry2 matrix i i) ∧
     pe = {| Organize.row_subject_id := sub_id;
             Organize.row_condition := condition;
             Organize.row_state_k := Organize.ave_PE;
             Organize.row_value := np_mean (np_diag matrix) |}) ∧
    stability
    = {| Organize.row_subject_id := sub_id;
         Organize.row_condition := condition;
         Organize.row_state_k := Organize.global_stability;
         Organize.row_value :=
           if fpos (Organize.row_value pe)
           then frecip (log10 (Organize.row_value pe)) else NaN |}.
Proof.
  intros Hsq n. do 5 eexists.
  split; [by apply subject_rows_square|].
  pose proof (length_concat_blocks matrix n Hsq) as Hflat.
  split; [|split; [|split]].
  - split; [by rewrite length_imap|].
    intros i j x Hx. unfold entry2 in Hx.
    destruct (matrix !! i) as [row|] eqn:Hrow; [|done]. simpl in Hx.
    rewrite list_lookup_imap.
    by rewrite (concat_lookup_block matrix n i j row x Hsq Hrow Hx).
  - split; [by apply off_diagonal_eq|]. split; [|done].
    by apply length_off_diagonal.
  - split; [by apply length_np_diag|]. split; [|done].
    intros i. by apply np_diag_lookup.
  - done.
Qed.
End SquareMatrix.

(** X28, witness: a 2 x 2 matrix. *)
Lemma square_energy_matrix_rows_witness :
  let n := length [[Fin 1; Fin 2]; [Fin 3; Fin 4]] in
  ∃ all_te te pe stability off,
    Organize.subject_rows id "HC" 5 [[Fin 1; Fin 2]; [Fin 3; Fin 4]]
    = Ok (all_te, te, pe, stability) ∧
    (length all_te = (n * n)%nat ∧
     ∀ (i j : nat) x, entry2 [[Fin 1; Fin 2]; [Fin 3; Fin 4]] i j = Some x →
       all_te !! (i * n + j)%nat
       = Some {| Organize.row_subject_id := 5;
                 Organize.row_condition := "HC";
                 Organize.row_state_k :=
                   Organize.TE_ (Z.of_nat (i * n + j) + 1);
                 Organize.row_value := x |}) ∧
    (off_diagonal [[Fin 1; Fin 2]; [Fin 3; Fin 4]] = Ok off ∧
     length off = (n * (n - 1))%nat ∧
     te = {| Organize.row_subject_id := 5;
             Organize.row_condition := "HC";
             Organize.row_state_k := Organize.ave_TE;
             Organize.row_value := np_mean off |}) ∧
    (length (np_diag [[Fin 1; Fin 2]; [Fin 3; Fin 4]]) = n ∧
     (∀ i : nat, np_diag [[Fin 1; Fin 2]; [Fin 3; Fin 4]] !! i
                 = entry2 [[Fin 1; Fin 2]; [Fin 3; Fin 4]] i i) ∧
     pe = {| Organize.row_subject_id := 5;
             Organize.row_condition := "HC";
             Organize.row_state_k := Organize.ave_PE;
             Organize.row_value :=
               np_mean (np_diag [[Fin 1; Fin 2]; [Fin 3; Fin 4]]) |}) ∧
    stability
    = {| Organize.row_subject_id := 5;
         Organize.row_condition := "HC";
         Organize.row_state_k := Organize.global_stability;
         Organize.row_value :=
           if fpos (Organize.row_value pe)
           then frecip (id (Organize.row_value pe)) else NaN |}.
Proof.
  apply (square_energy_matrix_rows id "HC" 5 [[Fin 1; Fin 2]; [Fin 3; Fin 4]]).
  repeat constructor.
Defined.

(** *** The two averages split the matrix *)

Lemma sumQ_app (l1 l2 : list Q) : (sumQ (l1 ++ l2) == sumQ l1 + sumQ l2)%Q.
Proof.
  induction l1 as [|x l1 IH].
  - simpl. ring.
  - rewrite <- app_comm_cons, !sumQ_cons, IH. ring.
Qed.

Lemma foldl_Qplus_sumQ (a : Q) (qs : list Q) :
  (foldl Qplus a qs == a + sumQ qs)%Q.
Proof.
  revert a. induction qs as [|q qs IH]; intros a.
  - simpl. ring.
  - simpl foldl. rewrite IH, sumQ_cons. ring.
Qed.

Lemma row_split_sum (row : list Q) (d : nat) :
  (sumQ (take d row ++ drop (S d) row) + sumQ (option_list (row !! d))
   == sumQ row)%Q.
Proof.
  destruct (row !! d) as [x|] eqn:Hd.
  - rewrite <- (take_drop_middle row d x Hd) at 3.
    rewrite !sumQ_app, sumQ_cons. simpl. ring.
  - apply lookup_ge_None in Hd.
    rewrite take_ge, drop_ge, app_nil_r by lia. simpl. ring.
Qed.

Lemma omap_id_cons {A} (o : option A) (l : list (option A)) :
  omap id (o :: l) = option_list o ++ omap id l.
Proof. by destruct o. Qed.

Lemma matrix_split_sum_at (m : matrix Q) (k : nat) :
  (sumQ (concat (imap (λ i row, take (k + i) row ++ drop (S (k + i)) row) m))
   + sumQ (omap id (imap (λ i row, row !! (k + i)%nat) m))
   == sumQ (concat m))%Q.
Proof.
  revert k. induction m as [|row m IH]; intros k.
  - simpl. ring.
  - rewrite !imap_cons, omap_id_cons. simpl concat.
    rewrite !sumQ_app.
    rewrite (imap_ext _ (λ i row, take (S k + i) row ++ drop (S (S k + i)) row)).
    2:{ intros i r _. simpl. by replace (k + S i)%nat with (S (k + i)) by lia. }
    rewrite (imap_ext (_ ∘ S) (λ i row, row !! (S k + i)%nat)).
    2:{ intros i r _. simpl. by replace (k + S i)%nat with (S (k + i)) by lia. }
    rewrite <- (IH (S k)), <- (row_split_sum row (k + 0)).
    rewrite !sumQ_app. ring.
Qed.

Lemma matrix_split_sum (m : matrix Q) :
  (sumQ (concat (imap (λ i row, take i row ++ drop (S i) row) m))
   + sumQ (np_diag m)
   == sumQ (concat m))%Q.
Proof. apply (matrix_split_sum_at m 0). Qed.

Lemma omap_id_fmap {A B} (f : A → B) (l : list (option A)) :
  omap id ((λ o : option A, f <$> o) <$> l) = f <$> omap id l.
Proof.
  induction l as [|[x|] l IH]; [done| |]; rewrite fmap_cons, !omap_id_cons.
  - simpl. by rewrite IH.
  - simpl. by rewrite IH.
Qed.

Lemma np_diag_fmap {A B} (f : A → B) (m : matrix A) :
  np_diag ((λ row : list A, f <$> row) <$> m) = f <$> np_diag m.
Proof.
  unfold np_diag. rewrite imap_fmap, <- omap_id_fmap, fmap_imap.
  f_equal. apply imap_ext. intros i row _. simpl.
  apply list_lookup_fmap.
Qed.

Lemma off_diagonal_fmap {A B} (f : A → B) (m : matrix A) :
  concat (imap (λ i row, take i row ++ drop (S i) row)
               ((λ row : list A, f <$> row) <$> m))
  = f <$> concat (imap (λ i row, take i row ++ drop (S i) row) m).
Proof.
  rewrite imap_fmap, fmap_concat_blocks, fmap_imap. f_equal.
  apply imap_ext. intros i row _. simpl.
  by rewrite fmap_app, fmap_take, fmap_drop.
Qed.

Lemma np_mean_Fin (qs : list Q) :
  qs ≠ [] →
  ∃ a, np_mean (Fin <$> qs) = Fin a ∧
       (a * inject_Z (Z.of_nat (length qs)) == sumQ qs)%Q.
Proof.
  intros Hne. destruct qs as [|q qs]; [done|].
  unfold np_mean. rewrite fmap_cons.
  change (fsum (Fin q :: (Fin <$> qs))) with (fsum (Fin <$> (q :: qs))).
  rewrite fsum_Fin, length_cons, length_fmap. simpl fdiv_count.
  eexists. split; [done|].
  rewrite foldl_Qplus_sumQ, sumQ_cons. simpl length.
  assert (Hd : ¬ (inject_Z (Z.of_nat (S (length qs))) == 0)%Q).
  { unfold Qeq. simpl. lia. }
  revert Hd. generalize (inject_Z (Z.of_nat (S (length qs)))).
  intros d Hd. field. done.
Qed.

(** X29.  For a square matrix of finite energies with at least two
    states, the two averages account for every entry once:
    [n (n - 1) * ave_TE + n * ave_PE] is the sum of all entries. *)
Theorem energy_averages_partition (log10 : fval → fval) condition sub_id
    (energies : matrix Q) :
  (2 ≤ length energies)%nat →
  Forall (λ row, length row = length energies) energies →
  let n := Z.of_nat (length energies) in
  ∃ all_te te pe stability a p,
    Organize.subject_rows log10 condition sub_id
      ((λ row : list Q, Fin <$> row) <$> energies)
    = Ok (all_te, te, pe, stability) ∧
    Organize.row_value te = Fin a ∧
    Organize.row_value pe = Fin p ∧
    (a * inject_Z (n * (n - 1)) + p * inject_Z n
     == sumQ (concat energies))%Q.
Proof.
  intros Hn Hsq n.
  assert (Hsq' : Forall (λ row, length row
                                = length ((λ row : list Q, Fin <$> row) <$> energies))
                   ((λ row : list Q, Fin <$> row) <$> energies)).
  { rewrite length_fmap. apply Forall_fmap.
    eapply Forall_impl; [exact Hsq|]. intros row Hrow. simpl.
    by rewrite length_fmap. }
  pose proof (length_off_diagonal energies (length energies) eq_refl Hsq)
    as Hoff.
  pose proof (length_np_diag energies Hsq) as Hdiag.
  destruct (np_mean_Fin (concat (imap (λ i row, take i row ++ drop (S i) row)
                                      energies))) as (a & Ha & Hsa).
  { intros E. rewrite E in Hoff. simpl in Hoff. nia. }
  destruct (np_mean_Fin (np_diag energies)) as (p & Hp & Hsp).
  { intros E. rewrite E in Hdiag. simpl in Hdiag. lia. }
  do 4 eexists. exists a, p.
  split; [by apply subject_rows_square|]. cbn [Organize.row_value Organize.table_row_of].
  rewrite off_diagonal_fmap, np_diag_fmap.
  split; [done|]. split; [done|].
  rewrite <- matrix_split_sum, <- Hsa, <- Hsp, Hoff, Hdiag.
  replace (Z.of_nat (length energies * (length energies - 1)))
    with (n * (n - 1)) by (unfold n; nia).
  reflexivity.
Qed.

(** X29, witness: a 2 x 2 matrix. *)
Lemma energy_averages_partition_witness :
  let n := Z.of_nat (length [[1; 2]; [3; 4]]%Q) in
  ∃ all_te te pe stability a p,
    Organize.subject_rows id "HC" 5
      ((λ row : list Q, Fin <$> row) <$> [[1; 2]; [3; 4]]%Q)
    = Ok (all_te, te, pe, stability) ∧
    Organize.row_value te = Fin a ∧
    Organize.row_value pe = Fin p ∧
    (a * inject_Z (n * (n - 1)) + p * inject_Z n
     == sumQ (concat [[1; 2]; [3; 4]]%Q))%Q.
Proof.
  apply (energy_averages_partition id "HC" 5 [[1; 2]; [3; 4]]%Q).
  - simpl. lia.
  - repeat constructor.
Defined.

(** *** From the control tasks to the table of transition energies *)

(** X30.  The table built from the matrix that [get_control_energy]
    saves lists the transitions in the order of the control tasks: with
    [n] states, the row [TE_{i*n+j+1}] of the subject is the energy of the
    transition from state i to state j, so the rows [TE_{i*n+i+1}] are the
    persistence energies. *)
Theorem transition_energy_table
    (log10 : fval → fval) (normalize_state : list fval → list fval)
    (task_energy : matrix fval → Energy.control_task → fval)
    states_file sc_file subject_id n_roi condition oce :
  Energy.get_control_energy normalize_state task_energy
    states_file sc_file subject_id n_roi = Ok (Energy.Saved oce) →
  oce ≠ [] →
  ∃ states_matrix A all_te te pe stability,
    Energy.inputs_complete states_file sc_file subject_id n_roi
      states_matrix A ∧
    Organize.subject_rows log10 condition subject_id oce
    = Ok (all_te, te, pe, stability) ∧
    ∀ (i j : nat) initial target,
      states_matrix !! i = Some initial →
      states_matrix !! j = Some target →
      all_te !! (i * length states_matrix + j)%nat
      = Some {| Organize.row_subject_id := subject_id;
                Organize.row_condition := condition;
                Organize.row_state_k :=
                  Organize.TE_
                    (Z.of_nat (i * length states_matrix + j) + 1);
                Organize.row_value :=
                  task_energy A
                    (Energy.transition_task normalize_state (np_eye n_roi)
                       n_roi initial target) |}.
Proof.
  unfold Energy.get_control_energy.
  destruct (Energy.load_inputs states_file sc_file subject_id n_roi)
    as [why|[states_matrix A]] eqn:E; [done|].
  rewrite energy_matrix_eq. intros [= <-] _.
  set (oce := (λ initial,
                 (λ target, task_energy A
                    (Energy.transition_task normalize_state (np_eye n_roi)
                       n_roi initial target)) <$> states_matrix)
                <$> states_matrix).
  assert (Hsq : Forall (λ row, length row = length oce) oce).
  { unfold oce. rewrite length_fmap. apply Forall_fmap, Forall_true.
    intros initial. simpl. by rewrite length_fmap. }
  exists states_matrix, A. do 4 eexists.
  split; [by apply load_inputs_inr|].
  split; [by apply subject_rows_square|].
  intros i j initial target Hi Hj. rewrite list_lookup_imap.
  assert (Hlen : length oce = length states_matrix)
    by (unfold oce; by rewrite length_fmap).
  rewrite <- Hlen.
  erewrite (concat_lookup_block oce (length oce) i j); [done|done| |].
  - unfold oce. by rewrite list_lookup_fmap, Hi.
  - by rewrite list_lookup_fmap, Hj.
Qed.

(** X30, witness: two states of one region. *)
Lemma transition_energy_table_witness :
  ∃ states_matrix A all_te te pe stability,
    Energy.inputs_complete (Some demo_state_table) (Some demo_sc) 7 1
      states_matrix A ∧
    Organize.subject_rows id "MDD" 7 [[Fin 1; Fin 2]; [Fin 1; Fin 2]]
    = Ok (all_te, te, pe, stability) ∧
    ∀ (i j : nat) initial target,
      states_matrix !! i = Some initial →
      states_matrix !! j = Some target →
      all_te !! (i * length states_matrix + j)%nat
      = Some {| Organize.row_subject_id := 7;
                Organize.row_condition := "MDD";
                Organize.row_state_k :=
                  Organize.TE_
                    (Z.of_nat (i * length states_matrix + j) + 1);
                Organize.row_value :=
                  demo_task_energy A
                    (Energy.transition_task id (np_eye 1) 1 initial target) |}.
Proof.
  apply (transition_energy_table id id demo_task_energy
           (Some demo_state_table) (Some demo_sc) 7 1 "MDD").
  - reflexivity.
  - done.
Defined.

